(** * stemgen: the libopenmpt glue (song info, stem rendering, sample export)

    A shallow embedding of the three C++ interface files of the repository:

    - [Interface]  : src/external/libopenmpt/interface.cpp
    - [Part000]    : src/unnamed/part_000 (the variant with [RenderParams]
                     and the sample exporter)
    - [Part001]    : src/unnamed/part_001 (the old [get_song_info])

    libopenmpt itself is an external collaborator.  It is represented by a
    record of observations and scripted answers ([Song]), so that every
    entry point can be evaluated on a concrete decoder. *)

From Stdlib Require Import ZArith List String Ascii Bool Lia.
From Stdlib Require Import DecimalString DecimalN DecimalPos FinFun.
From Stdlib Require Import Floats.SpecFloat.
Import ListNotations.

Open Scope string_scope.
Open Scope list_scope.
Open Scope Z_scope.

(** ** Machine arithmetic *)

(** [uint32_t] arithmetic wraps around modulo 2^32; the cast of a [size_t]
    to [uint32_t] keeps the low 32 bits. *)
Definition wrap32 (z : Z) : Z := z mod 2 ^ 32.

(** [(float)d] for a [double] [d]: round to nearest even on binary32
    (24 bits of precision, exponents up to 128); zeros, infinities and NaN
    keep their class. *)
Definition double_to_float (d : spec_float) : spec_float :=
  match d with
  | S754_finite s m e => binary_round 24 128 s m e
  | _ => d
  end.

(** ** The decoder *)

Inductive interface_id : Type :=
| interactive_id
| interactive2_id.

(** What one [read]/[read_interleaved_stereo] call does: it renders [n]
    frames and returns [n] (a [size_t]), or it throws. *)
Inductive read_result : Type :=
| Frames (n : Z)
| Raise.

(** The calls that mutate the decoder or the caller's buffer, as the
    decoder receives them.  [CallRead elem stereo count dest r]: a read of
    [count] frames into the destination that starts [dest] elements of
    [elem] bytes after [output]; [r] is what the call did. *)
Inductive call : Type :=
| CallSetChannelMute (i : Z) (mute : bool)
| CallSetInstrumentMute (i : Z) (mute : bool)
| CallSetRenderParam (value : Z)
| CallRead (elem : Z) (stereo : bool) (count : Z) (dest : Z) (r : read_result).

(** [OpenMPT::CSoundFile], as far as the sample exporter uses it: the
    writers take the sample index and the name of the stream they write to
    and report success. *)
Record CSoundFile : Type := {
  GetNumSamples : Z;
  SaveFLACSample : Z -> string -> bool;
  SaveWAVSample : Z -> string -> bool
}.

(** A loaded module ([openmpt::module] / [openmpt::module_ext]).
    [produce k count stereo] is the decoder's answer to its [k]-th read
    call when [count] frames are requested; [calls] logs the mutating
    calls, most recent first. *)
Record Song : Type := {
  get_num_channels : Z;
  get_num_instruments : Z;
  get_num_samples : Z;
  get_duration_seconds : spec_float;
  get_interface : interface_id -> bool;
  get_channel_mute_status : Z -> bool;
  get_instrument_mute_status : Z -> bool;
  get_render_param : option Z;
  get_snd_file : CSoundFile;
  produce : nat -> Z -> bool -> read_result;
  position : nat;
  calls : list call
}.

Definition set_channel_mute_status (i : Z) (mute : bool) (s : Song) : Song :=
  {| get_num_channels := get_num_channels s;
     get_num_instruments := get_num_instruments s;
     get_num_samples := get_num_samples s;
     get_duration_seconds := get_duration_seconds s;
     get_interface := get_interface s;
     get_channel_mute_status :=
       fun j => if j =? i then mute else get_channel_mute_status s j;
     get_instrument_mute_status := get_instrument_mute_status s;
     get_render_param := get_render_param s;
     get_snd_file := get_snd_file s;
     produce := produce s;
     position := position s;
     calls := CallSetChannelMute i mute :: calls s |}.

Definition set_instrument_mute_status (i : Z) (mute : bool) (s : Song) : Song :=
  {| get_num_channels := get_num_channels s;
     get_num_instruments := get_num_instruments s;
     get_num_samples := get_num_samples s;
     get_duration_seconds := get_duration_seconds s;
     get_interface := get_interface s;
     get_channel_mute_status := get_channel_mute_status s;
     get_instrument_mute_status :=
       fun j => if j =? i then mute else get_instrument_mute_status s j;
     get_render_param := get_render_param s;
     get_snd_file := get_snd_file s;
     produce := produce s;
     position := position s;
     calls := CallSetInstrumentMute i mute :: calls s |}.

(** [set_render_param(RENDER_STEREOSEPARATION_PERCENT, value)]. *)
Definition set_render_param (value : Z) (s : Song) : Song :=
  {| get_num_channels := get_num_channels s;
     get_num_instruments := get_num_instruments s;
     get_num_samples := get_num_samples s;
     get_duration_seconds := get_duration_seconds s;
     get_interface := get_interface s;
     get_channel_mute_status := get_channel_mute_status s;
     get_instrument_mute_status := get_instrument_mute_status s;
     get_render_param := Some value;
     get_snd_file := get_snd_file s;
     produce := produce s;
     position := position s;
     calls := CallSetRenderParam value :: calls s |}.

(** A read call: the decoder answers from its script, moves on, and the
    call is logged with its destination. *)
Definition read_into (elem : Z) (stereo : bool) (count dest : Z) (s : Song)
  : read_result * Song :=
  let r := produce s (position s) count stereo in
  (r,
   {| get_num_channels := get_num_channels s;
      get_num_instruments := get_num_instruments s;
      get_num_samples := get_num_samples s;
      get_duration_seconds := get_duration_seconds s;
      get_interface := get_interface s;
      get_channel_mute_status := get_channel_mute_status s;
      get_instrument_mute_status := get_instrument_mute_status s;
      get_render_param := get_render_param s;
      get_snd_file := get_snd_file s;
      produce := produce s;
      position := S (position s);
      calls := CallRead elem stereo count dest r :: calls s |}).

(** [song.read(samplerate, count, mono)] and
    [song.read_interleaved_stereo(samplerate, count, interleaved)]; the
    overload is chosen by the element type of the destination. *)
Definition read (elem samplerate count dest : Z) (s : Song) :=
  read_into elem false count dest s.

Definition read_interleaved_stereo (elem samplerate count dest : Z) (s : Song) :=
  read_into elem true count dest s.

(** [initial_ctls_map]: a string-keyed map; [ctls[k] = v] replaces. *)
Definition ctls_map : Type := list (string * string).

Definition ctls_set (k v : string) (m : ctls_map) : ctls_map :=
  (k, v) :: filter (fun kv => negb (String.eqb (fst kv) k)) m.

(** The two constructors of the library, [openmpt::module] and
    [openmpt::module_ext], from the initial ctls and the input bytes;
    [None] when the constructor throws. *)
Record libopenmpt : Type := {
  module : ctls_map -> list Byte.byte -> option Song;
  module_ext : ctls_map -> list Byte.byte -> option Song
}.

(** ** Data shared by the interface files *)

Record SongInfo : Type := {
  num_channels : Z;
  num_instruments : Z;
  length_seconds : spec_float
}.

(** [for (int i = lo; i < hi; ++i)]: the values [i] takes. *)
Definition int_interval (lo hi : Z) : list Z :=
  map (fun k => lo + Z.of_nat k) (seq 0 (Z.to_nat (hi - lo))).

Definition int_range (n : Z) : list Z := int_interval 0 n.

(** [printf]'s [%04d]: decimal digits, padded with zeros on the left to a
    width of four, the sign counting for one column. *)
Fixpoint zeros (n : nat) : string :=
  match n with
  | O => EmptyString
  | S n => String "0" (zeros n)
  end.

Definition pad0 (width : nat) (digits : string) : string :=
  (zeros (width - String.length digits) ++ digits)%string.

Definition format_04d (i : Z) : string :=
  if i <? 0
  then ("-" ++ pad0 3 (NilZero.string_of_uint (N.to_uint (Z.to_N (- i)))))%string
  else pad0 4 (NilZero.string_of_uint (N.to_uint (Z.to_N i))).

(** What the info entry point leaves outside its return value: the sample
    files it asked the sound file to write (index, stream name, success)
    and the lines it printed. *)
Inductive io_event : Type :=
| WriteFLAC (i : Z) (name : string) (ok : bool)
| WriteWAV (i : Z) (name : string) (ok : bool)
| Printf (line : string).

Definition newline : string := String (ascii_of_nat 10) EmptyString.

(** The state of a render loop: the loop index [i], the destination
    pointer as an element offset from [output], the frame counter and the
    decoder. *)
Record loop_state : Type := {
  ls_song : Song;
  ls_i : Z;
  ls_out : Z;
  ls_samples_generated : Z
}.

(** How a render loop is left: by its condition or its [break], or by an
    exception thrown in a read. *)
Inductive loop_exit : Type :=
| Completed (st : loop_state)
| Threw (st : loop_state).

(** What a call of [song_render_c] did: the value returned, whether it was
    returned after the [catch], and the decoder the call leaves behind
    ([None] when the module never loaded). *)
Record render_outcome : Type := {
  returned : Z;
  caught : bool;
  final_song : option Song
}.

(** ** src/external/libopenmpt/interface.cpp *)

Module Interface.

Definition get_song_info_c (mpt : libopenmpt) (buffer : list Byte.byte)
  : SongInfo :=
  let info := {| num_channels := 0; num_instruments := 0;
                 length_seconds := S754_zero false |} in
  let ctls := ctls_set "load.skip_plugins" "1" [] in
  match module mpt ctls buffer with
  | None => info
  | Some song =>
      let info := {| num_channels := get_num_channels song;
                     num_instruments := num_instruments info;
                     length_seconds := length_seconds info |} in
      let info := {| num_channels := num_channels info;
                     num_instruments := get_num_instruments song;
                     length_seconds := length_seconds info |} in
      let info :=
        if num_instruments info =? 0
        then {| num_channels := num_channels info;
                num_instruments := get_num_samples song;
                length_seconds := length_seconds info |}
        else info in
      {| num_channels := num_channels info;
         num_instruments := num_instruments info;
         length_seconds := double_to_float (get_duration_seconds song) |}
  end.

(** The two mute passes of [song_render_c]. *)
Definition mute_setup (channel_to_play instrument_to_play : Z)
    (num_channels instrument_count : Z) (song : Song) : Song :=
  let interactive := get_interface song interactive_id in
  let song :=
    if (channel_to_play >=? 0) && interactive
    then fold_left
           (fun s i =>
              if i =? channel_to_play
              then set_channel_mute_status i false s
              else set_channel_mute_status i true s)
           (int_range num_channels) song
    else song in
  if (instrument_to_play >=? 0) && interactive
  then fold_left
         (fun s i =>
            if i =? instrument_to_play
            then set_instrument_mute_status i false s
            else set_instrument_mute_status i true s)
         (int_range instrument_count) song
  else song.

(** The loop taken when [bytes_per_sample == 2]; [fuel] bounds the number
    of iterations that are evaluated, [None] means the loop is still
    running after that many. *)
Fixpoint render_loop_16bit (fuel : nat) (output_len sample_rate : Z)
    (stereo_output : bool) (st : loop_state) : option loop_exit :=
  match fuel with
  | O => None
  | S fuel =>
      if ls_i st <? output_len then
        let '(r, song, out) :=
          if stereo_output
          then
            let '(r, song) :=
              read_interleaved_stereo 2 sample_rate sample_rate (ls_out st)
                (ls_song st) in
            (r, song, ls_out st + wrap32 (sample_rate * 2))
          else
            let '(r, song) :=
              read 2 sample_rate sample_rate (ls_out st) (ls_song st) in
            (r, song, ls_out st + sample_rate) in
        match r with
        | Raise =>
            Some (Threw {| ls_song := song; ls_i := ls_i st;
                           ls_out := ls_out st;
                           ls_samples_generated := ls_samples_generated st |})
        | Frames n =>
            let gen_count := wrap32 n in
            let samples_generated :=
              wrap32 (ls_samples_generated st + gen_count) in
            if negb (gen_count =? sample_rate)
            then Some (Completed {| ls_song := song; ls_i := ls_i st;
                                    ls_out := out;
                                    ls_samples_generated := samples_generated |})
            else render_loop_16bit fuel output_len sample_rate stereo_output
                   {| ls_song := song;
                      ls_i := wrap32 (ls_i st + sample_rate);
                      ls_out := out;
                      ls_samples_generated := samples_generated |}
        end
      else Some (Completed st)
  end.

(** The loop taken for every other [bytes_per_sample]: the destination is
    a [float*]. *)
Fixpoint render_loop_float (fuel : nat) (output_len sample_rate : Z)
    (stereo_output : bool) (st : loop_state) : option loop_exit :=
  match fuel with
  | O => None
  | S fuel =>
      if ls_i st <? output_len then
        let '(r, song, out) :=
          if stereo_output
          then
            let '(r, song) :=
              read_interleaved_stereo 4 sample_rate sample_rate (ls_out st)
                (ls_song st) in
            (r, song, ls_out st + wrap32 (sample_rate * 2))
          else
            let '(r, song) :=
              read 4 sample_rate sample_rate (ls_out st) (ls_song st) in
            (r, song, ls_out st + sample_rate) in
        match r with
        | Raise =>
            Some (Threw {| ls_song := song; ls_i := ls_i st;
                           ls_out := ls_out st;
                           ls_samples_generated := ls_samples_generated st |})
        | Frames n =>
            let gen_count := wrap32 n in
            let samples_generated :=
              wrap32 (ls_samples_generated st + gen_count) in
            if negb (gen_count =? sample_rate)
            then Some (Completed {| ls_song := song; ls_i := ls_i st;
                                    ls_out := out;
                                    ls_samples_generated := samples_generated |})
            else render_loop_float fuel output_len sample_rate stereo_output
                   {| ls_song := song;
                      ls_i := wrap32 (ls_i st + sample_rate);
                      ls_out := out;
                      ls_samples_generated := samples_generated |}
        end
      else Some (Completed st)
  end.

(** The state in which [song_render_c] enters its render loop. *)
Definition loop_entry (mpt : libopenmpt) (input : list Byte.byte)
    (channel_to_play instrument_to_play : Z) : option loop_state :=
  let ctls : ctls_map := [] in
  match module_ext mpt ctls input with
  | None => None
  | Some song =>
      let samples_generated := 0 in
      let num_channels := get_num_channels song in
      let instrument_count := get_num_instruments song in
      let instrument_count :=
        if instrument_count =? 0 then get_num_samples song
        else instrument_count in
      let song :=
        mute_setup channel_to_play instrument_to_play
          num_channels instrument_count song in
      Some {| ls_song := song; ls_i := 0; ls_out := 0;
              ls_samples_generated := samples_generated |}
  end.

Definition song_render_c (fuel : nat) (mpt : libopenmpt)
    (output_len : Z) (input : list Byte.byte)
    (sample_rate bytes_per_sample channel_to_play instrument_to_play : Z)
    (stereo_output : bool) : option render_outcome :=
  match loop_entry mpt input channel_to_play instrument_to_play with
  | None => Some {| returned := 0; caught := true; final_song := None |}
  | Some st =>
      let run :=
        if bytes_per_sample =? 2
        then render_loop_16bit fuel output_len sample_rate stereo_output st
        else render_loop_float fuel output_len sample_rate stereo_output st in
      match run with
      | None => None
      | Some (Threw st) =>
          Some {| returned := 0; caught := true;
                  final_song := Some (ls_song st) |}
      | Some (Completed st) =>
          Some {| returned :=
                    if stereo_output
                    then wrap32 (wrap32 (ls_samples_generated st * 2)
                                 * bytes_per_sample)
                    else wrap32 (ls_samples_generated st * bytes_per_sample);
                  caught := false;
                  final_song := Some (ls_song st) |}
      end
  end.

End Interface.

(** ** src/unnamed/part_000 *)

Module Part000.

Definition SampleFormat_Flac : Z := 0.
Definition SampleFormat_Wav : Z := 1.

Record RenderParams : Type := {
  sample_rate : Z;
  bytes_per_sample : Z;
  channel_to_play : Z;
  instrument_to_play : Z;
  stereo_separation : Z;
  stereo_separation_enabled : bool;
  stereo_output : bool
}.

(** [char name[4096]] and [sprintf(name, ...)]: the formatted text and its
    terminating NUL are stored in the array.  [None] when they do not fit:
    the source then writes past the end of [name], which is undefined
    behaviour. *)
Definition name_size : nat := 4096.

Definition sprintf_name (text : string) : option string :=
  if (String.length text <? name_size)%nat then Some text else None.

(** One turn of the sample loop of [get_song_info_c]: [sprintf] into
    [name], the stream opened on that name, the writer called on it, and
    the report when the writer fails. *)
Definition export_sample (sf : CSoundFile) (output_with_stem : string)
    (sample_format : Z) (i : Z) : option (list io_event) :=
  if sample_format =? SampleFormat_Flac then
    match sprintf_name
            (output_with_stem ++ "_sample_" ++ format_04d i ++ ".flac") with
    | None => None
    | Some name =>
        let ok := SaveFLACSample sf i name in
        if negb ok
        then Some [WriteFLAC i name ok;
                   Printf ("Failed to write sample: " ++ name ++ newline)%string]
        else Some [WriteFLAC i name ok]
    end
  else
    match sprintf_name
            (output_with_stem ++ "_sample_" ++ format_04d i ++ ".wav") with
    | None => None
    | Some name =>
        let ok := SaveWAVSample sf i name in
        if negb ok
        then Some [WriteWAV i name ok;
                   Printf ("Failed to write sample: " ++ name ++ newline)%string]
        else Some [WriteWAV i name ok]
    end.

(** The sample loop over its indices, in order; a turn that overflows
    [name] leaves the whole call without a defined outcome. *)
Fixpoint export_samples (sf : CSoundFile) (output_with_stem : string)
    (sample_format : Z) (indices : list Z) : option (list io_event) :=
  match indices with
  | [] => Some []
  | i :: rest =>
      match export_sample sf output_with_stem sample_format i with
      | None => None
      | Some evs =>
          match export_samples sf output_with_stem sample_format rest with
          | None => None
          | Some more => Some (evs ++ more)
          end
      end
  end.

(** The record returned, and the files written and lines printed, in
    order; [None] when the call has undefined behaviour. *)
Definition get_song_info_c (mpt : libopenmpt) (buffer : list Byte.byte)
    (output_with_stem : option string) (sample_format : Z)
  : option (SongInfo * list io_event) :=
  let info := {| num_channels := 0; num_instruments := 0;
                 length_seconds := S754_zero false |} in
  let ctls := ctls_set "load.skip_plugins" "1" [] in
  match module mpt ctls buffer with
  | None => Some (info, [])
  | Some song =>
      let info := {| num_channels := get_num_channels song;
                     num_instruments := num_instruments info;
                     length_seconds := length_seconds info |} in
      let info := {| num_channels := num_channels info;
                     num_instruments := get_num_instruments song;
                     length_seconds := length_seconds info |} in
      let info :=
        if num_instruments info =? 0
        then {| num_channels := num_channels info;
                num_instruments := get_num_samples song;
                length_seconds := length_seconds info |}
        else info in
      let info :=
        {| num_channels := num_channels info;
           num_instruments := num_instruments info;
           length_seconds := double_to_float (get_duration_seconds song) |} in
      match output_with_stem with
      | None => Some (info, [])
      | Some stem =>
          let sf := get_snd_file song in
          let num_samples := GetNumSamples sf in
          match export_samples sf stem sample_format
                  (int_interval 1 (num_samples + 1)) with
          | None => None
          | Some evs => Some (info, evs)
          end
      end
  end.

(** The two mute passes of [song_render_c]; the instrument pass also asks
    for the [interactive2] interface. *)
Definition mute_setup (params : RenderParams)
    (num_channels instrument_count : Z) (song : Song) : Song :=
  let interactive := get_interface song interactive_id in
  let interactive2 := get_interface song interactive2_id in
  let song :=
    if (channel_to_play params >=? 0) && interactive
    then fold_left
           (fun s i =>
              if i =? channel_to_play params
              then set_channel_mute_status i false s
              else set_channel_mute_status i true s)
           (int_range num_channels) song
    else song in
  if (instrument_to_play params >=? 0) && interactive && interactive2
  then fold_left
         (fun s i =>
            if i =? instrument_to_play params
            then set_instrument_mute_status i false s
            else set_instrument_mute_status i true s)
         (int_range instrument_count) song
  else song.

Fixpoint render_loop_16bit (fuel : nat) (output_len : Z)
    (params : RenderParams) (sample_rate : Z) (st : loop_state)
  : option loop_exit :=
  match fuel with
  | O => None
  | S fuel =>
      if ls_i st <? output_len then
        let '(r, song, out) :=
          if stereo_output params
          then
            let '(r, song) :=
              read_interleaved_stereo 2 sample_rate sample_rate (ls_out st)
                (ls_song st) in
            (r, song, ls_out st + wrap32 (sample_rate * 2))
          else
            let '(r, song) :=
              read 2 sample_rate sample_rate (ls_out st) (ls_song st) in
            (r, song, ls_out st + Part000.sample_rate params) in
        match r with
        | Raise =>
            Some (Threw {| ls_song := song; ls_i := ls_i st;
                           ls_out := ls_out st;
                           ls_samples_generated := ls_samples_generated st |})
        | Frames n =>
            let gen_count := wrap32 n in
            let samples_generated :=
              wrap32 (ls_samples_generated st + gen_count) in
            if negb (gen_count =? sample_rate)
            then Some (Completed {| ls_song := song; ls_i := ls_i st;
                                    ls_out := out;
                                    ls_samples_generated := samples_generated |})
            else render_loop_16bit fuel output_len params sample_rate
                   {| ls_song := song;
                      ls_i := wrap32 (ls_i st + sample_rate);
                      ls_out := out;
                      ls_samples_generated := samples_generated |}
        end
      else Some (Completed st)
  end.

Fixpoint render_loop_float (fuel : nat) (output_len : Z)
    (params : RenderParams) (sample_rate : Z) (st : loop_state)
  : option loop_exit :=
  match fuel with
  | O => None
  | S fuel =>
      if ls_i st <? output_len then
        let '(r, song, out) :=
          if stereo_output params
          then
            let '(r, song) :=
              read_interleaved_stereo 4 sample_rate sample_rate (ls_out st)
                (ls_song st) in
            (r, song, ls_out st + wrap32 (sample_rate * 2))
          else
            let '(r, song) :=
              read 4 sample_rate sample_rate (ls_out st) (ls_song st) in
            (r, song, ls_out st + sample_rate) in
        match r with
        | Raise =>
            Some (Threw {| ls_song := song; ls_i := ls_i st;
                           ls_out := ls_out st;
                           ls_samples_generated := ls_samples_generated st |})
        | Frames n =>
            let gen_count := wrap32 n in
            let samples_generated :=
              wrap32 (ls_samples_generated st + gen_count) in
            if negb (gen_count =? sample_rate)
            then Some (Completed {| ls_song := song; ls_i := ls_i st;
                                    ls_out := out;
                                    ls_samples_generated := samples_generated |})
            else render_loop_float fuel output_len params sample_rate
                   {| ls_song := song;
                      ls_i := wrap32 (ls_i st + sample_rate);
                      ls_out := out;
                      ls_samples_generated := samples_generated |}
        end
      else Some (Completed st)
  end.

(** The state in which [song_render_c] enters its render loop. *)
Definition loop_entry (mpt : libopenmpt) (input : list Byte.byte)
    (params : RenderParams) : option loop_state :=
  let ctls := ctls_set "play.at_end" "stop" [] in
  match module_ext mpt ctls input with
  | None => None
  | Some song =>
      let samples_generated := 0 in
      let num_channels := get_num_channels song in
      let instrument_count := get_num_instruments song in
      let instrument_count :=
        if instrument_count =? 0 then get_num_samples song
        else instrument_count in
      let song :=
        if stereo_separation_enabled params
        then set_render_param (stereo_separation params) song
        else song in
      let song := mute_setup params num_channels instrument_count song in
      Some {| ls_song := song; ls_i := 0; ls_out := 0;
              ls_samples_generated := samples_generated |}
  end.

Definition song_render_c (fuel : nat) (mpt : libopenmpt)
    (output_len : Z) (input : list Byte.byte) (params : RenderParams)
  : option render_outcome :=
  match loop_entry mpt input params with
  | None => Some {| returned := 0; caught := true; final_song := None |}
  | Some st =>
      let sample_rate := Part000.sample_rate params in
      let run :=
        if bytes_per_sample params =? 2
        then render_loop_16bit fuel output_len params sample_rate st
        else render_loop_float fuel output_len params sample_rate st in
      match run with
      | None => None
      | Some (Threw st) =>
          Some {| returned := 0; caught := true;
                  final_song := Some (ls_song st) |}
      | Some (Completed st) =>
          Some {| returned :=
                    if stereo_output params
                    then wrap32 (wrap32 (ls_samples_generated st * 2)
                                 * bytes_per_sample params)
                    else wrap32 (ls_samples_generated st
                                 * bytes_per_sample params);
                  caught := false;
                  final_song := Some (ls_song st) |}
      end
  end.

End Part000.

(** ** src/unnamed/part_001 *)

Module Part001.

(** The function is declared to return [ModInfo], a name the file never
    declares; the record it builds has the fields of [SongInfo]. *)
Definition get_song_info (mpt : libopenmpt) (buffer : list Byte.byte)
    (dump_patterns : Z) : SongInfo :=
  let info := {| num_channels := 0; num_instruments := 0;
                 length_seconds := S754_zero false |} in
  let ctls := ctls_set "load.skip_samples" "1" [] in
  let ctls := ctls_set "load.skip_plugins" "1" ctls in
  match module mpt ctls buffer with
  | None => info
  | Some song =>
      let info := {| num_channels := get_num_channels song;
                     num_instruments := num_instruments info;
                     length_seconds := length_seconds info |} in
      let info := {| num_channels := num_channels info;
                     num_instruments := get_num_instruments song;
                     length_seconds := length_seconds info |} in
      {| num_channels := num_channels info;
         num_instruments := num_instruments info;
         length_seconds := double_to_float (get_duration_seconds song) |}
  end.

End Part001.

(** ** Observations on a run *)

(** The frames a logged call rendered. *)
Definition frames_of (c : call) : Z :=
  match c with
  | CallRead _ _ _ _ (Frames n) => n
  | _ => 0
  end.

Definition frames_total (l : list call) : Z :=
  fold_right (fun c acc => frames_of c + acc) 0 l.

Definition is_read (c : call) : bool :=
  match c with
  | CallRead _ _ _ _ _ => true
  | _ => false
  end.

Definition is_channel_mute (c : call) : bool :=
  match c with
  | CallSetChannelMute _ _ => true
  | _ => false
  end.

Definition is_instrument_mute (c : call) : bool :=
  match c with
  | CallSetInstrumentMute _ _ => true
  | _ => false
  end.

(** The bytes of the output buffer a logged call wrote, as the half-open
    range [(first, past)] of byte offsets from [output]: a read that
    rendered [n] frames stores [n] elements per output channel, starting
    at its destination. *)
Definition written (c : call) : option (Z * Z) :=
  match c with
  | CallRead elem stereo _ dest (Frames n) =>
      Some (dest * elem, dest * elem + n * (if stereo then 2 else 1) * elem)
  | _ => None
  end.

(** A call stays inside a buffer of [output_len] bytes when it writes
    nothing or only below [output_len]. *)
Definition within_capacity (output_len : Z) (c : call) : bool :=
  match written c with
  | Some (first, past) => (past <=? first) || (past <=? output_len)
  | None => true
  end.

(** The same call with another element type for its destination. *)
Definition retag (elem : Z) (c : call) : call :=
  match c with
  | CallRead _ stereo count dest r => CallRead elem stereo count dest r
  | _ => c
  end.

Definition retag_song (elem : Z) (s : Song) : Song :=
  {| get_num_channels := get_num_channels s;
     get_num_instruments := get_num_instruments s;
     get_num_samples := get_num_samples s;
     get_duration_seconds := get_duration_seconds s;
     get_interface := get_interface s;
     get_channel_mute_status := get_channel_mute_status s;
     get_instrument_mute_status := get_instrument_mute_status s;
     get_render_param := get_render_param s;
     get_snd_file := get_snd_file s;
     produce := produce s;
     position := position s;
     calls := map (retag elem) (calls s) |}.

Definition retag_state (elem : Z) (st : loop_state) : loop_state :=
  {| ls_song := retag_song elem (ls_song st);
     ls_i := ls_i st;
     ls_out := ls_out st;
     ls_samples_generated := ls_samples_generated st |}.

Definition retag_exit (elem : Z) (e : loop_exit) : loop_exit :=
  match e with
  | Completed st => Completed (retag_state elem st)
  | Threw st => Threw (retag_state elem st)
  end.

Definition exit_state (e : loop_exit) : loop_state :=
  match e with
  | Completed st => st
  | Threw st => st
  end.

Definition threw (e : loop_exit) : bool :=
  match e with
  | Completed _ => false
  | Threw _ => true
  end.

(** [ceil (a / b)] for [b > 0]. *)
Definition ceil_div (a b : Z) : Z := (a + b - 1) / b.

(** The decoder keeps the contract of [read]: it renders at most the
    frames it was asked for. *)
Definition honours_count (s : Song) : Prop :=
  forall k count stereo n,
    0 <= count -> produce s k count stereo = Frames n -> 0 <= n <= count.

(** No entry of a mute array is set. *)
Definition none_muted (status : Z -> bool) : Prop :=
  forall i, status i = false.

(** Of the [n] entries of a mute array, exactly the one at [k] is clear. *)
Definition only_unmuted (status : Z -> bool) (n k : Z) : Prop :=
  forall i, 0 <= i < n -> (status i = true <-> i <> k).

(** Nothing is muted in [s]. *)
Definition all_unmuted (s : Song) : Prop :=
  none_muted (get_channel_mute_status s) /\
  none_muted (get_instrument_mute_status s).

(** The calls of a channel pass that isolates channel [c] of [n], and of
    an instrument pass that isolates instrument [k] of [n], as the log
    holds them (most recent first). *)
Definition channel_pass_calls (c n : Z) : list call :=
  rev (map (fun i => CallSetChannelMute i (negb (i =? c))) (int_range n)).

Definition instrument_pass_calls (k n : Z) : list call :=
  rev (map (fun i => CallSetInstrumentMute i (negb (i =? k))) (int_range n)).

(** The four render loops of the sources share one shape; only the element
    size of the destination differs. *)
Section RenderLoop.

Variable elem : Z.

Fixpoint render_loop (fuel : nat) (output_len sample_rate : Z)
    (stereo_output : bool) (st : loop_state) : option loop_exit :=
  match fuel with
  | O => None
  | S fuel =>
      if ls_i st <? output_len then
        let '(r, song, out) :=
          if stereo_output
          then
            let '(r, song) :=
              read_interleaved_stereo elem sample_rate sample_rate (ls_out st)
                (ls_song st) in
            (r, song, ls_out st + wrap32 (sample_rate * 2))
          else
            let '(r, song) :=
              read elem sample_rate sample_rate (ls_out st) (ls_song st) in
            (r, song, ls_out st + sample_rate) in
        match r with
        | Raise =>
            Some (Threw {| ls_song := song; ls_i := ls_i st;
                           ls_out := ls_out st;
                           ls_samples_generated := ls_samples_generated st |})
        | Frames n =>
            let gen_count := wrap32 n in
            let samples_generated :=
              wrap32 (ls_samples_generated st + gen_count) in
            if negb (gen_count =? sample_rate)
            then Some (Completed {| ls_song := song; ls_i := ls_i st;
                                    ls_out := out;
                                    ls_samples_generated := samples_generated |})
            else render_loop fuel output_len sample_rate stereo_output
                   {| ls_song := song;
                      ls_i := wrap32 (ls_i st + sample_rate);
                      ls_out := out;
                      ls_samples_generated := samples_generated |}
        end
      else Some (Completed st)
  end.

End RenderLoop.

(** ** Decoders to run the entry points on *)

Definition no_samples : CSoundFile :=
  {| GetNumSamples := 0;
     SaveFLACSample := fun _ _ => true;
     SaveWAVSample := fun _ _ => true |}.

(** A freshly loaded module that holds [length_frames] frames of audio and
    renders them in order, as many per read as asked for until they run
    out. *)
Definition tape (channels instruments samples : Z)
    (interfaces : interface_id -> bool) (length_frames : Z) : Song :=
  {| get_num_channels := channels;
     get_num_instruments := instruments;
     get_num_samples := samples;
     get_duration_seconds := S754_zero false;
     get_interface := interfaces;
     get_channel_mute_status := fun _ => false;
     get_instrument_mute_status := fun _ => false;
     get_render_param := None;
     get_snd_file := no_samples;
     produce := fun k count _ =>
       Frames (Z.max 0 (Z.min count (length_frames - Z.of_nat k * count)));
     position := 0;
     calls := [] |}.

(** A module that never runs out: every read renders all it was asked
    for. *)
Definition endless (channels instruments samples : Z) : Song :=
  {| get_num_channels := channels;
     get_num_instruments := instruments;
     get_num_samples := samples;
     get_duration_seconds := S754_infinity false;
     get_interface := fun _ => true;
     get_channel_mute_status := fun _ => false;
     get_instrument_mute_status := fun _ => false;
     get_render_param := None;
     get_snd_file := no_samples;
     produce := fun _ count _ => Frames count;
     position := 0;
     calls := [] |}.

(** A module whose [k]-th read throws. *)
Definition failing_at (k : nat) (s : Song) : Song :=
  {| get_num_channels := get_num_channels s;
     get_num_instruments := get_num_instruments s;
     get_num_samples := get_num_samples s;
     get_duration_seconds := get_duration_seconds s;
     get_interface := get_interface s;
     get_channel_mute_status := get_channel_mute_status s;
     get_instrument_mute_status := get_instrument_mute_status s;
     get_render_param := get_render_param s;
     get_snd_file := get_snd_file s;
     produce := fun j count stereo =>
       if Nat.eqb j k then Raise else produce s j count stereo;
     position := position s;
     calls := calls s |}.

(** A decoder whose script, from where it stands, renders [k] chunks of
    [count] frames in full and throws at the read after them. *)
Definition throws_after (k : nat) (count : Z) (stereo : bool) (s : Song)
  : Prop :=
  (forall j, (j < k)%nat ->
             produce s (position s + j) count stereo = Frames count)
  /\ produce s (position s + k) count stereo = Raise.

(** A module that is loaded with its first channel and its first
    instrument muted. *)
Definition with_first_muted (s : Song) : Song :=
  {| get_num_channels := get_num_channels s;
     get_num_instruments := get_num_instruments s;
     get_num_samples := get_num_samples s;
     get_duration_seconds := get_duration_seconds s;
     get_interface := get_interface s;
     get_channel_mute_status := fun i => i =? 0;
     get_instrument_mute_status := fun i => i =? 0;
     get_render_param := get_render_param s;
     get_snd_file := get_snd_file s;
     produce := produce s;
     position := position s;
     calls := calls s |}.

(** A library that loads every input as [s], and one that rejects every
    input. *)
Definition loads (s : Song) : libopenmpt :=
  {| module := fun _ _ => Some s; module_ext := fun _ _ => Some s |}.

Definition rejects : libopenmpt :=
  {| module := fun _ _ => None; module_ext := fun _ _ => None |}.

Definition every_interface : interface_id -> bool := fun _ => true.
Definition no_interface : interface_id -> bool := fun _ => false.
Definition only_interactive (id : interface_id) : bool :=
  match id with
  | interactive_id => true
  | interactive2_id => false
  end.

(** The render loops of the sources, each with the element size of its
    destination and the arguments it runs with.  In part_000 the local
    [sample_rate] is [params.sample_rate]. *)
Inductive source_loop
  : (nat -> loop_state -> option loop_exit) -> Z -> Z -> Z -> bool -> Prop :=
| interface_16bit output_len sample_rate stereo :
    source_loop
      (fun fuel st =>
         Interface.render_loop_16bit fuel output_len sample_rate stereo st)
      2 output_len sample_rate stereo
| interface_float output_len sample_rate stereo :
    source_loop
      (fun fuel st =>
         Interface.render_loop_float fuel output_len sample_rate stereo st)
      4 output_len sample_rate stereo
| part000_16bit output_len params :
    source_loop
      (fun fuel st =>
         Part000.render_loop_16bit fuel output_len params
           (Part000.sample_rate params) st)
      2 output_len (Part000.sample_rate params) (Part000.stereo_output params)
| part000_float output_len params :
    source_loop
      (fun fuel st =>
         Part000.render_loop_float fuel output_len params
           (Part000.sample_rate params) st)
      4 output_len (Part000.sample_rate params) (Part000.stereo_output params).

Definition is_raise (c : call) : bool :=
  match c with
  | CallRead _ _ _ _ Raise => true
  | _ => false
  end.

(** The state in which a render loop is entered. *)
Definition entry_state (s : Song) : loop_state :=
  {| ls_song := s; ls_i := 0; ls_out := 0; ls_samples_generated := 0 |}.

(** The record both info entry points start from. *)
Definition zero_info : SongInfo :=
  {| num_channels := 0; num_instruments := 0;
     length_seconds := S754_zero false |}.

(** Mono 16-bit rendering of the full mix at 48 kHz, for part_000. *)
Definition mono_16bit_48k : Part000.RenderParams :=
  {| Part000.sample_rate := 48000;
     Part000.bytes_per_sample := 2;
     Part000.channel_to_play := -1;
     Part000.instrument_to_play := -1;
     Part000.stereo_separation := 100;
     Part000.stereo_separation_enabled := false;
     Part000.stereo_output := false |}.

(** part_000 parameters that ask for channel [c] and instrument [k]. *)
Definition isolating (c k : Z) : Part000.RenderParams :=
  {| Part000.sample_rate := 48000;
     Part000.bytes_per_sample := 2;
     Part000.channel_to_play := c;
     Part000.instrument_to_play := k;
     Part000.stereo_separation := 100;
     Part000.stereo_separation_enabled := false;
     Part000.stereo_output := false |}.

(** The two mute passes behind their gates: the shape both variants of
    the mute setup share. *)
Definition two_passes (channel_gate instrument_gate : bool)
    (c k num_channels instrument_count : Z) (song : Song) : Song :=
  let song :=
    if channel_gate
    then fold_left
           (fun s i =>
              if i =? c then set_channel_mute_status i false s
              else set_channel_mute_status i true s)
           (int_range num_channels) song
    else song in
  if instrument_gate
  then fold_left
         (fun s i =>
            if i =? k then set_instrument_mute_status i false s
            else set_instrument_mute_status i true s)
         (int_range instrument_count) song
  else song.

(** The sample files a run asked for, as (index, stream name), and the
    lines it printed, both in order. *)
Definition write_attempts (evs : list io_event) : list (Z * string) :=
  flat_map
    (fun ev =>
       match ev with
       | WriteFLAC i name _ => [(i, name)]
       | WriteWAV i name _ => [(i, name)]
       | Printf _ => []
       end) evs.

Definition printed (evs : list io_event) : list string :=
  flat_map
    (fun ev =>
       match ev with
       | Printf line => [line]
       | _ => []
       end) evs.

(** The writer an event used agrees with [sample_format]. *)
Definition written_as (sample_format : Z) (ev : io_event) : Prop :=
  match ev with
  | WriteFLAC _ _ _ => sample_format = Part000.SampleFormat_Flac
  | WriteWAV _ _ _ => sample_format <> Part000.SampleFormat_Flac
  | Printf _ => True
  end.

(** The extension and the writer that [sample_format] selects. *)
Definition extension (sample_format : Z) : string :=
  if sample_format =? Part000.SampleFormat_Flac then ".flac" else ".wav".

Definition save_sample (sf : CSoundFile) (sample_format : Z)
  : Z -> string -> bool :=
  if sample_format =? Part000.SampleFormat_Flac
  then SaveFLACSample sf else SaveWAVSample sf.

(** The spec's file name: the stem, [_sample_], the index, the
    extension. *)
Definition sample_name (stem : string) (sample_format : Z) (i : Z) : string :=
  stem ++ "_sample_" ++ format_04d i ++ extension sample_format.

(** The names of the samples 1 to [n] all fit the array [name] of the
    exporter, their terminating NUL included. *)
Definition names_fit (stem : string) (sample_format n : Z) : bool :=
  forallb
    (fun i =>
       (String.length (sample_name stem sample_format i)
        <? Part000.name_size)%nat)
    (int_interval 1 (n + 1)).

(** A stem of 4090 characters. *)
Definition long_stem : string := zeros 4090.

(** The spec's index of four digits, for an index below 10000: thousands,
    hundreds, tens, units. *)
Definition digit (d : Z) : ascii := ascii_of_nat (48 + Z.to_nat d).

Definition four_digits (i : Z) : string :=
  String (digit (i / 1000 mod 10))
    (String (digit (i / 100 mod 10))
       (String (digit (i / 10 mod 10))
          (String (digit (i mod 10)) EmptyString))).

(** A sound file with three samples whose second sample cannot be written
    as FLAC, and a module that holds it. *)
Definition three_samples : CSoundFile :=
  {| GetNumSamples := 3;
     SaveFLACSample := fun i _ => negb (i =? 2);
     SaveWAVSample := fun _ _ => true |}.

Definition with_snd_file (sf : CSoundFile) (s : Song) : Song :=
  {| get_num_channels := get_num_channels s;
     get_num_instruments := get_num_instruments s;
     get_num_samples := get_num_samples s;
     get_duration_seconds := get_duration_seconds s;
     get_interface := get_interface s;
     get_channel_mute_status := get_channel_mute_status s;
     get_instrument_mute_status := get_instrument_mute_status s;
     get_render_param := get_render_param s;
     get_snd_file := sf;
     produce := produce s;
     position := position s;
     calls := calls s |}.

(** Reading results that are options: whether there is one, and which. *)
Definition is_some {A : Type} (o : option A) : bool :=
  match o with
  | Some _ => true
  | None => false
  end.

Definition get_or {A : Type} (default : A) (o : option A) : A :=
  match o with
  | Some a => a
  | None => default
  end.

(** The log of the decoder a call of [song_render_c] leaves behind. *)
Definition final_calls (o : render_outcome) : list call :=
  match final_song o with
  | Some s => calls s
  | None => []
  end.

Definition no_outcome : render_outcome :=
  {| returned := 0; caught := true; final_song := None |}.

(** The instrument count [song_render_c] works with: the decoder's, or its
    sample count when it reports no instruments. *)
Definition effective_instrument_count (s : Song) : Z :=
  if get_num_instruments s =? 0 then get_num_samples s
  else get_num_instruments s.

(** What a state at loop entry says about one mute flag. *)
Definition channel_muted_at_entry (st : option loop_state) (i : Z)
  : option bool :=
  option_map (fun st => get_channel_mute_status (ls_song st) i) st.

Definition instrument_muted_at_entry (st : option loop_state) (i : Z)
  : option bool :=
  option_map (fun st => get_instrument_mute_status (ls_song st) i) st.

Definition calls_at_entry (st : option loop_state) : option (list call) :=
  option_map (fun st => calls (ls_song st)) st.

(** The control flow of a finished loop: how it was left, the loop index,
    the frame counter, the decoder position and the number of calls in
    the decoder's log. *)
Definition control_flow (e : loop_exit) : bool * Z * Z * nat * nat :=
  (threw e,
   ls_i (exit_state e),
   ls_samples_generated (exit_state e),
   position (ls_song (exit_state e)),
   List.length (calls (ls_song (exit_state e)))).

(** ** Further observations *)

(** A write stays between two byte offsets. *)
Definition within_extent (first_allowed past_allowed : Z) (c : call) : Prop :=
  match written c with
  | Some (first, past) =>
      first_allowed <= first /\ first <= past /\ past <= past_allowed
  | None => True
  end.

(** Output channels per frame. *)
Definition channels_out (stereo : bool) : Z := if stereo then 2 else 1.

(** Reads, oldest first, that fill the bytes from [first] to [past] one
    after the other without a gap; a read that threw wrote nothing and is
    the last one. *)
Fixpoint tiles (first past : Z) (reads : list call) : Prop :=
  match reads with
  | [] => first = past
  | c :: rest =>
      match written c with
      | Some (lo, hi) => lo = first /\ lo <= hi /\ tiles hi past rest
      | None => rest = [] /\ first = past
      end
  end.

(** The number a string of decimal digits stands for. *)
Definition read_decimal (s : string) : option N :=
  option_map N.of_uint (NilEmpty.uint_of_string s).

(** * Properties *)

(** ** The four loops are the one loop *)

Lemma interface_loop_16bit fuel output_len sample_rate stereo st :
  Interface.render_loop_16bit fuel output_len sample_rate stereo st
  = render_loop 2 fuel output_len sample_rate stereo st.
Proof. reflexivity. Qed.

Lemma interface_loop_float fuel output_len sample_rate stereo st :
  Interface.render_loop_float fuel output_len sample_rate stereo st
  = render_loop 4 fuel output_len sample_rate stereo st.
Proof. reflexivity. Qed.

Lemma part000_loop_16bit fuel output_len params st :
  Part000.render_loop_16bit fuel output_len params
    (Part000.sample_rate params) st
  = render_loop 2 fuel output_len (Part000.sample_rate params)
      (Part000.stereo_output params) st.
Proof.
  revert st. induction fuel as [|fuel IH]; intro st; [reflexivity|].
  simpl. destruct (ls_i st <? output_len); [|reflexivity].
  destruct (Part000.stereo_output params); simpl;
    (destruct (produce (ls_song st) (position (ls_song st))
                 (Part000.sample_rate params) _); [|reflexivity]);
    (destruct (negb _); [reflexivity|]); apply IH.
Qed.

Lemma part000_loop_float fuel output_len params st :
  Part000.render_loop_float fuel output_len params
    (Part000.sample_rate params) st
  = render_loop 4 fuel output_len (Part000.sample_rate params)
      (Part000.stereo_output params) st.
Proof.
  revert st. induction fuel as [|fuel IH]; intro st; [reflexivity|].
  simpl. destruct (ls_i st <? output_len); [|reflexivity].
  destruct (Part000.stereo_output params); simpl;
    (destruct (produce (ls_song st) (position (ls_song st))
                 (Part000.sample_rate params) _); [|reflexivity]);
    (destruct (negb _); [reflexivity|]); apply IH.
Qed.

(** ** Arithmetic modulo 2^32 *)

Lemma wrap32_range z : 0 <= wrap32 z < 2 ^ 32.
Proof. unfold wrap32. apply Z.mod_pos_bound. reflexivity. Qed.

Lemma wrap32_small z : 0 <= z < 2 ^ 32 -> wrap32 z = z.
Proof. unfold wrap32. apply Z.mod_small. Qed.

Lemma wrap32_le z : 0 <= z -> wrap32 z <= z.
Proof. intro H. unfold wrap32. apply Z.mod_le; [exact H | reflexivity]. Qed.

Lemma wrap32_add_l a b : wrap32 (wrap32 a + b) = wrap32 (a + b).
Proof. unfold wrap32. apply Zplus_mod_idemp_l. Qed.

Lemma wrap32_add_r a b : wrap32 (a + wrap32 b) = wrap32 (a + b).
Proof. unfold wrap32. apply Zplus_mod_idemp_r. Qed.

Lemma wrap32_mul_l a b : wrap32 (wrap32 a * b) = wrap32 (a * b).
Proof. unfold wrap32. apply Zmult_mod_idemp_l. Qed.

(** ** The trace of a render loop *)

Lemma frames_total_app l1 l2 :
  frames_total (l1 ++ l2) = frames_total l1 + frames_total l2.
Proof.
  induction l1 as [|c l1 IH]; simpl; [reflexivity|].
  rewrite IH. ring.
Qed.

(** One turn of the loop, unfolded. *)
Lemma render_loop_turn elem fuel output_len sample_rate stereo st :
  render_loop elem (S fuel) output_len sample_rate stereo st =
  if ls_i st <? output_len then
    let r := produce (ls_song st) (position (ls_song st)) sample_rate stereo in
    let song :=
      snd (read_into elem stereo sample_rate (ls_out st) (ls_song st)) in
    let out :=
      ls_out st + (if stereo then wrap32 (sample_rate * 2) else sample_rate) in
    match r with
    | Raise =>
        Some (Threw {| ls_song := song; ls_i := ls_i st; ls_out := ls_out st;
                       ls_samples_generated := ls_samples_generated st |})
    | Frames n =>
        if negb (wrap32 n =? sample_rate)
        then Some (Completed
                     {| ls_song := song; ls_i := ls_i st; ls_out := out;
                        ls_samples_generated :=
                          wrap32 (ls_samples_generated st + wrap32 n) |})
        else render_loop elem fuel output_len sample_rate stereo
               {| ls_song := song; ls_i := wrap32 (ls_i st + sample_rate);
                  ls_out := out;
                  ls_samples_generated :=
                    wrap32 (ls_samples_generated st + wrap32 n) |}
    end
  else Some (Completed st).
Proof.
  simpl. destruct (ls_i st <? output_len); [|reflexivity].
  destruct stereo; reflexivity.
Qed.

(** What a finished loop has added to the decoder's log: only reads, each
    of [sample_rate] frames with the loop's element type and layout and
    answered by the decoder's script; the frame counter is the sum of what
    they rendered, in 32 bits; and the loop was left by an exception
    exactly when one of them threw. *)
Lemma render_loop_trace elem output_len sample_rate stereo fuel :
  forall st e,
    render_loop elem fuel output_len sample_rate stereo st = Some e ->
    exists new,
      calls (ls_song (exit_state e)) = new ++ calls (ls_song st)
      /\ (List.length new <= fuel)%nat
      /\ Forall (fun c => exists dest k,
                   c = CallRead elem stereo sample_rate dest
                         (produce (ls_song st) k sample_rate stereo)) new
      /\ (0 <= ls_samples_generated st < 2 ^ 32 ->
          ls_samples_generated (exit_state e)
          = wrap32 (ls_samples_generated st + frames_total new))
      /\ existsb is_raise new = threw e.
Proof.
  induction fuel as [|fuel IH]; intros st e H; [discriminate|].
  rewrite render_loop_turn in H.
  destruct (ls_i st <? output_len).
  2:{ injection H as <-. exists []. simpl.
      split; [reflexivity|]. split; [lia|]. split; [constructor|].
      split; [|reflexivity].
      intro Hsg. rewrite Z.add_0_r, wrap32_small; [reflexivity | exact Hsg]. }
  cbv zeta in H.
  destruct (produce (ls_song st) (position (ls_song st)) sample_rate stereo)
    as [n|] eqn:P.
  - destruct (negb (wrap32 n =? sample_rate)).
    + injection H as <-.
      exists [CallRead elem stereo sample_rate (ls_out st) (Frames n)].
      simpl. rewrite P.
      split; [reflexivity|]. split; [lia|]. split; [|split; [|reflexivity]].
      * constructor; [|constructor].
        exists (ls_out st), (position (ls_song st)). now rewrite P.
      * intros _. rewrite Z.add_0_r. apply wrap32_add_r.
    + apply IH in H.
      destruct H as (new & Hc & Hl & Hf & Hs & Ht).
      exists (new ++ [CallRead elem stereo sample_rate (ls_out st) (Frames n)]).
      simpl in Hc, Hf, Hs. rewrite P in Hc.
      split; [|split; [|split; [|split]]].
      * rewrite Hc, <- app_assoc. reflexivity.
      * rewrite length_app. simpl. lia.
      * apply Forall_app. split; [exact Hf|].
        constructor; [|constructor].
        exists (ls_out st), (position (ls_song st)). now rewrite P.
      * intros _. rewrite (Hs (wrap32_range _)), frames_total_app. simpl.
        rewrite wrap32_add_l.
        replace (ls_samples_generated st + wrap32 n + frames_total new)
          with (ls_samples_generated st + frames_total new + wrap32 n) by ring.
        rewrite wrap32_add_r. f_equal. ring.
      * rewrite existsb_app, Ht. simpl. apply orb_false_r.
  - injection H as <-.
    exists [CallRead elem stereo sample_rate (ls_out st) Raise].
    simpl. rewrite P.
    split; [reflexivity|]. split; [lia|]. split; [|split; [|reflexivity]].
    + constructor; [|constructor].
      exists (ls_out st), (position (ls_song st)). now rewrite P.
    + intro Hsg. rewrite Z.add_0_r, wrap32_small; [reflexivity | exact Hsg].
Qed.

Lemma source_loop_shape loop elem output_len sample_rate stereo :
  source_loop loop elem output_len sample_rate stereo ->
  forall fuel st,
    loop fuel st = render_loop elem fuel output_len sample_rate stereo st.
Proof.
  intros [ol sr b | ol sr b | ol params | ol params] fuel st.
  - apply interface_loop_16bit.
  - apply interface_loop_float.
  - apply part000_loop_16bit.
  - apply part000_loop_float.
Qed.

(** ** The partial chunk (C4) *)

(** C4.  In each render loop of the sources every read asks for exactly
    [sample_rate] frames; and when the decoder answers a read with fewer
    frames than [sample_rate], these frames are added to
    [samples_generated] (in 32 bits, so exactly when the sum fits) and the
    loop is left at once: whatever the fuel, the loop has completed with
    that one read and no other. *)
Theorem partial_chunk_counted_then_loop_ends :
  forall loop elem output_len sample_rate stereo,
    source_loop loop elem output_len sample_rate stereo ->
    (forall fuel st e,
        loop fuel st = Some e ->
        exists new,
          calls (ls_song (exit_state e)) = new ++ calls (ls_song st)
          /\ Forall (fun c => exists dest r,
                       c = CallRead elem stereo sample_rate dest r) new)
    /\
    (forall fuel st n,
        ls_i st < output_len ->
        produce (ls_song st) (position (ls_song st)) sample_rate stereo
        = Frames n ->
        0 <= n < sample_rate ->
        exists st',
          loop (S fuel) st = Some (Completed st')
          /\ ls_samples_generated st'
             = wrap32 (ls_samples_generated st + n)
          /\ (0 <= ls_samples_generated st ->
              ls_samples_generated st + n < 2 ^ 32 ->
              ls_samples_generated st' = ls_samples_generated st + n)
          /\ calls (ls_song st')
             = CallRead elem stereo sample_rate (ls_out st) (Frames n)
               :: calls (ls_song st)
          /\ position (ls_song st') = S (position (ls_song st))).
Proof.
  intros loop elem output_len sample_rate stereo Hloop.
  pose proof (source_loop_shape _ _ _ _ _ Hloop) as Hshape.
  split.
  - intros fuel st e H. rewrite Hshape in H.
    apply render_loop_trace in H.
    destruct H as (new & Hc & _ & Hf & _).
    exists new. split; [exact Hc|].
    eapply Forall_impl; [|exact Hf].
    intros c (dest & k & ->). eauto.
  - intros fuel st n Hi P Hn.
    rewrite Hshape, render_loop_turn.
    apply Z.ltb_lt in Hi. rewrite Hi. cbv zeta. rewrite P.
    assert (Hne : wrap32 n <> sample_rate).
    { pose proof (wrap32_le n). lia. }
    apply Z.eqb_neq in Hne. rewrite Hne. simpl.
    eexists. split; [reflexivity|]. simpl. rewrite P.
    split; [apply wrap32_add_r|]. split; [|split; reflexivity].
    intros Hsg Hfit. rewrite wrap32_add_r. apply wrap32_small. lia.
Qed.

Lemma partial_chunk_counted_then_loop_ends_witness :
  exists st',
    Interface.render_loop_16bit 1 480000 48000 false
      (entry_state (tape 4 0 8 every_interface 16800))
    = Some (Completed st')
    /\ ls_samples_generated st' = 16800
    /\ calls (ls_song st') = [CallRead 2 false 48000 0 (Frames 16800)]
    /\ position (ls_song st') = 1%nat.
Proof.
  destruct (proj2 (partial_chunk_counted_then_loop_ends _ _ _ _ _
                     (interface_16bit 480000 48000 false))
              0%nat (entry_state (tape 4 0 8 every_interface 16800)) 16800
              ltac:(simpl; lia) ltac:(reflexivity) ltac:(lia))
    as (st' & Hrun & _ & Hexact & Hcalls & Hpos).
  exists st'. split; [exact Hrun|].
  split; [apply Hexact; simpl; lia|].
  split; [exact Hcalls | exact Hpos].
Defined.

(** ** The 16-bit loop and the float loop (C8) *)

Lemma render_loop_retag e1 e2 output_len sample_rate stereo fuel :
  forall st,
    render_loop e2 fuel output_len sample_rate stereo (retag_state e2 st)
    = option_map (retag_exit e2)
        (render_loop e1 fuel output_len sample_rate stereo st).
Proof.
  induction fuel as [|fuel IH]; intro st; [reflexivity|].
  rewrite !render_loop_turn. simpl ls_i.
  destruct (ls_i st <? output_len); [|reflexivity].
  cbv zeta. simpl produce. simpl position.
  destruct (produce (ls_song st) (position (ls_song st)) sample_rate stereo)
    as [n|]; [|reflexivity].
  destruct (negb (wrap32 n =? sample_rate)); [reflexivity|].
  rewrite <- IH. reflexivity.
Qed.

Lemma render_loop_same_control e1 e2 output_len sample_rate stereo fuel st :
  option_map (retag_exit e2)
    (render_loop e2 fuel output_len sample_rate stereo st)
  = option_map (retag_exit e2)
      (render_loop e1 fuel output_len sample_rate stereo st).
Proof.
  rewrite <- (render_loop_retag e1 e2), <- (render_loop_retag e2 e2).
  reflexivity.
Qed.

Lemma control_flow_retag elem (r : option loop_exit) :
  option_map control_flow (option_map (retag_exit elem) r)
  = option_map control_flow r.
Proof.
  destruct r as [[st|st]|]; [| |reflexivity]; simpl; unfold control_flow;
    simpl; rewrite length_map; reflexivity.
Qed.

Lemma render_loop_same_flow e1 e2 output_len sample_rate stereo fuel st :
  option_map control_flow
    (render_loop e2 fuel output_len sample_rate stereo st)
  = option_map control_flow
      (render_loop e1 fuel output_len sample_rate stereo st).
Proof.
  rewrite <- (control_flow_retag e2 (render_loop e2 _ _ _ _ _)).
  rewrite (render_loop_same_control e1 e2).
  apply control_flow_retag.
Qed.

(** C8.  In both interface files the float loop and the 16-bit loop, run
    from the same state with the same decoder, agree in everything but the
    element type recorded with each read: the same need of fuel, the same
    way of leaving the loop, the same loop index, destination offset (in
    elements) and [samples_generated], the same decoder position, and the
    same reads with the same requests and answers.  [retag_exit 4] writes
    the element size 4 into every read of a result, so that the two
    results can be compared; [control_flow] keeps the exit, the index, the
    counter, the decoder position and the number of calls. *)
Theorem float_loop_matches_16bit_loop :
  (forall fuel output_len sample_rate stereo st,
      option_map (retag_exit 4)
        (Interface.render_loop_float fuel output_len sample_rate stereo st)
      = option_map (retag_exit 4)
          (Interface.render_loop_16bit fuel output_len sample_rate stereo st)
      /\ option_map control_flow
           (Interface.render_loop_float fuel output_len sample_rate stereo st)
         = option_map control_flow
             (Interface.render_loop_16bit fuel output_len sample_rate
                stereo st))
  /\
  (forall fuel output_len params st,
      option_map (retag_exit 4)
        (Part000.render_loop_float fuel output_len params
           (Part000.sample_rate params) st)
      = option_map (retag_exit 4)
          (Part000.render_loop_16bit fuel output_len params
             (Part000.sample_rate params) st)
      /\ option_map control_flow
           (Part000.render_loop_float fuel output_len params
              (Part000.sample_rate params) st)
         = option_map control_flow
             (Part000.render_loop_16bit fuel output_len params
                (Part000.sample_rate params) st)).
Proof.
  split; intros.
  - rewrite interface_loop_float, interface_loop_16bit.
    split; [apply render_loop_same_control | apply render_loop_same_flow].
  - rewrite part000_loop_float, part000_loop_16bit.
    split; [apply render_loop_same_control | apply render_loop_same_flow].
Qed.

Lemma is_some_get_or {A : Type} (default : A) (o : option A) :
  is_some o = true -> o = Some (get_or default o).
Proof. destruct o; [reflexivity | discriminate]. Qed.

(** ** The decoders used in the examples *)

Lemma tape_honours_count channels instruments samples interfaces length_frames :
  honours_count (tape channels instruments samples interfaces length_frames).
Proof.
  intros k count stereo n Hc H. unfold tape in H. cbn [produce] in H.
  injection H as <-. lia.
Qed.

Lemma tape_empty_request channels instruments samples interfaces length_frames :
  forall k stereo,
    produce (tape channels instruments samples interfaces length_frames)
      k 0 stereo = Frames 0.
Proof.
  intros k stereo. unfold tape. cbn [produce]. f_equal. lia.
Qed.

Lemma endless_honours_count channels instruments samples :
  honours_count (endless channels instruments samples).
Proof.
  intros k count stereo n Hc H. unfold endless in H. cbn [produce] in H.
  injection H as <-. lia.
Qed.

(** ** Termination of the render loops (C10) *)

Lemma ceil_div_covers a b : 1 <= b -> 0 <= a -> 0 <= ceil_div a b /\ a <= ceil_div a b * b.
Proof.
  intros Hb Ha. unfold ceil_div.
  pose proof (Z.div_mod (a + b - 1) b ltac:(lia)) as Hdm.
  pose proof (Z.mod_pos_bound (a + b - 1) b ltac:(lia)) as Hm.
  split.
  - apply Z.div_pos; lia.
  - nia.
Qed.

Lemma frames_total_bound sample_rate l :
  Forall (fun c => 0 <= frames_of c <= sample_rate) l ->
  0 <= frames_total l <= Z.of_nat (List.length l) * sample_rate.
Proof.
  induction 1 as [|c l Hc _ IH]; simpl frames_total; simpl List.length.
  - lia.
  - rewrite Nat2Z.inj_succ. nia.
Qed.

(** With [k] chunks left before the loop index reaches [output_len], and
    no wrap-around of the index on the way, the loop is over after at
    most [k] reads. *)
Lemma render_loop_finishes elem output_len sample_rate stereo :
  1 <= sample_rate ->
  forall (k : nat) st,
    0 <= ls_i st ->
    output_len <= ls_i st + Z.of_nat k * sample_rate ->
    ls_i st + Z.of_nat k * sample_rate < 2 ^ 32 ->
    exists e new,
      render_loop elem (S k) output_len sample_rate stereo st = Some e
      /\ calls (ls_song (exit_state e)) = new ++ calls (ls_song st)
      /\ (List.length new <= k)%nat.
Proof.
  intros Hsr. induction k as [|k IH]; intros st Hi Hend Hwrap;
    rewrite render_loop_turn.
  - assert (Hge : (ls_i st <? output_len) = false) by (apply Z.ltb_ge; lia).
    rewrite Hge. exists (Completed st), []. simpl. auto.
  - destruct (ls_i st <? output_len) eqn:Hlt.
    2:{ exists (Completed st), []. simpl. split; [reflexivity|].
        split; [reflexivity | lia]. }
    cbv zeta.
    destruct (produce (ls_song st) (position (ls_song st)) sample_rate stereo)
      as [n|] eqn:P.
    + destruct (negb (wrap32 n =? sample_rate)).
      * eexists. exists [CallRead elem stereo sample_rate (ls_out st) (Frames n)].
        split; [reflexivity|]. simpl. rewrite P.
        split; [reflexivity | lia].
      * rewrite Nat2Z.inj_succ in Hend, Hwrap.
        assert (Hi' : wrap32 (ls_i st + sample_rate) = ls_i st + sample_rate).
        { apply wrap32_small. nia. }
        match goal with
        | |- context [render_loop _ _ _ _ _ ?st'] =>
            destruct (IH st') as (e & new & He & Hc & Hl)
        end.
        { simpl. rewrite Hi'. lia. }
        { simpl. rewrite Hi'. lia. }
        { simpl. rewrite Hi'. lia. }
        exists e,
          (new ++ [CallRead elem stereo sample_rate (ls_out st) (Frames n)]).
        split; [exact He|].
        simpl in Hc. rewrite P in Hc.
        split; [rewrite Hc, <- app_assoc; reflexivity|].
        rewrite length_app. simpl. lia.
    + eexists. exists [CallRead elem stereo sample_rate (ls_out st) Raise].
      split; [reflexivity|]. simpl. rewrite P.
      split; [reflexivity | lia].
Qed.

(** A loop whose index does not move is never over while the decoder
    keeps answering with [sample_rate = 0] frames. *)
Lemma render_loop_stuck elem output_len stereo fuel :
  forall st,
    ls_i st < output_len ->
    0 <= ls_i st < 2 ^ 32 ->
    (forall k, produce (ls_song st) k 0 stereo = Frames 0) ->
    render_loop elem fuel output_len 0 stereo st = None.
Proof.
  induction fuel as [|fuel IH]; intros st Hi Hr P; [reflexivity|].
  rewrite render_loop_turn.
  assert (Hlt : (ls_i st <? output_len) = true) by (apply Z.ltb_lt; lia).
  rewrite Hlt. cbv zeta. rewrite P.
  change (negb (wrap32 0 =? 0)) with false. cbv iota.
  assert (Hw : wrap32 (ls_i st + 0) = ls_i st).
  { rewrite Z.add_0_r. apply wrap32_small. exact Hr. }
  apply IH; simpl; rewrite ?Hw; auto.
Qed.

(** The index of a loop over [2^31 + 1] bytes in steps of [2^31] frames
    wraps to 0 after the second read. *)
Lemma render_loop_wraps_forever elem stereo fuel :
  forall st,
    ls_i st = 0 \/ ls_i st = 2 ^ 31 ->
    (forall k, produce (ls_song st) k (2 ^ 31) stereo = Frames (2 ^ 31)) ->
    render_loop elem fuel (2 ^ 31 + 1) (2 ^ 31) stereo st = None.
Proof.
  induction fuel as [|fuel IH]; intros st Hi P; [reflexivity|].
  rewrite render_loop_turn.
  assert (Hlt : (ls_i st <? 2 ^ 31 + 1) = true) by (apply Z.ltb_lt; lia).
  rewrite Hlt. cbv zeta. rewrite P.
  change (negb (wrap32 (2 ^ 31) =? 2 ^ 31)) with false. cbv iota.
  apply IH; simpl; [|exact P].
  destruct Hi as [-> | ->]; [right | left]; reflexivity.
Qed.

(** C10, as the code has it.  In each render loop of the sources, entered
    as [song_render_c] enters it: when [sample_rate >= 1] and the last
    chunk start [ceil (output_len / sample_rate) * sample_rate] still fits
    in 32 bits, the loop is over (by its condition, its [break] or an
    exception) after at most [ceil (output_len / sample_rate)] reads,
    whatever the decoder answers; and when the decoder renders at most
    what it is asked for, [samples_generated] is at most that many
    chunks.  With [sample_rate = 0], a non-empty buffer and a decoder that
    answers the empty requests with no frames, the loop is never over. *)
Theorem render_loop_read_bound :
  forall loop elem output_len sample_rate stereo,
    source_loop loop elem output_len sample_rate stereo ->
    (forall s,
        1 <= sample_rate ->
        0 <= output_len ->
        ceil_div output_len sample_rate * sample_rate < 2 ^ 32 ->
        exists fuel e new,
          loop fuel (entry_state s) = Some e
          /\ calls (ls_song (exit_state e)) = new ++ calls s
          /\ Forall (fun c => is_read c = true) new
          /\ Z.of_nat (List.length new) <= ceil_div output_len sample_rate
          /\ (honours_count s ->
              0 <= ls_samples_generated (exit_state e)
                <= ceil_div output_len sample_rate * sample_rate))
    /\
    (forall s,
        sample_rate = 0 ->
        0 < output_len ->
        (forall k, produce s k 0 stereo = Frames 0) ->
        forall fuel, loop fuel (entry_state s) = None).
Proof.
  intros loop elem output_len sample_rate stereo Hloop.
  pose proof (source_loop_shape _ _ _ _ _ Hloop) as Hshape.
  split.
  - intros s Hsr Hol Hwrap.
    destruct (ceil_div_covers output_len sample_rate Hsr Hol) as [Hk0 Hcover].
    set (K := ceil_div output_len sample_rate) in *.
    destruct (render_loop_finishes elem output_len sample_rate stereo Hsr
                (Z.to_nat K) (entry_state s)) as (e & new & He & Hc & Hl).
    { simpl. lia. }
    { simpl. rewrite Z2Nat.id by exact Hk0. lia. }
    { simpl. rewrite Z2Nat.id by exact Hk0. lia. }
    destruct (render_loop_trace _ _ _ _ _ _ _ He)
      as (new' & Hc' & _ & Hf & Hsg & _).
    assert (new' = new) as ->.
    { rewrite Hc in Hc'. apply app_inv_tail in Hc'. congruence. }
    exists (S (Z.to_nat K)), e, new.
    split; [rewrite Hshape; exact He|].
    split; [exact Hc|].
    split.
    { eapply Forall_impl; [|exact Hf]. intros c (dest & k & ->). reflexivity. }
    split; [lia|].
    intro Hs.
    assert (Hb : Forall (fun c => 0 <= frames_of c <= sample_rate) new).
    { eapply Forall_impl; [|exact Hf].
      intros c (dest & k & ->). simpl.
      destruct (produce s k sample_rate stereo) as [n|] eqn:P; [|lia].
      apply (Hs k sample_rate stereo n); [lia | exact P]. }
    apply frames_total_bound in Hb.
    rewrite Hsg by (simpl; lia). simpl ls_samples_generated.
    pose proof (wrap32_range (0 + frames_total new)).
    pose proof (wrap32_le (0 + frames_total new)).
    split; [lia|]. nia.
  - intros s -> Hol P fuel. rewrite Hshape.
    apply render_loop_stuck; simpl; [lia | lia | exact P].
Qed.

Lemma render_loop_read_bound_witness :
  (exists fuel e new,
      Interface.render_loop_16bit fuel 480000 48000 false
        (entry_state (tape 4 0 8 every_interface 160800)) = Some e
      /\ calls (ls_song (exit_state e))
         = new ++ calls (tape 4 0 8 every_interface 160800)
      /\ Forall (fun c => is_read c = true) new
      /\ Z.of_nat (List.length new) <= ceil_div 480000 48000
      /\ 0 <= ls_samples_generated (exit_state e)
           <= ceil_div 480000 48000 * 48000)
  /\
  (forall fuel,
      Interface.render_loop_float fuel 4 0 true
        (entry_state (tape 4 0 8 every_interface 160800)) = None).
Proof.
  split.
  - destruct (proj1 (render_loop_read_bound _ _ _ _ _
                       (interface_16bit 480000 48000 false))
                (tape 4 0 8 every_interface 160800))
      as (fuel & e & new & Hrun & Hlog & Hreads & Hcount & Hframes).
    + lia.
    + lia.
    + vm_compute. reflexivity.
    + exists fuel, e, new.
      split; [exact Hrun|]. split; [exact Hlog|]. split; [exact Hreads|].
      split; [exact Hcount|]. apply Hframes, tape_honours_count.
  - apply (proj2 (render_loop_read_bound _ _ _ _ _
                    (interface_float 4 0 true))).
    + reflexivity.
    + lia.
    + intro k. apply tape_empty_request.
Defined.

(** Against C10 as it was stated: with [sample_rate = 2^31] and
    [output_len = 2^31 + 1] the bound would be two reads, but on a decoder
    that always renders a full chunk the loop index goes 0, 2^31, 0, ...
    and the loop is never over. *)
Lemma render_loop_wrapping_index_never_ends :
  1 <= 2 ^ 31
  /\ ceil_div (2 ^ 31 + 1) (2 ^ 31) = 2
  /\ honours_count (endless 4 0 8)
  /\ ~ (exists fuel e,
          Interface.render_loop_16bit fuel (2 ^ 31 + 1) (2 ^ 31) false
            (entry_state (endless 4 0 8)) = Some e).
Proof.
  split; [lia|]. split; [reflexivity|]. split.
  - apply endless_honours_count.
  - intros (fuel & e & H).
    rewrite interface_loop_16bit, render_loop_wraps_forever in H.
    + discriminate.
    + left. reflexivity.
    + intro k. reflexivity.
Qed.

(** ** The value returned by [song_render_c] (C5) *)

Lemma interface_loop_entry mpt input c k s :
  module_ext mpt [] input = Some s ->
  Interface.loop_entry mpt input c k
  = Some (entry_state
            (Interface.mute_setup c k (get_num_channels s)
               (effective_instrument_count s) s)).
Proof.
  intro H. unfold Interface.loop_entry. rewrite H. reflexivity.
Qed.

(** In part_000 the stereo separation is set before the mute setup. *)
Lemma part000_loop_entry mpt input params s :
  module_ext mpt (ctls_set "play.at_end" "stop" []) input = Some s ->
  Part000.loop_entry mpt input params
  = Some (entry_state
            (Part000.mute_setup params (get_num_channels s)
               (effective_instrument_count s)
               (if Part000.stereo_separation_enabled params
                then set_render_param (Part000.stereo_separation params) s
                else s))).
Proof.
  intro H. unfold Part000.loop_entry. rewrite H. reflexivity.
Qed.

(** With [sample_rate >= 1] and a loop index that does not wrap around,
    [song_render_c] returns. *)
Lemma interface_render_returns mpt output_len input sample_rate
    bytes_per_sample channel_to_play instrument_to_play stereo :
  1 <= sample_rate ->
  0 <= output_len ->
  ceil_div output_len sample_rate * sample_rate < 2 ^ 32 ->
  exists fuel o,
    Interface.song_render_c fuel mpt output_len input sample_rate
      bytes_per_sample channel_to_play instrument_to_play stereo = Some o.
Proof.
  intros Hsr Hol Hwrap.
  destruct (ceil_div_covers output_len sample_rate Hsr Hol) as [Hk0 Hcover].
  exists (S (Z.to_nat (ceil_div output_len sample_rate))).
  unfold Interface.song_render_c.
  destruct (module_ext mpt [] input) as [s|] eqn:Hload.
  - rewrite (interface_loop_entry _ _ _ _ _ Hload).
    rewrite interface_loop_16bit, interface_loop_float.
    match goal with
    | |- context [entry_state ?s'] =>
        destruct (render_loop_finishes
                    (if bytes_per_sample =? 2 then 2 else 4)
                    output_len sample_rate stereo Hsr
                    (Z.to_nat (ceil_div output_len sample_rate))
                    (entry_state s')) as (e & new & He & _)
    end.
    { simpl. lia. }
    { simpl. rewrite Z2Nat.id by exact Hk0. lia. }
    { simpl. rewrite Z2Nat.id by exact Hk0. lia. }
    destruct (bytes_per_sample =? 2); rewrite He;
      destruct e; eexists; reflexivity.
  - unfold Interface.loop_entry. rewrite Hload. eexists. reflexivity.
Qed.

Lemma part000_render_returns mpt output_len input params :
  1 <= Part000.sample_rate params ->
  0 <= output_len ->
  ceil_div output_len (Part000.sample_rate params)
  * Part000.sample_rate params < 2 ^ 32 ->
  exists fuel o,
    Part000.song_render_c fuel mpt output_len input params = Some o.
Proof.
  intros Hsr Hol Hwrap.
  destruct (ceil_div_covers output_len _ Hsr Hol) as [Hk0 Hcover].
  exists (S (Z.to_nat (ceil_div output_len (Part000.sample_rate params)))).
  unfold Part000.song_render_c.
  destruct (module_ext mpt (ctls_set "play.at_end" "stop" []) input)
    as [s|] eqn:Hload.
  - rewrite (part000_loop_entry _ _ _ _ Hload). cbv zeta.
    rewrite part000_loop_16bit, part000_loop_float.
    match goal with
    | |- context [entry_state ?s'] =>
        destruct (render_loop_finishes
                    (if Part000.bytes_per_sample params =? 2 then 2 else 4)
                    output_len (Part000.sample_rate params)
                    (Part000.stereo_output params) Hsr
                    (Z.to_nat (ceil_div output_len
                                 (Part000.sample_rate params)))
                    (entry_state s')) as (e & new & He & _)
    end.
    { simpl. lia. }
    { simpl. rewrite Z2Nat.id by exact Hk0. lia. }
    { simpl. rewrite Z2Nat.id by exact Hk0. lia. }
    destruct (Part000.bytes_per_sample params =? 2); rewrite He;
      destruct e; eexists; reflexivity.
  - unfold Part000.loop_entry. rewrite Hload. eexists. reflexivity.
Qed.

(** A run of [song_render_c] that loaded the module, taken apart: the
    state at loop entry, the exit of the loop, and what it returned. *)
Lemma interface_render_inv fuel mpt output_len input sample_rate
    bytes_per_sample channel_to_play instrument_to_play stereo o st0 :
  Interface.loop_entry mpt input channel_to_play instrument_to_play = Some st0 ->
  Interface.song_render_c fuel mpt output_len input sample_rate
    bytes_per_sample channel_to_play instrument_to_play stereo = Some o ->
  exists e,
    render_loop (if bytes_per_sample =? 2 then 2 else 4) fuel output_len
      sample_rate stereo st0 = Some e
    /\ final_song o = Some (ls_song (exit_state e))
    /\ caught o = threw e
    /\ returned o =
       if threw e then 0
       else if stereo
            then wrap32 (wrap32 (ls_samples_generated (exit_state e) * 2)
                         * bytes_per_sample)
            else wrap32 (ls_samples_generated (exit_state e)
                         * bytes_per_sample).
Proof.
  intros Hentry H. unfold Interface.song_render_c in H. rewrite Hentry in H.
  rewrite interface_loop_16bit, interface_loop_float in H.
  destruct (bytes_per_sample =? 2);
    match type of H with
    | context [render_loop ?el _ _ _ _ _] =>
        destruct (render_loop el fuel output_len sample_rate stereo st0)
          as [[st|st]|]; [| |discriminate];
          injection H as <-; eexists; (split; [reflexivity|]); simpl; auto
    end.
Qed.

Lemma part000_render_inv fuel mpt output_len input params o st0 :
  Part000.loop_entry mpt input params = Some st0 ->
  Part000.song_render_c fuel mpt output_len input params = Some o ->
  exists e,
    render_loop (if Part000.bytes_per_sample params =? 2 then 2 else 4) fuel
      output_len (Part000.sample_rate params) (Part000.stereo_output params)
      st0 = Some e
    /\ final_song o = Some (ls_song (exit_state e))
    /\ caught o = threw e
    /\ returned o =
       if threw e then 0
       else if Part000.stereo_output params
            then wrap32 (wrap32 (ls_samples_generated (exit_state e) * 2)
                         * Part000.bytes_per_sample params)
            else wrap32 (ls_samples_generated (exit_state e)
                         * Part000.bytes_per_sample params).
Proof.
  intros Hentry H. unfold Part000.song_render_c in H. rewrite Hentry in H.
  cbv zeta in H.
  rewrite part000_loop_16bit, part000_loop_float in H.
  destruct (Part000.bytes_per_sample params =? 2);
    match type of H with
    | context [render_loop ?el _ _ _ _ _] =>
        destruct (render_loop el fuel output_len (Part000.sample_rate params)
                    (Part000.stereo_output params) st0)
          as [[st|st]|]; [| |discriminate];
          injection H as <-; eexists; (split; [reflexivity|]); simpl; auto
    end.
Qed.

Lemma interface_entry_counter mpt input channel_to_play instrument_to_play st0 :
  Interface.loop_entry mpt input channel_to_play instrument_to_play = Some st0 ->
  ls_samples_generated st0 = 0.
Proof.
  unfold Interface.loop_entry.
  destruct (module_ext mpt [] input); [|discriminate].
  intro H. injection H as <-. reflexivity.
Qed.

Lemma part000_entry_counter mpt input params st0 :
  Part000.loop_entry mpt input params = Some st0 ->
  ls_samples_generated st0 = 0.
Proof.
  unfold Part000.loop_entry.
  destruct (module_ext mpt _ input); [|discriminate].
  intro H. injection H as <-. reflexivity.
Qed.

(** The byte count of a run whose loop added [new] to the log. *)
Lemma byte_count_of_trace sg new stereo bytes_per_sample :
  sg = wrap32 (0 + frames_total new) ->
  (if stereo : bool
   then wrap32 (wrap32 (sg * 2) * bytes_per_sample)
   else wrap32 (sg * bytes_per_sample))
  = wrap32 (frames_total new * (if stereo then 2 else 1) * bytes_per_sample).
Proof.
  intros ->. rewrite Z.add_0_l. destruct stereo.
  - rewrite (wrap32_mul_l (wrap32 (frames_total new) * 2)).
    rewrite <- Z.mul_assoc, wrap32_mul_l, Z.mul_assoc. reflexivity.
  - rewrite wrap32_mul_l, Z.mul_1_r. reflexivity.
Qed.

Lemma render_byte_count elem fuel output_len sample_rate stereo
    bytes_per_sample st0 e :
  ls_samples_generated st0 = 0 ->
  render_loop elem fuel output_len sample_rate stereo st0 = Some e ->
  exists new,
    calls (ls_song (exit_state e)) = new ++ calls (ls_song st0)
    /\ Forall (fun c => is_read c = true) new
    /\ existsb is_raise new = threw e
    /\ (if stereo
        then wrap32 (wrap32 (ls_samples_generated (exit_state e) * 2)
                     * bytes_per_sample)
        else wrap32 (ls_samples_generated (exit_state e) * bytes_per_sample))
       = wrap32 (frames_total new * (if stereo then 2 else 1)
                 * bytes_per_sample).
Proof.
  intros H0 He.
  destruct (render_loop_trace _ _ _ _ _ _ _ He) as (new & Hc & _ & Hf & Hsg & Ht).
  exists new. split; [exact Hc|]. split.
  { eapply Forall_impl; [|exact Hf]. intros c (dest & k & ->). reflexivity. }
  split; [exact Ht|].
  apply byte_count_of_trace. rewrite Hsg, H0; [reflexivity|].
  rewrite H0. lia.
Qed.

(** C5, as the code has it.  A call of [song_render_c] that loads the
    module and does not end in the [catch] returns, in 32 bits, the frames
    rendered by its reads times 2 times [bytes_per_sample] for stereo
    output and times [bytes_per_sample] for mono output: the product
    modulo 2^32, which is the product itself whenever that is below
    2^32.  [new] is what the render loop added to the decoder's log.  And
    the call does return when [sample_rate >= 1] and the loop index cannot
    wrap around. *)
Theorem returned_byte_count :
  (forall fuel mpt output_len input sample_rate bytes_per_sample
          channel_to_play instrument_to_play stereo_output o st0,
      Interface.loop_entry mpt input channel_to_play instrument_to_play
      = Some st0 ->
      Interface.song_render_c fuel mpt output_len input sample_rate
        bytes_per_sample channel_to_play instrument_to_play stereo_output
      = Some o ->
      caught o = false ->
      exists s1 new,
        final_song o = Some s1
        /\ calls s1 = new ++ calls (ls_song st0)
        /\ Forall (fun c => is_read c = true) new
        /\ returned o
           = wrap32 (if stereo_output
                     then frames_total new * 2 * bytes_per_sample
                     else frames_total new * bytes_per_sample)
        /\ ((if stereo_output
             then 0 <= frames_total new * 2 * bytes_per_sample < 2 ^ 32
             else 0 <= frames_total new * bytes_per_sample < 2 ^ 32) ->
            returned o
            = if stereo_output
              then frames_total new * 2 * bytes_per_sample
              else frames_total new * bytes_per_sample))
  /\
  (forall fuel mpt output_len input params o st0,
      Part000.loop_entry mpt input params = Some st0 ->
      Part000.song_render_c fuel mpt output_len input params = Some o ->
      caught o = false ->
      exists s1 new,
        final_song o = Some s1
        /\ calls s1 = new ++ calls (ls_song st0)
        /\ Forall (fun c => is_read c = true) new
        /\ returned o
           = wrap32 (if Part000.stereo_output params
                     then frames_total new * 2 * Part000.bytes_per_sample params
                     else frames_total new * Part000.bytes_per_sample params)
        /\ ((if Part000.stereo_output params
             then 0 <= frames_total new * 2 * Part000.bytes_per_sample params
                  < 2 ^ 32
             else 0 <= frames_total new * Part000.bytes_per_sample params
                  < 2 ^ 32) ->
            returned o
            = if Part000.stereo_output params
              then frames_total new * 2 * Part000.bytes_per_sample params
              else frames_total new * Part000.bytes_per_sample params))
  /\
  (forall mpt output_len input sample_rate bytes_per_sample
          channel_to_play instrument_to_play stereo_output,
      1 <= sample_rate ->
      0 <= output_len ->
      ceil_div output_len sample_rate * sample_rate < 2 ^ 32 ->
      exists fuel o,
        Interface.song_render_c fuel mpt output_len input sample_rate
          bytes_per_sample channel_to_play instrument_to_play stereo_output
        = Some o)
  /\
  (forall mpt output_len input params,
      1 <= Part000.sample_rate params ->
      0 <= output_len ->
      ceil_div output_len (Part000.sample_rate params)
      * Part000.sample_rate params < 2 ^ 32 ->
      exists fuel o,
        Part000.song_render_c fuel mpt output_len input params = Some o).
Proof.
  split; [|split; [|split;
    [intros; apply interface_render_returns; assumption
    |intros; apply part000_render_returns; assumption]]].
  - intros fuel mpt output_len input sample_rate bps ch ins stereo o st0
      Hentry Hrun Hcaught.
    destruct (interface_render_inv _ _ _ _ _ _ _ _ _ _ _ Hentry Hrun)
      as (e & He & Hfinal & Hc & Hret).
    rewrite Hc in Hcaught. rewrite Hcaught in Hret.
    destruct (render_byte_count _ _ _ _ _ bps _ _
                (interface_entry_counter _ _ _ _ _ Hentry) He)
      as (new & Hcalls & Hreads & _ & Hbytes).
    exists (ls_song (exit_state e)), new.
    split; [exact Hfinal|]. split; [exact Hcalls|]. split; [exact Hreads|].
    rewrite Hret, Hbytes.
    destruct stereo; rewrite ?Z.mul_1_r;
      (split; [reflexivity | intro Hr; apply wrap32_small; exact Hr]).
  - intros fuel mpt output_len input params o st0 Hentry Hrun Hcaught.
    destruct (part000_render_inv _ _ _ _ _ _ _ Hentry Hrun)
      as (e & He & Hfinal & Hc & Hret).
    rewrite Hc in Hcaught. rewrite Hcaught in Hret.
    destruct (render_byte_count _ _ _ _ _ (Part000.bytes_per_sample params) _ _
                (part000_entry_counter _ _ _ _ Hentry) He)
      as (new & Hcalls & Hreads & _ & Hbytes).
    exists (ls_song (exit_state e)), new.
    split; [exact Hfinal|]. split; [exact Hcalls|]. split; [exact Hreads|].
    rewrite Hret, Hbytes.
    destruct (Part000.stereo_output params); rewrite ?Z.mul_1_r;
      (split; [reflexivity | intro Hr; apply wrap32_small; exact Hr]).
Qed.

Lemma returned_byte_count_witness :
  returned
    (get_or no_outcome
       (Interface.song_render_c 5
          (loads (tape 4 0 8 every_interface 160800))
          480000 [] 48000 2 2 (-1) false))
  = frames_total [CallRead 2 false 48000 144000 (Frames 16800);
                  CallRead 2 false 48000 96000 (Frames 48000);
                  CallRead 2 false 48000 48000 (Frames 48000);
                  CallRead 2 false 48000 0 (Frames 48000)] * 2.
Proof.
  pose (run := Interface.song_render_c 5
                 (loads (tape 4 0 8 every_interface 160800))
                 480000 [] 48000 2 2 (-1) false).
  pose (st0 := entry_state (Interface.mute_setup 2 (-1) 4 8
                              (tape 4 0 8 every_interface 160800))).
  assert (Hrun : run = Some (get_or no_outcome run))
    by (apply is_some_get_or; vm_compute; reflexivity).
  assert (Hcaught : caught (get_or no_outcome run) = false)
    by (vm_compute; reflexivity).
  destruct (proj1 returned_byte_count 5%nat
              (loads (tape 4 0 8 every_interface 160800))
              480000 [] 48000 2 2 (-1) false
              (get_or no_outcome run) st0 eq_refl Hrun Hcaught)
    as (s1 & new & Hfinal & Hcalls & _ & _ & Hexact).
  assert (Hlog : final_calls (get_or no_outcome run) = calls s1)
    by (unfold final_calls; rewrite Hfinal; reflexivity).
  rewrite Hcalls in Hlog.
  assert (Hnew : [CallRead 2 false 48000 144000 (Frames 16800);
                  CallRead 2 false 48000 96000 (Frames 48000);
                  CallRead 2 false 48000 48000 (Frames 48000);
                  CallRead 2 false 48000 0 (Frames 48000)]
                 ++ calls (ls_song st0)
                 = new ++ calls (ls_song st0))
    by (rewrite <- Hlog; vm_compute; reflexivity).
  apply app_inv_tail in Hnew. subst new.
  apply Hexact. vm_compute. split; [intro H; discriminate H | reflexivity].
Defined.

(** Against C5 as it was stated: one stereo float chunk of 2^29 frames is
    2^32 bytes, and the call returns 0. *)
Lemma returned_byte_count_wraps :
  option_map caught
    (Interface.song_render_c 2 (loads (endless 4 0 8)) 1 [] (2 ^ 29) 4
       (-1) (-1) true) = Some false
  /\ option_map final_calls
       (Interface.song_render_c 2 (loads (endless 4 0 8)) 1 [] (2 ^ 29) 4
          (-1) (-1) true)
     = Some [CallRead 4 true (2 ^ 29) 0 (Frames (2 ^ 29))]
  /\ frames_total [CallRead 4 true (2 ^ 29) 0 (Frames (2 ^ 29))] * 2 * 4
     = 2 ^ 32
  /\ option_map returned
       (Interface.song_render_c 2 (loads (endless 4 0 8)) 1 [] (2 ^ 29) 4
          (-1) (-1) true) = Some 0
  /\ option_map returned
       (Interface.song_render_c 2 (loads (endless 4 0 8)) 1 [] (2 ^ 29) 4
          (-1) (-1) true)
     <> Some (frames_total [CallRead 4 true (2 ^ 29) 0 (Frames (2 ^ 29))]
              * 2 * 4).
Proof.
  split; [vm_compute; reflexivity|]. split; [vm_compute; reflexivity|].
  split; [vm_compute; reflexivity|]. split; [vm_compute; reflexivity|].
  vm_compute. discriminate.
Qed.

(** ** The capacity of the output buffer (C1) *)

(** C1 fails on the code.  The loop compares the frames requested so far
    with [output_len], a byte count, and only before a chunk starts: with
    a buffer of 96000 bytes (one second of mono 16-bit audio at 48 kHz)
    and a module three seconds long, both variants of [song_render_c]
    read a second chunk, which the decoder stores in the bytes 96000 to
    191999, and return 192000. *)
Theorem render_writes_past_output_len :
  (option_map caught
     (Interface.song_render_c 3 (loads (tape 4 0 8 every_interface 144000))
        96000 [] 48000 2 (-1) (-1) false) = Some false
   /\ option_map final_calls
        (Interface.song_render_c 3 (loads (tape 4 0 8 every_interface 144000))
           96000 [] 48000 2 (-1) (-1) false)
      = Some [CallRead 2 false 48000 48000 (Frames 48000);
              CallRead 2 false 48000 0 (Frames 48000)]
   /\ option_map returned
        (Interface.song_render_c 3 (loads (tape 4 0 8 every_interface 144000))
           96000 [] 48000 2 (-1) (-1) false) = Some 192000)
  /\
  (option_map caught
     (Part000.song_render_c 3 (loads (tape 4 0 8 every_interface 144000))
        96000 [] mono_16bit_48k) = Some false
   /\ option_map final_calls
        (Part000.song_render_c 3 (loads (tape 4 0 8 every_interface 144000))
           96000 [] mono_16bit_48k)
      = Some [CallRead 2 false 48000 48000 (Frames 48000);
              CallRead 2 false 48000 0 (Frames 48000)]
   /\ option_map returned
        (Part000.song_render_c 3 (loads (tape 4 0 8 every_interface 144000))
           96000 [] mono_16bit_48k) = Some 192000)
  /\
  map written [CallRead 2 false 48000 48000 (Frames 48000);
               CallRead 2 false 48000 0 (Frames 48000)]
  = [Some (96000, 192000); Some (0, 96000)]
  /\
  forallb (within_capacity 96000)
    [CallRead 2 false 48000 48000 (Frames 48000);
     CallRead 2 false 48000 0 (Frames 48000)] = false.
Proof. repeat split; vm_compute; reflexivity. Qed.

(** ** The sample-count fallback (C2) *)

Lemma interface_info_instruments mpt buffer song :
  module mpt (ctls_set "load.skip_plugins" "1" []) buffer = Some song ->
  num_instruments (Interface.get_song_info_c mpt buffer)
  = if get_num_instruments song =? 0 then get_num_samples song
    else get_num_instruments song.
Proof.
  intro H. unfold Interface.get_song_info_c. rewrite H. simpl.
  destruct (get_num_instruments song =? 0); reflexivity.
Qed.

Lemma part000_info_instruments mpt buffer output_with_stem sample_format
    song r :
  module mpt (ctls_set "load.skip_plugins" "1" []) buffer = Some song ->
  Part000.get_song_info_c mpt buffer output_with_stem sample_format = Some r ->
  num_instruments (fst r)
  = if get_num_instruments song =? 0 then get_num_samples song
    else get_num_instruments song.
Proof.
  intros H Hr. unfold Part000.get_song_info_c in Hr. rewrite H in Hr.
  cbn [num_channels num_instruments length_seconds] in Hr.
  destruct output_with_stem as [stem|].
  - destruct (Part000.export_samples _ _ _ _); [|discriminate].
    injection Hr as <-. cbn [fst num_instruments].
    destruct (get_num_instruments song =? 0); reflexivity.
  - injection Hr as <-. cbn [fst num_instruments].
    destruct (get_num_instruments song =? 0); reflexivity.
Qed.

Lemma part001_info_instruments mpt buffer dump_patterns song :
  module mpt
    (ctls_set "load.skip_plugins" "1" (ctls_set "load.skip_samples" "1" []))
    buffer = Some song ->
  num_instruments (Part001.get_song_info mpt buffer dump_patterns)
  = get_num_instruments song.
Proof.
  intro H. unfold Part001.get_song_info. rewrite H. reflexivity.
Qed.

(** C2 fails on the code.  For a module without instruments and with 16
    samples both [get_song_info_c] report 16 instruments, as their comment
    says, but [get_song_info] of part_001 reports 0: it returns the raw
    instrument count and never looks at the sample count. *)
Theorem get_song_info_has_no_sample_fallback :
  get_num_instruments (tape 4 0 16 every_interface 0) = 0
  /\ get_num_samples (tape 4 0 16 every_interface 0) = 16
  /\ num_instruments
       (Interface.get_song_info_c (loads (tape 4 0 16 every_interface 0)) [])
     = 16
  /\ option_map (fun r => num_instruments (fst r))
       (Part000.get_song_info_c (loads (tape 4 0 16 every_interface 0))
          [] None Part000.SampleFormat_Flac)
     = Some 16
  /\ num_instruments
       (Part001.get_song_info (loads (tape 4 0 16 every_interface 0)) [] 0)
     = 0.
Proof. repeat split; vm_compute; reflexivity. Qed.

(** ** The mute passes (C3, C9) *)

Lemma in_int_interval lo hi i : In i (int_interval lo hi) <-> lo <= i < hi.
Proof.
  unfold int_interval. rewrite in_map_iff. split.
  - intros (k & <- & Hk). apply in_seq in Hk. lia.
  - intro H. exists (Z.to_nat (i - lo)). split; [lia|].
    apply in_seq. lia.
Qed.

Lemma mem_int_range n i :
  existsb (Z.eqb i) (int_range n) = (0 <=? i) && (i <? n).
Proof.
  apply eq_true_iff_eq. rewrite existsb_exists, andb_true_iff.
  rewrite Z.leb_le, Z.ltb_lt. split.
  - intros (x & Hx & He). apply Z.eqb_eq in He. subst x.
    apply in_int_interval in Hx. lia.
  - intro H. exists i. split; [|apply Z.eqb_refl].
    apply in_int_interval. lia.
Qed.

(** A channel pass over the indices [l]. *)
Lemma channel_pass c l :
  forall s,
    let s' :=
      fold_left
        (fun s i =>
           if i =? c then set_channel_mute_status i false s
           else set_channel_mute_status i true s) l s in
    calls s'
    = rev (map (fun i => CallSetChannelMute i (negb (i =? c))) l) ++ calls s
    /\ (forall i,
          get_channel_mute_status s' i
          = if existsb (Z.eqb i) l then negb (i =? c)
            else get_channel_mute_status s i)
    /\ get_instrument_mute_status s' = get_instrument_mute_status s
    /\ get_interface s' = get_interface s.
Proof.
  induction l as [|a l IH]; intro s; simpl.
  - auto.
  - match goal with
    | |- context [fold_left _ l ?s1] => destruct (IH s1) as (Hc & Hm & Hi & Hf)
    end.
    split; [|split; [|split]].
    + rewrite Hc, <- app_assoc. destruct (a =? c); reflexivity.
    + intro i. rewrite Hm.
      destruct (existsb (Z.eqb i) l); [rewrite orb_true_r; reflexivity|].
      rewrite orb_false_r.
      destruct (a =? c) eqn:Ha; simpl; destruct (i =? a) eqn:Hia;
        try reflexivity; apply Z.eqb_eq in Hia; subst i; rewrite Ha;
        reflexivity.
    + rewrite Hi. destruct (a =? c); reflexivity.
    + rewrite Hf. destruct (a =? c); reflexivity.
Qed.

(** An instrument pass over the indices [l]. *)
Lemma instrument_pass k l :
  forall s,
    let s' :=
      fold_left
        (fun s i =>
           if i =? k then set_instrument_mute_status i false s
           else set_instrument_mute_status i true s) l s in
    calls s'
    = rev (map (fun i => CallSetInstrumentMute i (negb (i =? k))) l) ++ calls s
    /\ (forall i,
          get_instrument_mute_status s' i
          = if existsb (Z.eqb i) l then negb (i =? k)
            else get_instrument_mute_status s i)
    /\ get_channel_mute_status s' = get_channel_mute_status s
    /\ get_interface s' = get_interface s.
Proof.
  induction l as [|a l IH]; intro s; simpl.
  - auto.
  - match goal with
    | |- context [fold_left _ l ?s1] => destruct (IH s1) as (Hc & Hm & Hi & Hf)
    end.
    split; [|split; [|split]].
    + rewrite Hc, <- app_assoc. destruct (a =? k); reflexivity.
    + intro i. rewrite Hm.
      destruct (existsb (Z.eqb i) l); [rewrite orb_true_r; reflexivity|].
      rewrite orb_false_r.
      destruct (a =? k) eqn:Ha; simpl; destruct (i =? a) eqn:Hia;
        try reflexivity; apply Z.eqb_eq in Hia; subst i; rewrite Ha;
        reflexivity.
    + rewrite Hi. destruct (a =? k); reflexivity.
    + rewrite Hf. destruct (a =? k); reflexivity.
Qed.

Lemma interface_mute_setup c k nch nins s :
  Interface.mute_setup c k nch nins s
  = two_passes ((c >=? 0) && get_interface s interactive_id)
      ((k >=? 0) && get_interface s interactive_id) c k nch nins s.
Proof. reflexivity. Qed.

Lemma part000_mute_setup params nch nins s :
  Part000.mute_setup params nch nins s
  = two_passes
      ((Part000.channel_to_play params >=? 0) && get_interface s interactive_id)
      ((Part000.instrument_to_play params >=? 0)
       && get_interface s interactive_id && get_interface s interactive2_id)
      (Part000.channel_to_play params) (Part000.instrument_to_play params)
      nch nins s.
Proof. reflexivity. Qed.

Lemma two_passes_spec gc gk c k nch nins s :
  let s' := two_passes gc gk c k nch nins s in
  calls s'
  = (if gk then instrument_pass_calls k nins else [])
    ++ (if gc then channel_pass_calls c nch else []) ++ calls s
  /\ (forall i,
        get_channel_mute_status s' i
        = if gc && ((0 <=? i) && (i <? nch)) then negb (i =? c)
          else get_channel_mute_status s i)
  /\ (forall j,
        get_instrument_mute_status s' j
        = if gk && ((0 <=? j) && (j <? nins)) then negb (j =? k)
          else get_instrument_mute_status s j).
Proof.
  unfold two_passes, channel_pass_calls, instrument_pass_calls.
  destruct gc, gk; simpl.
  - match goal with
    | |- context [fold_left _ (int_range nins) ?s1] =>
        destruct (instrument_pass k (int_range nins) s1) as (Hc & Hm & Hi & _)
    end.
    destruct (channel_pass c (int_range nch) s) as (Hc' & Hm' & Hi' & _).
    cbv zeta in *. rewrite Hc, Hc', Hi. split; [reflexivity|]. split.
    + intro i. rewrite Hm', mem_int_range. reflexivity.
    + intro j. rewrite Hm, mem_int_range, Hi'. reflexivity.
  - destruct (channel_pass c (int_range nch) s) as (Hc' & Hm' & Hi' & _).
    cbv zeta in *. rewrite Hc', Hi'. split; [reflexivity|]. split.
    + intro i. rewrite Hm', mem_int_range. reflexivity.
    + reflexivity.
  - destruct (instrument_pass k (int_range nins) s) as (Hc & Hm & Hi & _).
    cbv zeta in *. rewrite Hc, Hi. split; [reflexivity|]. split.
    + reflexivity.
    + intro j. rewrite Hm, mem_int_range. reflexivity.
  - auto.
Qed.

(** The log and the flags after the mute setup, gate by gate. *)
Lemma mute_setup_calls :
  forall s num_channels instrument_count,
    (forall c k,
        calls (Interface.mute_setup c k num_channels instrument_count s)
        = (if (k >=? 0) && get_interface s interactive_id
           then instrument_pass_calls k instrument_count else [])
          ++ (if (c >=? 0) && get_interface s interactive_id
              then channel_pass_calls c num_channels else [])
          ++ calls s
        /\ (c < 0 ->
            forall i,
              get_channel_mute_status
                (Interface.mute_setup c k num_channels instrument_count s) i
              = get_channel_mute_status s i)
        /\ (k < 0 ->
            forall j,
              get_instrument_mute_status
                (Interface.mute_setup c k num_channels instrument_count s) j
              = get_instrument_mute_status s j))
    /\
    (forall params,
        calls (Part000.mute_setup params num_channels instrument_count s)
        = (if (Part000.instrument_to_play params >=? 0)
              && get_interface s interactive_id
              && get_interface s interactive2_id
           then instrument_pass_calls (Part000.instrument_to_play params)
                  instrument_count
           else [])
          ++ (if (Part000.channel_to_play params >=? 0)
                 && get_interface s interactive_id
              then channel_pass_calls (Part000.channel_to_play params)
                     num_channels
              else [])
          ++ calls s
        /\ (Part000.channel_to_play params < 0 ->
            forall i,
              get_channel_mute_status
                (Part000.mute_setup params num_channels instrument_count s) i
              = get_channel_mute_status s i)
        /\ (Part000.instrument_to_play params < 0 ->
            forall j,
              get_instrument_mute_status
                (Part000.mute_setup params num_channels instrument_count s) j
              = get_instrument_mute_status s j)).
Proof.
  intros s nch nins. split.
  - intros c k. rewrite interface_mute_setup.
    match goal with
    | |- context [two_passes ?gc ?gk _ _ _ _ _] =>
        destruct (two_passes_spec gc gk c k nch nins s) as (Hc & Hm & Hi)
    end.
    cbv zeta in *. split; [exact Hc|]. split.
    + intros Hneg i. rewrite Hm.
      replace (c >=? 0) with false by (symmetry; lia). reflexivity.
    + intros Hneg j. rewrite Hi.
      replace (k >=? 0) with false by (symmetry; lia). reflexivity.
  - intro params. rewrite part000_mute_setup.
    match goal with
    | |- context [two_passes ?gc ?gk ?c ?k _ _ _] =>
        destruct (two_passes_spec gc gk c k nch nins s) as (Hc & Hm & Hi)
    end.
    cbv zeta in *. split; [exact Hc|]. split.
    + intros Hneg i. rewrite Hm.
      replace (Part000.channel_to_play params >=? 0) with false
        by (symmetry; lia).
      reflexivity.
    + intros Hneg j. rewrite Hi.
      replace (Part000.instrument_to_play params >=? 0) with false
        by (symmetry; lia).
      reflexivity.
Qed.

(** C3, as the code has it.  [song_render_c] enters its render loop
    with: for channel isolation ([0 <= channel_to_play < channel_count],
    [instrument_to_play = -1]) on a decoder that offers [interactive],
    channel [i] of the [channel_count] muted if and only if
    [i <> channel_to_play], and every instrument flag as the decoder
    loaded it; for instrument isolation
    ([0 <= instrument_to_play < effective_instrument_count],
    [channel_to_play = -1]) on a decoder that offers [interactive] (in
    part_000: and [interactive2]), instrument [i] of the
    [effective_instrument_count] muted if and only if
    [i <> instrument_to_play], and every channel flag as the decoder
    loaded it; for the full mix (both indices -1), every flag as the
    decoder loaded it.  So the other axis, and for the full mix both, has
    nothing muted exactly when nothing was muted there at load. *)
Theorem render_mutes_all_but_target :
  forall mpt input s,
    (module_ext mpt [] input = Some s ->
     (forall c,
         0 <= c < get_num_channels s ->
         get_interface s interactive_id = true ->
         exists st0,
           Interface.loop_entry mpt input c (-1) = Some st0
           /\ only_unmuted (get_channel_mute_status (ls_song st0))
                (get_num_channels s) c
           /\ forall j,
                get_instrument_mute_status (ls_song st0) j
                = get_instrument_mute_status s j)
     /\
     (forall k,
         0 <= k < effective_instrument_count s ->
         get_interface s interactive_id = true ->
         exists st0,
           Interface.loop_entry mpt input (-1) k = Some st0
           /\ only_unmuted (get_instrument_mute_status (ls_song st0))
                (effective_instrument_count s) k
           /\ forall i,
                get_channel_mute_status (ls_song st0) i
                = get_channel_mute_status s i)
     /\
     (exists st0,
         Interface.loop_entry mpt input (-1) (-1) = Some st0
         /\ (forall i,
                get_channel_mute_status (ls_song st0) i
                = get_channel_mute_status s i)
         /\ (forall j,
                get_instrument_mute_status (ls_song st0) j
                = get_instrument_mute_status s j)))
    /\
    (module_ext mpt (ctls_set "play.at_end" "stop" []) input = Some s ->
     (forall params,
         0 <= Part000.channel_to_play params < get_num_channels s ->
         Part000.instrument_to_play params = -1 ->
         get_interface s interactive_id = true ->
         exists st0,
           Part000.loop_entry mpt input params = Some st0
           /\ only_unmuted (get_channel_mute_status (ls_song st0))
                (get_num_channels s) (Part000.channel_to_play params)
           /\ forall j,
                get_instrument_mute_status (ls_song st0) j
                = get_instrument_mute_status s j)
     /\
     (forall params,
         Part000.channel_to_play params = -1 ->
         0 <= Part000.instrument_to_play params
           < effective_instrument_count s ->
         get_interface s interactive_id = true ->
         get_interface s interactive2_id = true ->
         exists st0,
           Part000.loop_entry mpt input params = Some st0
           /\ only_unmuted (get_instrument_mute_status (ls_song st0))
                (effective_instrument_count s)
                (Part000.instrument_to_play params)
           /\ forall i,
                get_channel_mute_status (ls_song st0) i
                = get_channel_mute_status s i)
     /\
     (forall params,
         Part000.channel_to_play params = -1 ->
         Part000.instrument_to_play params = -1 ->
         exists st0,
           Part000.loop_entry mpt input params = Some st0
           /\ (forall i,
                  get_channel_mute_status (ls_song st0) i
                  = get_channel_mute_status s i)
           /\ (forall j,
                  get_instrument_mute_status (ls_song st0) j
                  = get_instrument_mute_status s j))).
Proof.
  intros mpt input s.
  assert (Hpass : forall gc gk c k s0,
             let s' := two_passes gc gk c k (get_num_channels s)
                         (effective_instrument_count s) s0 in
             (gc = true -> 0 <= c < get_num_channels s ->
              only_unmuted (get_channel_mute_status s')
                (get_num_channels s) c)
             /\ (gk = true -> 0 <= k < effective_instrument_count s ->
                 only_unmuted (get_instrument_mute_status s')
                   (effective_instrument_count s) k)
             /\ (gc = false ->
                 forall i,
                   get_channel_mute_status s' i = get_channel_mute_status s0 i)
             /\ (gk = false ->
                 forall j,
                   get_instrument_mute_status s' j
                   = get_instrument_mute_status s0 j)).
  { intros gc gk c k s0 s'.
    destruct (two_passes_spec gc gk c k (get_num_channels s)
                (effective_instrument_count s) s0) as (_ & Hm & Hi).
    fold s' in Hm, Hi.
    split; [|split; [|split]].
    - intros -> Hc i Hi'. rewrite Hm.
      replace ((0 <=? i) && (i <? get_num_channels s)) with true
        by (symmetry; lia).
      simpl. rewrite negb_true_iff, Z.eqb_neq. reflexivity.
    - intros -> Hk j Hj. rewrite Hi.
      replace ((0 <=? j) && (j <? effective_instrument_count s)) with true
        by (symmetry; lia).
      simpl. rewrite negb_true_iff, Z.eqb_neq. reflexivity.
    - intros -> i. rewrite Hm. reflexivity.
    - intros -> j. rewrite Hi. reflexivity. }
  assert (Hsep : forall params,
             let s0 :=
               if Part000.stereo_separation_enabled params
               then set_render_param (Part000.stereo_separation params) s
               else s in
             get_interface s0 = get_interface s
             /\ get_channel_mute_status s0 = get_channel_mute_status s
             /\ get_instrument_mute_status s0 = get_instrument_mute_status s).
  { intro params. destruct (Part000.stereo_separation_enabled params);
      repeat split. }
  split.
  - intro Hload. split; [|split].
    + intros c Hc Hint. eexists.
      split; [apply interface_loop_entry; exact Hload|].
      cbn [ls_song entry_state]. rewrite interface_mute_setup, Hint.
      replace (c >=? 0) with true by (symmetry; lia).
      split; [apply Hpass; [reflexivity | exact Hc]|].
      apply Hpass. reflexivity.
    + intros k Hk Hint. eexists.
      split; [apply interface_loop_entry; exact Hload|].
      cbn [ls_song entry_state]. rewrite interface_mute_setup, Hint.
      replace (k >=? 0) with true by (symmetry; lia).
      split; [apply Hpass; [reflexivity | exact Hk]|].
      apply Hpass. reflexivity.
    + eexists. split; [apply interface_loop_entry; exact Hload|].
      cbn [ls_song entry_state]. rewrite interface_mute_setup.
      split; apply Hpass; reflexivity.
  - intro Hload. split; [|split].
    + intros params Hc Hk Hint. destruct (Hsep params) as (Hi0 & Hc0 & Hk0).
      eexists. split; [apply part000_loop_entry; exact Hload|].
      cbn [ls_song entry_state]. rewrite part000_mute_setup, Hi0, Hint, Hk.
      replace (Part000.channel_to_play params >=? 0) with true
        by (symmetry; lia).
      split; [apply Hpass; [reflexivity | exact Hc]|].
      intro j. rewrite <- Hk0. apply Hpass. reflexivity.
    + intros params Hc Hk Hint Hint2.
      destruct (Hsep params) as (Hi0 & Hc0 & Hk0).
      eexists. split; [apply part000_loop_entry; exact Hload|].
      cbn [ls_song entry_state].
      rewrite part000_mute_setup, Hi0, Hint, Hint2, Hc.
      replace (Part000.instrument_to_play params >=? 0) with true
        by (symmetry; lia).
      split; [apply Hpass; [reflexivity | exact Hk]|].
      intro i. rewrite <- Hc0. apply Hpass. reflexivity.
    + intros params Hc Hk. destruct (Hsep params) as (Hi0 & Hc0 & Hk0).
      eexists. split; [apply part000_loop_entry; exact Hload|].
      cbn [ls_song entry_state]. rewrite part000_mute_setup, Hc, Hk.
      split.
      * intro i. rewrite <- Hc0. apply Hpass. reflexivity.
      * intro j. rewrite <- Hk0. apply Hpass. reflexivity.
Qed.

Lemma render_mutes_all_but_target_witness :
  (exists st0,
      Interface.loop_entry (loads (tape 4 0 8 every_interface 160800)) []
        2 (-1) = Some st0
      /\ only_unmuted (get_channel_mute_status (ls_song st0))
           (get_num_channels (tape 4 0 8 every_interface 160800)) 2
      /\ forall j,
           get_instrument_mute_status (ls_song st0) j
           = get_instrument_mute_status
               (tape 4 0 8 every_interface 160800) j)
  /\
  (exists st0,
      Part000.loop_entry (loads (tape 4 0 8 every_interface 160800)) []
        (isolating (-1) 5) = Some st0
      /\ only_unmuted (get_instrument_mute_status (ls_song st0))
           (effective_instrument_count (tape 4 0 8 every_interface 160800))
           (Part000.instrument_to_play (isolating (-1) 5))
      /\ forall i,
           get_channel_mute_status (ls_song st0) i
           = get_channel_mute_status
               (tape 4 0 8 every_interface 160800) i).
Proof.
  split.
  - apply (proj1 (proj1 (render_mutes_all_but_target
                           (loads (tape 4 0 8 every_interface 160800)) []
                           (tape 4 0 8 every_interface 160800))
                    eq_refl) 2).
    + unfold tape. cbn [get_num_channels]. lia.
    + reflexivity.
  - apply (proj1 (proj2 (proj2 (render_mutes_all_but_target
                                  (loads (tape 4 0 8 every_interface 160800))
                                  []
                                  (tape 4 0 8 every_interface 160800))
                           eq_refl))
             (isolating (-1) 5)).
    + reflexivity.
    + vm_compute. split; [intro H; discriminate H | reflexivity].
    + reflexivity.
    + reflexivity.
Defined.

(** Against C3 as it was stated.  Asked for channel 2 of the 4 of a
    module, on a decoder without the [interactive] interface,
    [song_render_c] enters its loop with channel 0 unmuted; part_000,
    asked for instrument 5 of 8 on a decoder without [interactive2],
    enters it with instrument 0 unmuted.  And on a decoder that offers
    both interfaces but loads the module with its first channel and its
    first instrument muted, channel isolation leaves instrument 0 muted,
    instrument isolation leaves channel 0 muted, and the full mix leaves
    both muted: the passes write the flags of their own axis only. *)
Lemma render_without_interactive_mutes_nothing :
  (0 <= 2 < get_num_channels (tape 4 0 8 no_interface 160800)
   /\ all_unmuted (tape 4 0 8 no_interface 160800)
   /\ 0 <> 2
   /\ channel_muted_at_entry
        (Interface.loop_entry (loads (tape 4 0 8 no_interface 160800)) []
           2 (-1)) 0
      = Some false)
  /\
  (0 <= 5 < effective_instrument_count
              (tape 4 0 8 only_interactive 160800)
   /\ all_unmuted (tape 4 0 8 only_interactive 160800)
   /\ 0 <> 5
   /\ instrument_muted_at_entry
        (Part000.loop_entry (loads (tape 4 0 8 only_interactive 160800)) []
           (isolating (-1) 5)) 0
      = Some false)
  /\
  (get_interface (with_first_muted (tape 4 0 8 every_interface 160800))
   = every_interface
   /\ instrument_muted_at_entry
        (Interface.loop_entry
           (loads (with_first_muted (tape 4 0 8 every_interface 160800))) []
           2 (-1)) 0
      = Some true
   /\ channel_muted_at_entry
        (Interface.loop_entry
           (loads (with_first_muted (tape 4 0 8 every_interface 160800))) []
           (-1) 5) 0
      = Some true
   /\ channel_muted_at_entry
        (Interface.loop_entry
           (loads (with_first_muted (tape 4 0 8 every_interface 160800))) []
           (-1) (-1)) 0
      = Some true
   /\ instrument_muted_at_entry
        (Interface.loop_entry
           (loads (with_first_muted (tape 4 0 8 every_interface 160800))) []
           (-1) (-1)) 0
      = Some true).
Proof.
  split; [|split].
  - split; [unfold tape; cbn [get_num_channels]; lia|].
    split; [split; intro; reflexivity|].
    split; [discriminate|]. vm_compute. reflexivity.
  - split; [vm_compute; split; [intro H; discriminate H | reflexivity]|].
    split; [split; intro; reflexivity|].
    split; [discriminate|]. vm_compute. reflexivity.
  - split; [reflexivity|].
    split; [vm_compute; reflexivity|]. split; [vm_compute; reflexivity|].
    split; vm_compute; reflexivity.
Qed.

(** C9, as the code has it.  At loop entry the log of the decoder is its
    log after loading (in part_000 with the stereo separation, if
    enabled), then the channel pass if [channel_to_play >= 0] and the
    decoder offers [interactive], then the instrument pass if
    [instrument_to_play >= 0] and the decoder offers [interactive] (in
    part_000: and [interactive2]); each pass has its own gate, so both run
    in one render when both gates are open.  With a negative index the
    corresponding pass makes no call and the corresponding flags are the
    ones the decoder was loaded with. *)
Theorem mute_passes_have_separate_gates :
  forall mpt input s,
    (module_ext mpt [] input = Some s ->
     forall c k,
     exists st0,
       Interface.loop_entry mpt input c k = Some st0
       /\ calls (ls_song st0)
          = (if (k >=? 0) && get_interface s interactive_id
             then instrument_pass_calls k (effective_instrument_count s)
             else [])
            ++ (if (c >=? 0) && get_interface s interactive_id
                then channel_pass_calls c (get_num_channels s) else [])
            ++ calls s
       /\ (c < 0 ->
           forall i,
             get_channel_mute_status (ls_song st0) i
             = get_channel_mute_status s i)
       /\ (k < 0 ->
           forall j,
             get_instrument_mute_status (ls_song st0) j
             = get_instrument_mute_status s j))
    /\
    (module_ext mpt (ctls_set "play.at_end" "stop" []) input = Some s ->
     forall params,
     exists st0,
       Part000.loop_entry mpt input params = Some st0
       /\ calls (ls_song st0)
          = (if (Part000.instrument_to_play params >=? 0)
                && get_interface s interactive_id
                && get_interface s interactive2_id
             then instrument_pass_calls (Part000.instrument_to_play params)
                    (effective_instrument_count s)
             else [])
            ++ (if (Part000.channel_to_play params >=? 0)
                   && get_interface s interactive_id
                then channel_pass_calls (Part000.channel_to_play params)
                       (get_num_channels s)
                else [])
            ++ (if Part000.stereo_separation_enabled params
                then [CallSetRenderParam (Part000.stereo_separation params)]
                else [])
            ++ calls s
       /\ (Part000.channel_to_play params < 0 ->
           forall i,
             get_channel_mute_status (ls_song st0) i
             = get_channel_mute_status s i)
       /\ (Part000.instrument_to_play params < 0 ->
           forall j,
             get_instrument_mute_status (ls_song st0) j
             = get_instrument_mute_status s j)).
Proof.
  intros mpt input s. split.
  - intros Hload c k. eexists.
    split; [apply interface_loop_entry; exact Hload|].
    apply (proj1 (mute_setup_calls s (get_num_channels s)
                    (effective_instrument_count s))).
  - intros Hload params. eexists.
    split; [apply part000_loop_entry; exact Hload|].
    destruct (proj2 (mute_setup_calls
                       (if Part000.stereo_separation_enabled params
                        then set_render_param
                               (Part000.stereo_separation params) s
                        else s)
                       (get_num_channels s) (effective_instrument_count s))
                params) as (Hc & Hch & Hins).
    simpl ls_song.
    destruct (Part000.stereo_separation_enabled params);
      (split; [exact Hc|]); split; assumption.
Qed.

Lemma mute_passes_have_separate_gates_witness :
  (exists st0,
      Interface.loop_entry (loads (tape 4 0 8 every_interface 160800)) []
        (-1) 5 = Some st0
      /\ calls (ls_song st0)
         = instrument_pass_calls 5
             (effective_instrument_count
                (tape 4 0 8 every_interface 160800))
           ++ [] ++ []
      /\ forall i,
          get_channel_mute_status (ls_song st0) i
          = get_channel_mute_status (tape 4 0 8 every_interface 160800) i)
  /\
  (exists st0,
      Part000.loop_entry (loads (tape 4 0 8 every_interface 160800)) []
        (isolating 1 (-1)) = Some st0
      /\ forall j,
          get_instrument_mute_status (ls_song st0) j
          = get_instrument_mute_status
              (tape 4 0 8 every_interface 160800) j).
Proof.
  split.
  - destruct (proj1 (mute_passes_have_separate_gates
                       (loads (tape 4 0 8 every_interface 160800)) []
                       (tape 4 0 8 every_interface 160800))
                eq_refl (-1) 5) as (st0 & Hentry & Hcalls & Hch & _).
    exists st0. split; [exact Hentry|]. split; [exact Hcalls|].
    apply Hch. lia.
  - destruct (proj2 (mute_passes_have_separate_gates
                       (loads (tape 4 0 8 every_interface 160800)) []
                       (tape 4 0 8 every_interface 160800))
                eq_refl (isolating 1 (-1))) as (st0 & Hentry & _ & _ & Hins).
    exists st0. split; [exact Hentry|].
    apply Hins. unfold isolating. cbn [Part000.instrument_to_play]. lia.
Defined.

(** Against C9 as it was stated: part_000 is asked for channel 1 and
    instrument 1 on a decoder that offers [interactive] but not
    [interactive2]; the channel pass runs and the instrument pass does
    not. *)
Lemma both_indices_given_one_pass_runs :
  0 <= Part000.channel_to_play (isolating 1 1)
  /\ 0 <= Part000.instrument_to_play (isolating 1 1)
  /\ calls_at_entry
       (Part000.loop_entry (loads (tape 4 0 8 only_interactive 160800)) []
          (isolating 1 1))
     = Some (channel_pass_calls 1 4)
  /\ option_map (existsb is_channel_mute)
       (calls_at_entry
          (Part000.loop_entry (loads (tape 4 0 8 only_interactive 160800)) []
             (isolating 1 1)))
     = Some true
  /\ option_map (existsb is_instrument_mute)
       (calls_at_entry
          (Part000.loop_entry (loads (tape 4 0 8 only_interactive 160800)) []
             (isolating 1 1)))
     = Some false
  /\ instrument_muted_at_entry
       (Part000.loop_entry (loads (tape 4 0 8 only_interactive 160800)) []
          (isolating 1 1)) 0
     = Some false.
Proof.
  split; [unfold isolating; cbn [Part000.channel_to_play]; lia|].
  split; [unfold isolating; cbn [Part000.instrument_to_play]; lia|].
  repeat split; vm_compute; reflexivity.
Qed.

(** ** The sample exporter (C7) *)

Lemma int_interval_NoDup lo hi : NoDup (int_interval lo hi).
Proof.
  unfold int_interval. apply Injective_map_NoDup.
  - intros a b H. lia.
  - apply seq_NoDup.
Qed.

Lemma format_04d_four_digits i :
  0 <= i <= 9999 -> format_04d i = four_digits i.
Proof.
  intro H.
  assert (Hall : forallb (fun i => String.eqb (format_04d i) (four_digits i))
                   (int_interval 0 10000) = true) by (vm_compute; reflexivity).
  rewrite forallb_forall in Hall.
  apply String.eqb_eq, Hall, in_int_interval. lia.
Qed.

(** One turn of the sample loop: its events when the name fits [name],
    and no outcome when it does not. *)
Lemma export_sample_fits sf stem sample_format i :
  (String.length (sample_name stem sample_format i)
   <? Part000.name_size)%nat = true ->
  exists evs,
    Part000.export_sample sf stem sample_format i = Some evs
    /\ write_attempts evs = [(i, sample_name stem sample_format i)]
    /\ Forall (written_as sample_format) evs
    /\ printed evs
       = if negb (save_sample sf sample_format i
                    (sample_name stem sample_format i))
         then [("Failed to write sample: "
                ++ sample_name stem sample_format i ++ newline)%string]
         else [].
Proof.
  unfold Part000.export_sample, Part000.sprintf_name, sample_name,
    save_sample, extension.
  destruct (sample_format =? Part000.SampleFormat_Flac) eqn:Hf; intros ->.
  - apply Z.eqb_eq in Hf.
    destruct (SaveFLACSample sf i _); eexists;
      (split; [reflexivity|]);
      cbv [negb write_attempts printed flat_map app];
      (split; [reflexivity|]); (split; [|reflexivity]);
      repeat constructor; exact Hf.
  - apply Z.eqb_neq in Hf.
    destruct (SaveWAVSample sf i _); eexists;
      (split; [reflexivity|]);
      cbv [negb write_attempts printed flat_map app];
      (split; [reflexivity|]); (split; [|reflexivity]);
      repeat constructor; exact Hf.
Qed.

Lemma export_sample_overflows sf stem sample_format i :
  (String.length (sample_name stem sample_format i)
   <? Part000.name_size)%nat = false ->
  Part000.export_sample sf stem sample_format i = None.
Proof.
  unfold Part000.export_sample, Part000.sprintf_name, sample_name, extension.
  destruct (sample_format =? Part000.SampleFormat_Flac); intros ->;
    reflexivity.
Qed.

(** The loop over the indices [l]. *)
Lemma export_samples_fit sf stem sample_format l :
  forallb
    (fun i =>
       (String.length (sample_name stem sample_format i)
        <? Part000.name_size)%nat) l = true ->
  exists evs,
    Part000.export_samples sf stem sample_format l = Some evs
    /\ write_attempts evs
       = map (fun i => (i, sample_name stem sample_format i)) l
    /\ Forall (written_as sample_format) evs
    /\ printed evs
       = map (fun i =>
                ("Failed to write sample: "
                 ++ sample_name stem sample_format i ++ newline)%string)
           (filter (fun i =>
                      negb (save_sample sf sample_format i
                              (sample_name stem sample_format i))) l).
Proof.
  induction l as [|i l IH]; cbn [forallb Part000.export_samples map filter].
  - intros _. exists []. repeat split. constructor.
  - intro H. apply andb_true_iff in H. destruct H as [Hi Hl].
    destruct (IH Hl) as (more & Hm & Hw & Hk & Hp).
    destruct (export_sample_fits sf stem sample_format i Hi)
      as (evs & He & Hw1 & Hk1 & Hp1).
    rewrite He, Hm. exists (evs ++ more).
    split; [reflexivity|].
    unfold write_attempts, printed in *.
    rewrite !flat_map_app, Hw, Hp, Hw1, Hp1.
    split; [reflexivity|]. split; [apply Forall_app; split; assumption|].
    destruct (negb _); reflexivity.
Qed.

Lemma export_samples_overflow sf stem sample_format l :
  forallb
    (fun i =>
       (String.length (sample_name stem sample_format i)
        <? Part000.name_size)%nat) l = false ->
  Part000.export_samples sf stem sample_format l = None.
Proof.
  induction l as [|i l IH]; cbn [forallb Part000.export_samples];
    [discriminate|].
  intro H. apply andb_false_iff in H.
  destruct ((String.length (sample_name stem sample_format i)
             <? Part000.name_size)%nat) eqn:Hi.
  - destruct H as [H|H]; [discriminate|]. rewrite (IH H).
    destruct (Part000.export_sample sf stem sample_format i); reflexivity.
  - rewrite (export_sample_overflows _ _ _ _ Hi). reflexivity.
Qed.

(** The sample exporter.  With an output stem whose sample names all
    fit the 4096 bytes of [name] (terminating NUL included),
    [get_song_info_c] of part_000 returns and has asked the sound file for
    one write per sample index from 1 to [GetNumSamples], in this order
    and whatever the writes answer; the stream of index [i] is named stem,
    [_sample_], [i] in the format [%04d] (four digits for the indices up
    to 9999), and [.flac] with the FLAC writer when [sample_format] is
    [SampleFormat_Flac], [.wav] with the WAV writer otherwise; the lines
    printed are the reports of exactly the writes that failed.  When a
    name does not fit, [sprintf] writes past [name] and the call has no
    defined outcome.  Without a stem nothing is written or printed. *)
Theorem sample_export_attempts_every_index :
  forall mpt buffer stem sample_format song,
    module mpt (ctls_set "load.skip_plugins" "1" []) buffer = Some song ->
    let sf := get_snd_file song in
    let indices := int_interval 1 (GetNumSamples sf + 1) in
    (names_fit stem sample_format (GetNumSamples sf) = true ->
     exists info evs,
       Part000.get_song_info_c mpt buffer (Some stem) sample_format
       = Some (info, evs)
       /\ write_attempts evs
          = map (fun i => (i, sample_name stem sample_format i)) indices
       /\ (forall i, In i indices <-> 1 <= i <= GetNumSamples sf)
       /\ NoDup indices
       /\ (forall i, 0 <= i <= 9999 -> format_04d i = four_digits i)
       /\ Forall (written_as sample_format) evs
       /\ printed evs
          = map (fun i =>
                   ("Failed to write sample: "
                    ++ sample_name stem sample_format i ++ newline)%string)
              (filter (fun i =>
                         negb (save_sample sf sample_format i
                                 (sample_name stem sample_format i)))
                 indices))
    /\ (names_fit stem sample_format (GetNumSamples sf) = false ->
        Part000.get_song_info_c mpt buffer (Some stem) sample_format = None)
    /\ exists info,
         Part000.get_song_info_c mpt buffer None sample_format
         = Some (info, []).
Proof.
  intros mpt buffer stem sample_format song Hload sf indices.
  split; [|split].
  - intro Hfit. unfold names_fit in Hfit. fold sf indices in Hfit.
    destruct (export_samples_fit sf stem sample_format indices Hfit)
      as (evs & He & Hw & Hk & Hp).
    eexists. exists evs. split.
    { unfold Part000.get_song_info_c. rewrite Hload. cbv zeta.
      fold sf. fold indices. rewrite He. reflexivity. }
    split; [exact Hw|]. split.
    { intro i. unfold indices. rewrite in_int_interval. lia. }
    split; [apply int_interval_NoDup|].
    split; [exact format_04d_four_digits|].
    split; [exact Hk | exact Hp].
  - intro Hover. unfold names_fit in Hover. fold sf indices in Hover.
    unfold Part000.get_song_info_c. rewrite Hload. cbv zeta.
    fold sf. fold indices.
    rewrite (export_samples_overflow _ _ _ _ Hover). reflexivity.
  - unfold Part000.get_song_info_c. rewrite Hload. eexists. reflexivity.
Qed.

Lemma sample_export_attempts_every_index_witness :
  exists info evs,
    Part000.get_song_info_c
      (loads (with_snd_file three_samples
                (tape 4 0 3 every_interface 160800)))
      [] (Some "track") Part000.SampleFormat_Flac
    = Some (info, evs)
    /\ write_attempts evs
       = [(1, "track_sample_0001.flac"); (2, "track_sample_0002.flac");
          (3, "track_sample_0003.flac")]
    /\ printed evs
       = [("Failed to write sample: track_sample_0002.flac"
           ++ newline)%string].
Proof.
  destruct (proj1 (sample_export_attempts_every_index
                     (loads (with_snd_file three_samples
                               (tape 4 0 3 every_interface 160800)))
                     [] "track" Part000.SampleFormat_Flac
                     (with_snd_file three_samples
                        (tape 4 0 3 every_interface 160800)) eq_refl))
    as (info & evs & Hrun & Hw & _ & _ & _ & _ & Hp).
  - vm_compute. reflexivity.
  - exists info, evs. split; [exact Hrun|].
    rewrite Hw, Hp. split; vm_compute; reflexivity.
Defined.

(** C7 fails on the code.  [get_song_info_c] formats every sample name
    with [sprintf] into [char name[4096]] and never checks that it fits.
    For a module with three samples and a stem of 4090 characters the
    name of the first sample takes 4107 characters: [sprintf] writes past
    the end of [name], the call has no defined outcome, and no write is
    made under the names the claim gives.  With the stem [track] the same
    call returns and attempts the three writes. *)
Theorem sample_export_overflows_name_buffer :
  String.length long_stem = 4090%nat
  /\ GetNumSamples
       (get_snd_file
          (with_snd_file three_samples (tape 4 0 3 every_interface 160800)))
     = 3
  /\ String.length (sample_name long_stem Part000.SampleFormat_Flac 1)
     = 4107%nat
  /\ Part000.name_size = 4096%nat
  /\ Part000.get_song_info_c
       (loads (with_snd_file three_samples
                 (tape 4 0 3 every_interface 160800)))
       [] (Some long_stem) Part000.SampleFormat_Flac
     = None
  /\ option_map (fun r => write_attempts (snd r))
       (Part000.get_song_info_c
          (loads (with_snd_file three_samples
                    (tape 4 0 3 every_interface 160800)))
          [] (Some "track") Part000.SampleFormat_Flac)
     = Some [(1, "track_sample_0001.flac"); (2, "track_sample_0002.flac");
             (3, "track_sample_0003.flac")].
Proof.
  split; [vm_compute; reflexivity|]. split; [reflexivity|].
  split; [vm_compute; reflexivity|]. split; [reflexivity|].
  split; vm_compute; reflexivity.
Qed.

(** ** Further properties of the render *)

(** *** Where the rendered bytes go *)

Lemma within_extent_widen a b a' b' c :
  a' <= a -> b <= b' -> within_extent a b c -> within_extent a' b' c.
Proof.
  unfold within_extent. destruct (written c) as [[first past]|]; [|auto].
  intros. lia.
Qed.

Lemma render_loop_layout elem output_len sample_rate stereo fuel :
  0 <= elem ->
  0 <= sample_rate ->
  sample_rate * channels_out stereo < 2 ^ 32 ->
  forall st e,
    render_loop elem fuel output_len sample_rate stereo st = Some e ->
    honours_count (ls_song st) ->
    exists new,
      calls (ls_song (exit_state e)) = new ++ calls (ls_song st)
      /\ 0 <= frames_total new
      /\ Forall (within_extent (ls_out st * elem)
                   (ls_out st * elem
                    + frames_total new * (channels_out stereo * elem)))
           new.
Proof.
  intros Helem Hsr Hadv.
  assert (Hch : 1 <= channels_out stereo <= 2) by (destruct stereo; simpl; lia).
  assert (Hstep : (if stereo then wrap32 (sample_rate * 2) else sample_rate)
                  = sample_rate * channels_out stereo).
  { destruct stereo; simpl in *; [apply wrap32_small; lia | lia]. }
  assert (Hsr32 : sample_rate < 2 ^ 32)
    by (destruct stereo; unfold channels_out in Hadv; lia).
  induction fuel as [|fuel IH]; intros st e H Hs; [discriminate|].
  rewrite render_loop_turn in H.
  destruct (ls_i st <? output_len).
  2:{ injection H as <-. exists []. simpl. split; [reflexivity|].
      split; [lia | constructor]. }
  cbv zeta in H.
  destruct (produce (ls_song st) (position (ls_song st)) sample_rate stereo)
    as [n|] eqn:P.
  - pose proof (Hs _ _ _ _ Hsr P) as Hn.
    assert (Hfirst : within_extent (ls_out st * elem)
              (ls_out st * elem + n * (channels_out stereo * elem))
              (CallRead elem stereo sample_rate (ls_out st) (Frames n))).
    { assert (0 <= n * elem) by (apply Z.mul_nonneg_nonneg; lia).
      destruct stereo; unfold within_extent, written, channels_out;
        cbv beta iota; lia. }
    destruct (negb (wrap32 n =? sample_rate)) eqn:Hbreak.
    + injection H as <-.
      exists [CallRead elem stereo sample_rate (ls_out st) (Frames n)].
      simpl. rewrite P. split; [reflexivity|]. split; [lia|].
      constructor; [|constructor]. rewrite Z.add_0_r. exact Hfirst.
    + apply negb_false_iff, Z.eqb_eq in Hbreak.
      rewrite wrap32_small in Hbreak by lia. subst n.
      apply IH in H; [|exact Hs].
      destruct H as (new & Hc & Hf & Hall).
      exists (new ++ [CallRead elem stereo sample_rate (ls_out st)
                        (Frames sample_rate)]).
      simpl in Hc, Hall. rewrite P in Hc. rewrite Hstep in Hall.
      split; [rewrite Hc, <- app_assoc; reflexivity|].
      rewrite frames_total_app. simpl frames_total.
      split; [lia|].
      apply Forall_app. split.
      * eapply Forall_impl; [|exact Hall].
        intros c. apply within_extent_widen; nia.
      * constructor; [|constructor].
        eapply within_extent_widen; [| |exact Hfirst]; nia.
  - injection H as <-.
    exists [CallRead elem stereo sample_rate (ls_out st) Raise].
    simpl. rewrite P. split; [reflexivity|]. split; [lia|].
    constructor; [exact I | constructor].
Qed.

(** The mute passes and the stereo separation leave the decoder's script,
    its position and the facts it reports alone. *)
Lemma two_passes_keeps_decoder gc gk c k nch nins s :
  let s' := two_passes gc gk c k nch nins s in
  produce s' = produce s
  /\ position s' = position s
  /\ get_render_param s' = get_render_param s
  /\ get_num_channels s' = get_num_channels s
  /\ get_num_instruments s' = get_num_instruments s
  /\ get_num_samples s' = get_num_samples s.
Proof.
  assert (Hc : forall l s0,
             let s' :=
               fold_left
                 (fun s i =>
                    if i =? c then set_channel_mute_status i false s
                    else set_channel_mute_status i true s) l s0 in
             produce s' = produce s0
             /\ position s' = position s0
             /\ get_render_param s' = get_render_param s0
             /\ get_num_channels s' = get_num_channels s0
             /\ get_num_instruments s' = get_num_instruments s0
             /\ get_num_samples s' = get_num_samples s0).
  { induction l as [|a l IH]; intro s0; simpl; [repeat split|].
    match goal with
    | |- context [fold_left _ l ?s1] =>
        destruct (IH s1) as (H1 & H2 & H3 & H4 & H5 & H6)
    end.
    cbv zeta in *. rewrite H1, H2, H3, H4, H5, H6.
    destruct (a =? c); repeat split. }
  assert (Hk : forall l s0,
             let s' :=
               fold_left
                 (fun s i =>
                    if i =? k then set_instrument_mute_status i false s
                    else set_instrument_mute_status i true s) l s0 in
             produce s' = produce s0
             /\ position s' = position s0
             /\ get_render_param s' = get_render_param s0
             /\ get_num_channels s' = get_num_channels s0
             /\ get_num_instruments s' = get_num_instruments s0
             /\ get_num_samples s' = get_num_samples s0).
  { induction l as [|a l IH]; intro s0; simpl; [repeat split|].
    match goal with
    | |- context [fold_left _ l ?s1] =>
        destruct (IH s1) as (H1 & H2 & H3 & H4 & H5 & H6)
    end.
    cbv zeta in *. rewrite H1, H2, H3, H4, H5, H6.
    destruct (a =? k); repeat split. }
  unfold two_passes. cbv zeta.
  destruct gc, gk.
  - destruct (Hk (int_range nins)
                (fold_left
                   (fun s i =>
                      if i =? c then set_channel_mute_status i false s
                      else set_channel_mute_status i true s)
                   (int_range nch) s)) as (H1 & H2 & H3 & H4 & H5 & H6).
    destruct (Hc (int_range nch) s) as (G1 & G2 & G3 & G4 & G5 & G6).
    cbv zeta in *. rewrite H1, H2, H3, H4, H5, H6. repeat split; assumption.
  - apply Hc.
  - apply Hk.
  - repeat split.
Qed.

Lemma honours_count_same_script s s' :
  produce s' = produce s -> honours_count s -> honours_count s'.
Proof. unfold honours_count. intros ->. auto. Qed.

Lemma interface_entry_honours c k nch nins s :
  honours_count s -> honours_count (Interface.mute_setup c k nch nins s).
Proof.
  rewrite interface_mute_setup.
  apply honours_count_same_script, two_passes_keeps_decoder.
Qed.

Lemma part000_entry_honours params nch nins s :
  honours_count s ->
  honours_count
    (Part000.mute_setup params nch nins
       (if Part000.stereo_separation_enabled params
        then set_render_param (Part000.stereo_separation params) s else s)).
Proof.
  intro H. rewrite part000_mute_setup.
  eapply honours_count_same_script; [apply two_passes_keeps_decoder|].
  destruct (Part000.stereo_separation_enabled params); exact H.
Qed.

(** What a render loop wrote, entered as [song_render_c] enters it. *)
Lemma completed_render_layout elem fuel output_len sample_rate stereo
    bytes_per_sample s0 e :
  0 <= elem ->
  0 <= sample_rate ->
  sample_rate * channels_out stereo < 2 ^ 32 ->
  honours_count s0 ->
  render_loop elem fuel output_len sample_rate stereo (entry_state s0)
  = Some e ->
  exists new,
    calls (ls_song (exit_state e)) = new ++ calls s0
    /\ Forall (fun c => is_read c = true) new
    /\ Forall (within_extent 0
                 (frames_total new * channels_out stereo * elem)) new
    /\ 0 <= frames_total new
    /\ (if stereo
        then wrap32 (wrap32 (ls_samples_generated (exit_state e) * 2)
                     * bytes_per_sample)
        else wrap32 (ls_samples_generated (exit_state e) * bytes_per_sample))
       = wrap32 (frames_total new * channels_out stereo * bytes_per_sample).
Proof.
  intros Helem Hsr Hadv Hs He.
  destruct (render_byte_count _ _ _ _ _ bytes_per_sample (entry_state s0) _
              eq_refl He)
    as (new & Hc & Hreads & _ & Hbytes).
  destruct (render_loop_layout _ _ _ _ _ Helem Hsr Hadv _ _ He Hs)
    as (new' & Hc' & Hpos & Hall).
  assert (new' = new) as ->.
  { rewrite Hc in Hc'. apply app_inv_tail in Hc'. congruence. }
  exists new. split; [exact Hc|]. split; [exact Hreads|].
  simpl in Hall.
  split; [|split; [exact Hpos | exact Hbytes]].
  eapply Forall_impl; [|exact Hall].
  intro c. apply within_extent_widen; lia.
Qed.

(** X1.  A call of [song_render_c] (either variant) that does not end in
    the catch block, on a decoder that renders at most the frames it is
    asked for, with [sample_rate * channels] below 2^32: the calls it adds
    to the decoder's log after the mute setup are all reads; every read
    stores its frames inside the bytes
    [0 .. frames * channels * element size), where [frames] is the total
    it rendered and the element size is 2 for [bytes_per_sample = 2] and
    4 otherwise; the value returned is [frames * channels *
    bytes_per_sample] modulo 2^32; so for [bytes_per_sample] 2 or 4 and a
    total below 2^32 bytes, every read wrote inside the first [returned]
    bytes of [output]. *)
Theorem completed_render_fills_returned_bytes :
  (forall fuel mpt output_len input sample_rate bytes_per_sample
          channel_to_play instrument_to_play stereo_output s o,
      module_ext mpt [] input = Some s ->
      honours_count s ->
      0 <= sample_rate ->
      sample_rate * channels_out stereo_output < 2 ^ 32 ->
      Interface.song_render_c fuel mpt output_len input sample_rate
        bytes_per_sample channel_to_play instrument_to_play stereo_output
      = Some o ->
      caught o = false ->
      exists new,
        final_calls o
        = new ++ calls (Interface.mute_setup channel_to_play
                          instrument_to_play (get_num_channels s)
                          (effective_instrument_count s) s)
        /\ Forall (fun c => is_read c = true) new
        /\ Forall (within_extent 0
                     (frames_total new * channels_out stereo_output
                      * (if bytes_per_sample =? 2 then 2 else 4))) new
        /\ returned o
           = wrap32 (frames_total new * channels_out stereo_output
                     * bytes_per_sample)
        /\ (bytes_per_sample = 2 \/ bytes_per_sample = 4 ->
            frames_total new * channels_out stereo_output * bytes_per_sample
            < 2 ^ 32 ->
            Forall (within_extent 0 (returned o)) new))
  /\
  (forall fuel mpt output_len input params s o,
      module_ext mpt (ctls_set "play.at_end" "stop" []) input = Some s ->
      honours_count s ->
      0 <= Part000.sample_rate params ->
      Part000.sample_rate params
      * channels_out (Part000.stereo_output params) < 2 ^ 32 ->
      Part000.song_render_c fuel mpt output_len input params = Some o ->
      caught o = false ->
      exists new,
        final_calls o
        = new ++ calls (Part000.mute_setup params (get_num_channels s)
                          (effective_instrument_count s)
                          (if Part000.stereo_separation_enabled params
                           then set_render_param
                                  (Part000.stereo_separation params) s
                           else s))
        /\ Forall (fun c => is_read c = true) new
        /\ Forall (within_extent 0
                     (frames_total new
                      * channels_out (Part000.stereo_output params)
                      * (if Part000.bytes_per_sample params =? 2
                         then 2 else 4))) new
        /\ returned o
           = wrap32 (frames_total new
                     * channels_out (Part000.stereo_output params)
                     * Part000.bytes_per_sample params)
        /\ (Part000.bytes_per_sample params = 2
            \/ Part000.bytes_per_sample params = 4 ->
            frames_total new * channels_out (Part000.stereo_output params)
            * Part000.bytes_per_sample params < 2 ^ 32 ->
            Forall (within_extent 0 (returned o)) new)).
Proof.
  assert (Hfin : forall (o : render_outcome) e elem (stereo : bool) bps new st,
             final_song o = Some (ls_song (exit_state e)) ->
             calls (ls_song (exit_state e)) = new ++ calls st ->
             Forall (fun c => is_read c = true) new ->
             Forall (within_extent 0
                       (frames_total new * channels_out stereo * elem)) new ->
             0 <= frames_total new ->
             elem = (if bps =? 2 then 2 else 4) ->
             returned o
             = wrap32 (frames_total new * channels_out stereo * bps) ->
             final_calls o = new ++ calls st
             /\ Forall (fun c => is_read c = true) new
             /\ Forall (within_extent 0
                          (frames_total new * channels_out stereo
                           * (if bps =? 2 then 2 else 4))) new
             /\ returned o
                = wrap32 (frames_total new * channels_out stereo * bps)
             /\ (bps = 2 \/ bps = 4 ->
                 frames_total new * channels_out stereo * bps < 2 ^ 32 ->
                 Forall (within_extent 0 (returned o)) new)).
  { intros o e elem stereo bps new st Hfinal Hc Hreads Hall Hpos -> Hret.
    split; [unfold final_calls; rewrite Hfinal; exact Hc|].
    split; [exact Hreads|]. split; [exact Hall|]. split; [exact Hret|].
    intros Hbps Hfit. rewrite Hret.
    assert (1 <= channels_out stereo) by (destruct stereo; simpl; lia).
    rewrite wrap32_small by (destruct Hbps; subst bps; nia).
    destruct Hbps; subst bps; exact Hall. }
  split.
  - intros fuel mpt output_len input sample_rate bps ch ins stereo s o
      Hload Hs Hsr Hadv Hrun Hcaught.
    pose proof (interface_loop_entry mpt input ch ins s Hload) as Hentry.
    destruct (interface_render_inv _ _ _ _ _ _ _ _ _ _ _ Hentry Hrun)
      as (e & He & Hfinal & Hc & Hret).
    rewrite Hc in Hcaught. rewrite Hcaught in Hret.
    assert (Helem : 0 <= (if bps =? 2 then 2 else 4))
      by (destruct (bps =? 2); lia).
    destruct (completed_render_layout _ _ _ _ _ bps _ _ Helem Hsr Hadv
                (interface_entry_honours _ _ _ _ _ Hs) He)
      as (new & Hcalls & Hreads & Hall & Hpos & Hb).
    exists new. eapply Hfin; eauto. rewrite Hret. exact Hb.
  - intros fuel mpt output_len input params s o
      Hload Hs Hsr Hadv Hrun Hcaught.
    pose proof (part000_loop_entry mpt input params s Hload) as Hentry.
    destruct (part000_render_inv _ _ _ _ _ _ _ Hentry Hrun)
      as (e & He & Hfinal & Hc & Hret).
    rewrite Hc in Hcaught. rewrite Hcaught in Hret.
    assert (Helem : 0 <= (if Part000.bytes_per_sample params =? 2
                          then 2 else 4))
      by (destruct (Part000.bytes_per_sample params =? 2); lia).
    destruct (completed_render_layout _ _ _ _ _
                (Part000.bytes_per_sample params) _ _ Helem Hsr Hadv
                (part000_entry_honours _ _ _ _ Hs) He)
      as (new & Hcalls & Hreads & Hall & Hpos & Hb).
    exists new. eapply Hfin; eauto. rewrite Hret. exact Hb.
Qed.

Lemma completed_render_fills_returned_bytes_witness :
  (Forall
     (within_extent 0
        (returned
           (get_or no_outcome
              (Interface.song_render_c 5
                 (loads (tape 4 0 8 every_interface 160800))
                 480000 [] 48000 2 2 (-1) false))))
     [CallRead 2 false 48000 144000 (Frames 16800);
      CallRead 2 false 48000 96000 (Frames 48000);
      CallRead 2 false 48000 48000 (Frames 48000);
      CallRead 2 false 48000 0 (Frames 48000)]
   /\ returned
        (get_or no_outcome
           (Interface.song_render_c 5
              (loads (tape 4 0 8 every_interface 160800))
              480000 [] 48000 2 2 (-1) false))
      = wrap32 (frames_total
                  [CallRead 2 false 48000 144000 (Frames 16800);
                   CallRead 2 false 48000 96000 (Frames 48000);
                   CallRead 2 false 48000 48000 (Frames 48000);
                   CallRead 2 false 48000 0 (Frames 48000)]
                * channels_out false * 2))
  /\
  (exists new,
      final_calls
        (get_or no_outcome
           (Part000.song_render_c 5
              (loads (tape 4 0 8 every_interface 160800))
              480000 [] mono_16bit_48k))
      = new ++ calls (Part000.mute_setup mono_16bit_48k
                        (get_num_channels (tape 4 0 8 every_interface 160800))
                        (effective_instrument_count
                           (tape 4 0 8 every_interface 160800))
                        (if Part000.stereo_separation_enabled mono_16bit_48k
                         then set_render_param
                                (Part000.stereo_separation mono_16bit_48k)
                                (tape 4 0 8 every_interface 160800)
                         else tape 4 0 8 every_interface 160800))
      /\ Forall (fun c => is_read c = true) new
      /\ returned
           (get_or no_outcome
              (Part000.song_render_c 5
                 (loads (tape 4 0 8 every_interface 160800))
                 480000 [] mono_16bit_48k))
         = wrap32 (frames_total new
                   * channels_out (Part000.stereo_output mono_16bit_48k)
                   * Part000.bytes_per_sample mono_16bit_48k)).
Proof.
  split.
  - destruct (proj1 completed_render_fills_returned_bytes 5%nat
                (loads (tape 4 0 8 every_interface 160800))
                480000 [] 48000 2 2 (-1) false
                (tape 4 0 8 every_interface 160800)
                (get_or no_outcome
                   (Interface.song_render_c 5
                      (loads (tape 4 0 8 every_interface 160800))
                      480000 [] 48000 2 2 (-1) false)))
      as (new & Hlog & _ & _ & Hret & Hfit).
    + reflexivity.
    + apply tape_honours_count.
    + lia.
    + vm_compute. reflexivity.
    + apply is_some_get_or. vm_compute. reflexivity.
    + vm_compute. reflexivity.
    + assert (Hnew : [CallRead 2 false 48000 144000 (Frames 16800);
                      CallRead 2 false 48000 96000 (Frames 48000);
                      CallRead 2 false 48000 48000 (Frames 48000);
                      CallRead 2 false 48000 0 (Frames 48000)]
                     ++ calls (Interface.mute_setup 2 (-1)
                                 (get_num_channels
                                    (tape 4 0 8 every_interface 160800))
                                 (effective_instrument_count
                                    (tape 4 0 8 every_interface 160800))
                                 (tape 4 0 8 every_interface 160800))
                     = new
                       ++ calls (Interface.mute_setup 2 (-1)
                                   (get_num_channels
                                      (tape 4 0 8 every_interface 160800))
                                   (effective_instrument_count
                                      (tape 4 0 8 every_interface 160800))
                                   (tape 4 0 8 every_interface 160800)))
        by (rewrite <- Hlog; vm_compute; reflexivity).
      apply app_inv_tail in Hnew. subst new.
      split; [|exact Hret].
      apply Hfit; [left; reflexivity | vm_compute; reflexivity].
  - destruct (proj2 completed_render_fills_returned_bytes 5%nat
                (loads (tape 4 0 8 every_interface 160800))
                480000 [] mono_16bit_48k
                (tape 4 0 8 every_interface 160800)
                (get_or no_outcome
                   (Part000.song_render_c 5
                      (loads (tape 4 0 8 every_interface 160800))
                      480000 [] mono_16bit_48k)))
      as (new & Hlog & Hreads & _ & Hret & _).
    + reflexivity.
    + apply tape_honours_count.
    + vm_compute. intro H. discriminate H.
    + vm_compute. reflexivity.
    + apply is_some_get_or. vm_compute. reflexivity.
    + vm_compute. reflexivity.
    + exists new. split; [exact Hlog|]. split; [exact Hreads | exact Hret].
Defined.

Lemma source_loop_elem loop elem output_len sample_rate stereo :
  source_loop loop elem output_len sample_rate stereo -> elem = 2 \/ elem = 4.
Proof. intros []; auto. Qed.

Lemma render_loop_tiles elem output_len sample_rate stereo fuel :
  0 <= elem ->
  0 <= sample_rate ->
  sample_rate * channels_out stereo < 2 ^ 32 ->
  forall st e,
    render_loop elem fuel output_len sample_rate stereo st = Some e ->
    honours_count (ls_song st) ->
    exists new,
      calls (ls_song (exit_state e)) = new ++ calls (ls_song st)
      /\ tiles (ls_out st * elem)
           (ls_out st * elem
            + frames_total new * (channels_out stereo * elem))
           (rev new)
      /\ Forall (fun c => frames_of c = sample_rate) (tl new).
Proof.
  intros Helem Hsr Hadv.
  assert (Hch : 1 <= channels_out stereo <= 2) by (destruct stereo; simpl; lia).
  assert (Hstep : (if stereo then wrap32 (sample_rate * 2) else sample_rate)
                  = sample_rate * channels_out stereo).
  { destruct stereo; simpl in *; [apply wrap32_small; lia | lia]. }
  assert (Hsr32 : sample_rate < 2 ^ 32)
    by (destruct stereo; unfold channels_out in Hadv; lia).
  induction fuel as [|fuel IH]; intros st e H Hs; [discriminate|].
  rewrite render_loop_turn in H.
  destruct (ls_i st <? output_len).
  2:{ injection H as <-. exists []. simpl. split; [reflexivity|].
      split; [lia | constructor]. }
  cbv zeta in H.
  destruct (produce (ls_song st) (position (ls_song st)) sample_rate stereo)
    as [n|] eqn:P.
  - pose proof (Hs _ _ _ _ Hsr P) as Hn.
    assert (Hw : written (CallRead elem stereo sample_rate (ls_out st)
                            (Frames n))
                 = Some (ls_out st * elem,
                         ls_out st * elem + n * (channels_out stereo * elem))).
    { unfold written, channels_out. destruct stereo; do 2 f_equal; ring. }
    assert (0 <= n * (channels_out stereo * elem)) by nia.
    destruct (negb (wrap32 n =? sample_rate)) eqn:Hbreak.
    + injection H as <-.
      exists [CallRead elem stereo sample_rate (ls_out st) (Frames n)].
      cbn [ls_song exit_state read_into snd calls]. rewrite P.
      split; [reflexivity|].
      split; [|constructor].
      cbn [rev app tiles]. rewrite Hw. cbn [frames_total fold_right frames_of].
      split; [reflexivity|]. split; [lia|]. rewrite Z.add_0_r. reflexivity.
    + apply negb_false_iff, Z.eqb_eq in Hbreak.
      rewrite wrap32_small in Hbreak by lia. subst n.
      apply IH in H; [|exact Hs].
      destruct H as (new & Hc & Ht & Hfull).
      exists (new ++ [CallRead elem stereo sample_rate (ls_out st)
                        (Frames sample_rate)]).
      cbn [ls_song ls_out read_into snd calls] in Hc, Ht.
      rewrite P in Hc. rewrite Hstep in Ht.
      split; [rewrite Hc, <- app_assoc; reflexivity|].
      split.
      * rewrite rev_app_distr. cbn [rev app tiles]. rewrite Hw.
        split; [reflexivity|]. split; [lia|].
        rewrite frames_total_app. cbn [frames_total fold_right frames_of].
        replace (ls_out st * elem
                 + sample_rate * (channels_out stereo * elem))
          with ((ls_out st + sample_rate * channels_out stereo) * elem)
          by ring.
        replace (ls_out st * elem
                 + (frames_total new + (sample_rate + 0))
                   * (channels_out stereo * elem))
          with ((ls_out st + sample_rate * channels_out stereo) * elem
                + frames_total new * (channels_out stereo * elem))
          by ring.
        exact Ht.
      * destruct new as [|c new]; [constructor|].
        cbn [app tl] in Hfull |- *.
        apply Forall_app. split; [exact Hfull|].
        constructor; [reflexivity | constructor].
  - injection H as <-.
    exists [CallRead elem stereo sample_rate (ls_out st) Raise].
    cbn [ls_song exit_state read_into snd calls]. rewrite P.
    split; [reflexivity|]. split; [|constructor].
    cbn [rev app tiles written frames_total fold_right frames_of].
    split; [reflexivity | lia].
Qed.

(** X10.  In each of the four render loops, entered with [out = output],
    on a decoder that renders at most the frames it is asked for and with
    [sample_rate * channels] below 2^32: the reads, in the order they were
    made, store their frames one directly after the other from byte 0 on,
    without gap or overlap, up to [frames * channels * element size]; a
    read that throws is the last one and stores nothing; and every read
    but the last rendered exactly [sample_rate] frames. *)
Theorem chunks_are_stored_back_to_back :
  forall loop elem output_len sample_rate stereo,
    source_loop loop elem output_len sample_rate stereo ->
    forall fuel s e,
      0 <= sample_rate ->
      sample_rate * channels_out stereo < 2 ^ 32 ->
      honours_count s ->
      loop fuel (entry_state s) = Some e ->
      exists new,
        calls (ls_song (exit_state e)) = new ++ calls s
        /\ tiles 0 (frames_total new * (channels_out stereo * elem))
             (rev new)
        /\ Forall (fun c => frames_of c = sample_rate) (tl new).
Proof.
  intros loop elem output_len sample_rate stereo Hloop fuel s e
    Hsr Hadv Hs He.
  rewrite (source_loop_shape _ _ _ _ _ Hloop) in He.
  assert (Helem : 0 <= elem)
    by (destruct (source_loop_elem _ _ _ _ _ Hloop); lia).
  destruct (render_loop_tiles elem output_len sample_rate stereo fuel
              Helem Hsr Hadv (entry_state s) e He Hs)
    as (new & Hc & Ht & Hfull).
  exists new. split; [exact Hc|]. split; [exact Ht | exact Hfull].
Qed.

Lemma chunks_are_stored_back_to_back_witness :
  exists new,
    calls (ls_song
             (exit_state
                (get_or (Completed (entry_state
                                      (tape 4 0 8 every_interface 160800)))
                   (Interface.render_loop_16bit 5 480000 48000 false
                      (entry_state (tape 4 0 8 every_interface 160800))))))
    = new ++ calls (tape 4 0 8 every_interface 160800)
    /\ tiles 0 (frames_total new * (channels_out false * 2)) (rev new)
    /\ Forall (fun c => frames_of c = 48000) (tl new).
Proof.
  apply (chunks_are_stored_back_to_back _ _ _ _ _
           (interface_16bit 480000 48000 false) 5%nat
           (tape 4 0 8 every_interface 160800)).
  - lia.
  - vm_compute. reflexivity.
  - apply tape_honours_count.
  - apply is_some_get_or. vm_compute. reflexivity.
Defined.

(** *** A module that outlasts the buffer *)

Lemma ceil_div_tight a b :
  1 <= b -> 0 <= a -> ceil_div a b * b < a + b.
Proof.
  intros Hb Ha. unfold ceil_div.
  pose proof (Z.div_mod (a + b - 1) b ltac:(lia)) as Hdm.
  pose proof (Z.mod_pos_bound (a + b - 1) b ltac:(lia)) as Hm.
  nia.
Qed.

Lemma render_loop_full_chunks elem output_len sample_rate stereo :
  1 <= sample_rate ->
  forall (k : nat) st,
    0 <= ls_i st ->
    (k = 0%nat \/ ls_i st + (Z.of_nat k - 1) * sample_rate < output_len) ->
    output_len <= ls_i st + Z.of_nat k * sample_rate ->
    ls_i st + Z.of_nat k * sample_rate < 2 ^ 32 ->
    0 <= ls_samples_generated st ->
    ls_samples_generated st + Z.of_nat k * sample_rate < 2 ^ 32 ->
    (forall p, produce (ls_song st) p sample_rate stereo = Frames sample_rate) ->
    exists st' new,
      render_loop elem (S k) output_len sample_rate stereo st
      = Some (Completed st')
      /\ calls (ls_song st') = new ++ calls (ls_song st)
      /\ List.length new = k
      /\ ls_samples_generated st'
         = ls_samples_generated st + Z.of_nat k * sample_rate
      /\ (k <> 0%nat ->
          hd_error new
          = Some (CallRead elem stereo sample_rate
                    (ls_out st
                     + (Z.of_nat k - 1)
                       * (if stereo then wrap32 (sample_rate * 2)
                          else sample_rate))
                    (Frames sample_rate))).
Proof.
  intros Hsr. induction k as [|k IH];
    intros st Hi Hlast Hend Hwrap Hsg0 Hsg P; rewrite render_loop_turn.
  - assert (Hge : (ls_i st <? output_len) = false) by (apply Z.ltb_ge; lia).
    rewrite Hge. exists st, []. simpl.
    split; [reflexivity|]. split; [reflexivity|]. split; [reflexivity|].
    split; [lia|]. intro H. now elim H.
  - rewrite Nat2Z.inj_succ in *.
    assert (Hk : 0 <= Z.of_nat k) by lia.
    assert (Hlt : ls_i st + Z.of_nat k * sample_rate < output_len).
    { destruct Hlast as [H|H]; [discriminate|].
      replace (Z.succ (Z.of_nat k) - 1) with (Z.of_nat k) in H by lia.
      exact H. }
    assert (Hi' : (ls_i st <? output_len) = true) by (apply Z.ltb_lt; nia).
    rewrite Hi'. cbv zeta. rewrite P.
    assert (Hw : wrap32 sample_rate = sample_rate)
      by (apply wrap32_small; nia).
    rewrite Hw, Z.eqb_refl. cbv [negb].
    assert (Hnext : wrap32 (ls_i st + sample_rate) = ls_i st + sample_rate)
      by (apply wrap32_small; nia).
    assert (Hsg1 : wrap32 (ls_samples_generated st + sample_rate)
                   = ls_samples_generated st + sample_rate)
      by (apply wrap32_small; nia).
    match goal with
    | |- context [render_loop _ _ _ _ _ ?st1] =>
        destruct (IH st1) as (st' & new & Hrun & Hc & Hl & Hs & Hhd)
    end.
    { simpl. rewrite Hnext. lia. }
    { simpl. rewrite Hnext.
      destruct k as [|k']; [left; reflexivity|right].
      rewrite Nat2Z.inj_succ in *. lia. }
    { simpl. rewrite Hnext. lia. }
    { simpl. rewrite Hnext. lia. }
    { simpl. rewrite Hsg1. lia. }
    { simpl. rewrite Hsg1. lia. }
    { simpl. exact P. }
    exists st',
      (new ++ [CallRead elem stereo sample_rate (ls_out st)
                 (Frames sample_rate)]).
    split; [exact Hrun|].
    cbn [ls_song ls_samples_generated ls_out read_into snd calls] in Hc, Hs, Hhd.
    rewrite P in Hc.
    split; [rewrite Hc, <- app_assoc; reflexivity|].
    split; [rewrite length_app, Hl; simpl; lia|].
    split; [rewrite Hs, Hsg1; lia|].
    intros _. destruct (Nat.eq_dec k 0) as [->|Hk0].
    + destruct new; [|discriminate]. cbn [app hd_error].
      do 2 f_equal. lia.
    + specialize (Hhd Hk0).
      destruct new as [|c new]; [discriminate|].
      cbn [app hd_error] in Hhd |- *. rewrite Hhd. do 2 f_equal.
      replace (Z.succ (Z.of_nat k) - 1) with (Z.of_nat k - 1 + 1) by lia.
      ring.
Qed.

(** X2.  In each of the four render loops, with [sample_rate >= 1] and a
    loop index that does not wrap, on a decoder that renders every chunk
    in full: the loop completes after exactly
    [ceil (output_len / sample_rate)] reads, with [samples_generated]
    that many times [sample_rate]; and when [output_len >= 1] (and
    [sample_rate * channels] is below 2^32) the last read stores its
    chunk up to byte [reads * sample_rate * channels * element size],
    which lies beyond [output_len]: the guard [i < output_len] counts
    frames against a capacity in bytes. *)
Theorem long_module_is_read_past_the_buffer :
  forall loop elem output_len sample_rate stereo,
    source_loop loop elem output_len sample_rate stereo ->
    forall s,
      1 <= sample_rate ->
      0 <= output_len ->
      ceil_div output_len sample_rate * sample_rate < 2 ^ 32 ->
      (forall p, produce s p sample_rate stereo = Frames sample_rate) ->
      exists st' new,
        loop (S (Z.to_nat (ceil_div output_len sample_rate))) (entry_state s)
        = Some (Completed st')
        /\ calls (ls_song st') = new ++ calls s
        /\ Z.of_nat (List.length new) = ceil_div output_len sample_rate
        /\ ls_samples_generated st'
           = ceil_div output_len sample_rate * sample_rate
        /\ (1 <= output_len ->
            sample_rate * channels_out stereo < 2 ^ 32 ->
            exists c,
              hd_error new = Some c
              /\ written c
                 = Some ((ceil_div output_len sample_rate - 1) * sample_rate
                         * channels_out stereo * elem,
                         ceil_div output_len sample_rate * sample_rate
                         * channels_out stereo * elem)
              /\ output_len
                 < ceil_div output_len sample_rate * sample_rate
                   * channels_out stereo * elem
              /\ within_capacity output_len c = false).
Proof.
  intros loop elem output_len sample_rate stereo Hloop s Hsr Hol Hwrap P.
  pose proof (source_loop_shape _ _ _ _ _ Hloop) as Hshape.
  pose proof (source_loop_elem _ _ _ _ _ Hloop) as Helem.
  destruct (ceil_div_covers output_len sample_rate Hsr Hol) as [Hk0 Hcover].
  pose proof (ceil_div_tight output_len sample_rate Hsr Hol) as Htight.
  set (K := ceil_div output_len sample_rate) in *.
  destruct (render_loop_full_chunks elem output_len sample_rate stereo Hsr
              (Z.to_nat K) (entry_state s))
    as (st' & new & Hrun & Hc & Hl & Hsg & Hhd);
    try (cbn [ls_i ls_samples_generated ls_song entry_state];
         rewrite ?Z2Nat.id by exact Hk0; lia).
  { exact P. }
  exists st', new. rewrite Hshape.
  split; [exact Hrun|]. split; [exact Hc|].
  split; [rewrite Hl; apply Z2Nat.id; exact Hk0|].
  split; [rewrite Hsg, Z2Nat.id by exact Hk0;
          cbn [ls_samples_generated entry_state]; lia|].
  intros Hol1 Hadv.
  assert (HK1 : 1 <= K) by nia.
  assert (Hch : 1 <= channels_out stereo <= 2)
    by (destruct stereo; simpl; lia).
  assert (Hstep : (if stereo then wrap32 (sample_rate * 2) else sample_rate)
                  = sample_rate * channels_out stereo).
  { destruct stereo; simpl in *; [apply wrap32_small; lia | lia]. }
  rewrite Hstep, Z2Nat.id in Hhd by exact Hk0.
  specialize (Hhd ltac:(lia)). cbn [ls_out entry_state] in Hhd.
  eexists. split; [exact Hhd|].
  assert (Hover : output_len < K * sample_rate * channels_out stereo * elem).
  { assert (1 <= K * sample_rate) by nia.
    assert (2 <= channels_out stereo * elem) by (destruct Helem; subst; nia).
    nia. }
  split; [|split; [exact Hover|]].
  - unfold written. f_equal. f_equal; unfold channels_out; destruct stereo; ring.
  - unfold within_capacity, written.
    apply orb_false_iff. split; apply Z.leb_gt;
      unfold channels_out in *; destruct stereo; nia.
Qed.

Lemma long_module_is_read_past_the_buffer_witness :
  exists st' new c,
    Interface.render_loop_16bit (S (Z.to_nat (ceil_div 96000 48000)))
      96000 48000 false (entry_state (endless 4 0 8))
    = Some (Completed st')
    /\ Z.of_nat (List.length new) = ceil_div 96000 48000
    /\ hd_error new = Some c
    /\ within_capacity 96000 c = false.
Proof.
  destruct (long_module_is_read_past_the_buffer _ _ _ _ _
              (interface_16bit 96000 48000 false) (endless 4 0 8))
    as (st' & new & Hrun & _ & Hlen & _ & Hlast).
  - lia.
  - lia.
  - vm_compute. reflexivity.
  - intro p. reflexivity.
  - destruct Hlast as (c & Hhd & _ & _ & Hout).
    + lia.
    + vm_compute. reflexivity.
    + exists st', new, c.
      split; [exact Hrun|]. split; [exact Hlen|].
      split; [exact Hhd | exact Hout].
Defined.

(** *** The first read *)

(** A loop entered below [output_len] starts with a read at its
    destination. *)
Lemma render_loop_first_read elem output_len sample_rate stereo fuel st e :
  ls_i st < output_len ->
  render_loop elem fuel output_len sample_rate stereo st = Some e ->
  exists more,
    calls (ls_song (exit_state e))
    = more
      ++ [CallRead elem stereo sample_rate (ls_out st)
            (produce (ls_song st) (position (ls_song st)) sample_rate stereo)]
      ++ calls (ls_song st).
Proof.
  intros Hi H. destruct fuel as [|fuel]; [discriminate|].
  rewrite render_loop_turn in H.
  apply Z.ltb_lt in Hi. rewrite Hi in H. cbv zeta in H.
  destruct (produce (ls_song st) (position (ls_song st)) sample_rate stereo)
    as [n|] eqn:P.
  - destruct (negb (wrap32 n =? sample_rate)).
    + injection H as <-. exists []. simpl. rewrite P. reflexivity.
    + apply render_loop_trace in H. destruct H as (new & Hc & _).
      exists new. rewrite Hc. simpl. rewrite P. reflexivity.
  - injection H as <-. exists []. simpl. rewrite P. reflexivity.
Qed.

(** X3.  [song_render_c] (either variant) on an input the decoder loads:
    with [output_len = 0] it makes no read and returns 0 outside the catch
    block, leaving the decoder as the mute setup left it; with
    [output_len > 0] the first call after the mute setup is a read of
    [sample_rate] frames into [output] itself, whatever the other
    arguments are. *)
Theorem render_reads_iff_buffer_not_empty :
  (forall mpt input s,
      module_ext mpt [] input = Some s ->
      forall sample_rate bytes_per_sample channel_to_play instrument_to_play
             stereo_output,
        (forall fuel,
            Interface.song_render_c (S fuel) mpt 0 input sample_rate
              bytes_per_sample channel_to_play instrument_to_play
              stereo_output
            = Some {| returned := 0; caught := false;
                      final_song :=
                        Some (Interface.mute_setup channel_to_play
                                instrument_to_play (get_num_channels s)
                                (effective_instrument_count s) s) |})
        /\
        (forall fuel output_len o,
            0 < output_len ->
            Interface.song_render_c fuel mpt output_len input sample_rate
              bytes_per_sample channel_to_play instrument_to_play
              stereo_output = Some o ->
            exists more,
              final_calls o
              = more
                ++ [CallRead (if bytes_per_sample =? 2 then 2 else 4)
                      stereo_output sample_rate 0
                      (produce s (position s) sample_rate stereo_output)]
                ++ calls (Interface.mute_setup channel_to_play
                            instrument_to_play (get_num_channels s)
                            (effective_instrument_count s) s)))
  /\
  (forall mpt input s,
      module_ext mpt (ctls_set "play.at_end" "stop" []) input = Some s ->
      forall params,
        (forall fuel,
            Part000.song_render_c (S fuel) mpt 0 input params
            = Some {| returned := 0; caught := false;
                      final_song :=
                        Some (Part000.mute_setup params (get_num_channels s)
                                (effective_instrument_count s)
                                (if Part000.stereo_separation_enabled params
                                 then set_render_param
                                        (Part000.stereo_separation params) s
                                 else s)) |})
        /\
        (forall fuel output_len o,
            0 < output_len ->
            Part000.song_render_c fuel mpt output_len input params = Some o ->
            exists more,
              final_calls o
              = more
                ++ [CallRead
                      (if Part000.bytes_per_sample params =? 2 then 2 else 4)
                      (Part000.stereo_output params)
                      (Part000.sample_rate params) 0
                      (produce s (position s) (Part000.sample_rate params)
                         (Part000.stereo_output params))]
                ++ calls (Part000.mute_setup params (get_num_channels s)
                            (effective_instrument_count s)
                            (if Part000.stereo_separation_enabled params
                             then set_render_param
                                    (Part000.stereo_separation params) s
                             else s)))).
Proof.
  split.
  - intros mpt input s Hload sr bps ch ins stereo. split.
    + intro fuel. unfold Interface.song_render_c.
      rewrite (interface_loop_entry _ _ ch ins _ Hload).
      destruct (bps =? 2), stereo; reflexivity.
    + intros fuel output_len o Hol Hrun.
      pose proof (interface_loop_entry mpt input ch ins s Hload) as Hentry.
      destruct (interface_render_inv _ _ _ _ _ _ _ _ _ _ _ Hentry Hrun)
        as (e & He & Hfinal & _).
      apply render_loop_first_read in He; [|exact Hol].
      destruct He as (more & Hc).
      exists more. unfold final_calls. rewrite Hfinal, Hc.
      cbn [ls_song ls_out entry_state]. rewrite interface_mute_setup.
      destruct (two_passes_keeps_decoder
                  ((ch >=? 0) && get_interface s interactive_id)
                  ((ins >=? 0) && get_interface s interactive_id)
                  ch ins (get_num_channels s) (effective_instrument_count s) s)
        as (Hp & Hpos & _).
      cbv zeta in Hp, Hpos. rewrite Hp, Hpos. reflexivity.
  - intros mpt input s Hload params. split.
    + intro fuel. unfold Part000.song_render_c.
      rewrite (part000_loop_entry _ _ params _ Hload). cbv zeta.
      destruct (Part000.bytes_per_sample params =? 2),
        (Part000.stereo_output params); reflexivity.
    + intros fuel output_len o Hol Hrun.
      pose proof (part000_loop_entry mpt input params s Hload) as Hentry.
      destruct (part000_render_inv _ _ _ _ _ _ _ Hentry Hrun)
        as (e & He & Hfinal & _).
      apply render_loop_first_read in He; [|exact Hol].
      destruct He as (more & Hc).
      exists more. unfold final_calls. rewrite Hfinal, Hc.
      cbn [ls_song ls_out entry_state]. rewrite part000_mute_setup.
      match goal with
      | |- context [two_passes ?gc ?gk ?c ?k ?nch ?nins ?s0] =>
          destruct (two_passes_keeps_decoder gc gk c k nch nins s0)
            as (Hp & Hpos & _)
      end.
      cbv zeta in Hp, Hpos. rewrite Hp, Hpos.
      destruct (Part000.stereo_separation_enabled params); reflexivity.
Qed.

Lemma render_reads_iff_buffer_not_empty_witness :
  Interface.song_render_c 1 (loads (tape 4 0 8 every_interface 160800))
    0 [] 48000 2 2 (-1) false
  = Some {| returned := 0; caught := false;
            final_song :=
              Some (Interface.mute_setup 2 (-1)
                      (get_num_channels (tape 4 0 8 every_interface 160800))
                      (effective_instrument_count
                         (tape 4 0 8 every_interface 160800))
                      (tape 4 0 8 every_interface 160800)) |}
  /\
  (exists more,
      final_calls
        (get_or no_outcome
           (Interface.song_render_c 5
              (loads (tape 4 0 8 every_interface 160800))
              480000 [] 48000 2 2 (-1) false))
      = more
        ++ [CallRead (if 2 =? 2 then 2 else 4) false 48000 0
              (produce (tape 4 0 8 every_interface 160800)
                 (position (tape 4 0 8 every_interface 160800))
                 48000 false)]
        ++ calls (Interface.mute_setup 2 (-1)
                    (get_num_channels (tape 4 0 8 every_interface 160800))
                    (effective_instrument_count
                       (tape 4 0 8 every_interface 160800))
                    (tape 4 0 8 every_interface 160800)))
  /\
  (exists more,
      final_calls
        (get_or no_outcome
           (Part000.song_render_c 5
              (loads (tape 4 0 8 every_interface 160800))
              480000 [] mono_16bit_48k))
      = more
        ++ [CallRead
              (if Part000.bytes_per_sample mono_16bit_48k =? 2
               then 2 else 4)
              (Part000.stereo_output mono_16bit_48k)
              (Part000.sample_rate mono_16bit_48k) 0
              (produce (tape 4 0 8 every_interface 160800)
                 (position (tape 4 0 8 every_interface 160800))
                 (Part000.sample_rate mono_16bit_48k)
                 (Part000.stereo_output mono_16bit_48k))]
        ++ calls (Part000.mute_setup mono_16bit_48k
                    (get_num_channels (tape 4 0 8 every_interface 160800))
                    (effective_instrument_count
                       (tape 4 0 8 every_interface 160800))
                    (if Part000.stereo_separation_enabled mono_16bit_48k
                     then set_render_param
                            (Part000.stereo_separation mono_16bit_48k)
                            (tape 4 0 8 every_interface 160800)
                     else tape 4 0 8 every_interface 160800))).
Proof.
  split; [|split].
  - exact (proj1 (proj1 render_reads_iff_buffer_not_empty
                    (loads (tape 4 0 8 every_interface 160800)) []
                    (tape 4 0 8 every_interface 160800) eq_refl
                    48000 2 2 (-1) false) 0%nat).
  - apply (proj2 (proj1 render_reads_iff_buffer_not_empty
                    (loads (tape 4 0 8 every_interface 160800)) []
                    (tape 4 0 8 every_interface 160800) eq_refl
                    48000 2 2 (-1) false) 5%nat 480000).
    + lia.
    + apply is_some_get_or. vm_compute. reflexivity.
  - apply (proj2 (proj2 render_reads_iff_buffer_not_empty
                    (loads (tape 4 0 8 every_interface 160800)) []
                    (tape 4 0 8 every_interface 160800) eq_refl
                    mono_16bit_48k) 5%nat 480000).
    + lia.
    + apply is_some_get_or. vm_compute. reflexivity.
Defined.

(** *** The decoder at loop entry *)

Lemma two_passes_override gc gk c k nch nins s :
  (gc = true ->
   (forall i,
       get_channel_mute_status (two_passes gc gk c k nch nins s) i
       = if (0 <=? i) && (i <? nch) then negb (i =? c)
         else get_channel_mute_status s i)
   /\ (nch <= c ->
       forall i,
         0 <= i < nch ->
         get_channel_mute_status (two_passes gc gk c k nch nins s) i = true))
  /\
  (gk = true ->
   (forall j,
       get_instrument_mute_status (two_passes gc gk c k nch nins s) j
       = if (0 <=? j) && (j <? nins) then negb (j =? k)
         else get_instrument_mute_status s j)
   /\ (nins <= k ->
       forall j,
         0 <= j < nins ->
         get_instrument_mute_status (two_passes gc gk c k nch nins s) j
         = true)).
Proof.
  destruct (two_passes_spec gc gk c k nch nins s) as (_ & Hm & Hi).
  cbv zeta in Hm, Hi. split.
  - intros ->. split.
    + intro i. rewrite Hm. reflexivity.
    + intros Hout i Hr. rewrite Hm.
      replace ((0 <=? i) && (i <? nch)) with true by (symmetry; lia).
      apply negb_true_iff, Z.eqb_neq. lia.
  - intros ->. split.
    + intro j. rewrite Hi. reflexivity.
    + intros Hout j Hr. rewrite Hi.
      replace ((0 <=? j) && (j <? nins)) with true by (symmetry; lia).
      apply negb_true_iff, Z.eqb_neq. lia.
Qed.

(** X4.  When the decoder offers [interactive], the mute pass for an
    index [>= 0] sets every flag in the range of the count, muted exactly
    when its position differs from the index, whatever the flags were when
    the module was loaded, and leaves the flags outside the range as they
    were; an index at or beyond the count therefore mutes every channel
    (instrument) of the module.  In part_000 the instrument pass needs
    [interactive2] as well. *)
Theorem isolation_overrides_loaded_flags :
  forall mpt input s,
    get_interface s interactive_id = true ->
    (module_ext mpt [] input = Some s ->
     forall c k,
     exists st0,
       Interface.loop_entry mpt input c k = Some st0
       /\ (0 <= c ->
           (forall i,
               get_channel_mute_status (ls_song st0) i
               = if (0 <=? i) && (i <? get_num_channels s)
                 then negb (i =? c)
                 else get_channel_mute_status s i)
           /\ (get_num_channels s <= c ->
               forall i,
                 0 <= i < get_num_channels s ->
                 get_channel_mute_status (ls_song st0) i = true))
       /\ (0 <= k ->
           (forall j,
               get_instrument_mute_status (ls_song st0) j
               = if (0 <=? j) && (j <? effective_instrument_count s)
                 then negb (j =? k)
                 else get_instrument_mute_status s j)
           /\ (effective_instrument_count s <= k ->
               forall j,
                 0 <= j < effective_instrument_count s ->
                 get_instrument_mute_status (ls_song st0) j = true)))
    /\
    (module_ext mpt (ctls_set "play.at_end" "stop" []) input = Some s ->
     forall params,
     exists st0,
       Part000.loop_entry mpt input params = Some st0
       /\ (0 <= Part000.channel_to_play params ->
           (forall i,
               get_channel_mute_status (ls_song st0) i
               = if (0 <=? i) && (i <? get_num_channels s)
                 then negb (i =? Part000.channel_to_play params)
                 else get_channel_mute_status s i)
           /\ (get_num_channels s <= Part000.channel_to_play params ->
               forall i,
                 0 <= i < get_num_channels s ->
                 get_channel_mute_status (ls_song st0) i = true))
       /\ (0 <= Part000.instrument_to_play params ->
           get_interface s interactive2_id = true ->
           (forall j,
               get_instrument_mute_status (ls_song st0) j
               = if (0 <=? j) && (j <? effective_instrument_count s)
                 then negb (j =? Part000.instrument_to_play params)
                 else get_instrument_mute_status s j)
           /\ (effective_instrument_count s
               <= Part000.instrument_to_play params ->
               forall j,
                 0 <= j < effective_instrument_count s ->
                 get_instrument_mute_status (ls_song st0) j = true))).
Proof.
  intros mpt input s Hint. split.
  - intros Hload c k. eexists.
    split; [apply interface_loop_entry; exact Hload|].
    cbn [ls_song entry_state]. rewrite interface_mute_setup, Hint.
    match goal with
    | |- context [two_passes ?gc ?gk _ _ ?nch ?nins _] =>
        destruct (two_passes_override gc gk c k nch nins s) as (Hc & Hk)
    end.
    split.
    + intro H. apply Hc. replace (c >=? 0) with true by (symmetry; lia).
      reflexivity.
    + intro H. apply Hk. replace (k >=? 0) with true by (symmetry; lia).
      reflexivity.
  - intros Hload params. eexists.
    split; [apply part000_loop_entry; exact Hload|].
    cbn [ls_song entry_state]. rewrite part000_mute_setup.
    destruct (Part000.stereo_separation_enabled params);
      cbn [get_interface set_render_param]; rewrite Hint;
      match goal with
      | |- context [two_passes ?gc ?gk ?c ?k ?nch ?nins ?s0] =>
          destruct (two_passes_override gc gk c k nch nins s0) as (Hc & Hk)
      end;
      (split;
       [intro H; apply Hc;
        replace (Part000.channel_to_play params >=? 0) with true
          by (symmetry; lia);
        reflexivity
       |intros H Hint2; apply Hk; rewrite Hint2;
        replace (Part000.instrument_to_play params >=? 0) with true
          by (symmetry; lia);
        reflexivity]).
Qed.

Lemma isolation_overrides_loaded_flags_witness :
  (exists st0,
      Interface.loop_entry (loads (tape 4 0 8 every_interface 160800)) []
        2 9 = Some st0
      /\ (forall i,
             get_channel_mute_status (ls_song st0) i
             = if (0 <=? i)
                  && (i <? get_num_channels
                             (tape 4 0 8 every_interface 160800))
               then negb (i =? 2)
               else get_channel_mute_status
                      (tape 4 0 8 every_interface 160800) i)
      /\ get_instrument_mute_status (ls_song st0) 5 = true)
  /\
  (exists st0,
      Part000.loop_entry (loads (tape 4 0 8 every_interface 160800)) []
        (isolating 7 5) = Some st0
      /\ get_channel_mute_status (ls_song st0) 1 = true
      /\ (forall j,
             get_instrument_mute_status (ls_song st0) j
             = if (0 <=? j)
                  && (j <? effective_instrument_count
                             (tape 4 0 8 every_interface 160800))
               then negb (j =? Part000.instrument_to_play (isolating 7 5))
               else get_instrument_mute_status
                      (tape 4 0 8 every_interface 160800) j)).
Proof.
  split.
  - destruct (proj1 (isolation_overrides_loaded_flags
                       (loads (tape 4 0 8 every_interface 160800)) []
                       (tape 4 0 8 every_interface 160800) eq_refl)
                eq_refl 2 9)
      as (st0 & Hentry & Hch & Hins).
    exists st0. split; [exact Hentry|]. split.
    + apply Hch. lia.
    + apply Hins.
      * lia.
      * vm_compute. intro H. discriminate H.
      * vm_compute. split; [intro H; discriminate H | reflexivity].
  - destruct (proj2 (isolation_overrides_loaded_flags
                       (loads (tape 4 0 8 every_interface 160800)) []
                       (tape 4 0 8 every_interface 160800) eq_refl)
                eq_refl (isolating 7 5))
      as (st0 & Hentry & Hch & Hins).
    exists st0. split; [exact Hentry|]. split.
    + apply Hch.
      * vm_compute. intro H. discriminate H.
      * vm_compute. intro H. discriminate H.
      * vm_compute. split; [intro H; discriminate H | reflexivity].
    + apply Hins.
      * vm_compute. intro H. discriminate H.
      * reflexivity.
Defined.

Lemma pass_calls_are_not_reads c k n m gc gk :
  Forall (fun x => is_read x = false)
    ((if gk : bool then instrument_pass_calls k m else [])
     ++ (if gc : bool then channel_pass_calls c n else [])).
Proof.
  apply Forall_app. split.
  - destruct gk; [|constructor].
    unfold instrument_pass_calls. apply Forall_rev, Forall_map, Forall_forall.
    reflexivity.
  - destruct gc; [|constructor].
    unfold channel_pass_calls. apply Forall_rev, Forall_map, Forall_forall.
    reflexivity.
Qed.

Lemma interface_setup_from c k nch nins s0 :
  exists added,
    calls (Interface.mute_setup c k nch nins s0) = added ++ calls s0
    /\ Forall (fun x => is_read x = false) added
    /\ position (Interface.mute_setup c k nch nins s0) = position s0
    /\ produce (Interface.mute_setup c k nch nins s0) = produce s0
    /\ get_render_param (Interface.mute_setup c k nch nins s0)
       = get_render_param s0.
Proof.
  destruct (proj1 (mute_setup_calls s0 nch nins) c k) as (Hc & _).
  pose proof (interface_mute_setup c k nch nins s0) as Hshape.
  match type of Hshape with
  | _ = two_passes ?gc ?gk _ _ _ _ _ =>
      destruct (two_passes_keeps_decoder gc gk c k nch nins s0)
        as (Hp & Hpos & Hrp & _)
  end.
  cbv zeta in Hp, Hpos, Hrp. rewrite <- Hshape in Hp, Hpos, Hrp.
  eexists. split; [rewrite Hc, app_assoc; reflexivity|].
  split; [apply pass_calls_are_not_reads|].
  split; [exact Hpos|]. split; [exact Hp | exact Hrp].
Qed.

Lemma part000_setup_from params nch nins s0 :
  exists added,
    calls (Part000.mute_setup params nch nins s0) = added ++ calls s0
    /\ Forall (fun x => is_read x = false) added
    /\ position (Part000.mute_setup params nch nins s0) = position s0
    /\ produce (Part000.mute_setup params nch nins s0) = produce s0
    /\ get_render_param (Part000.mute_setup params nch nins s0)
       = get_render_param s0.
Proof.
  destruct (proj2 (mute_setup_calls s0 nch nins) params) as (Hc & _).
  pose proof (part000_mute_setup params nch nins s0) as Hshape.
  match type of Hshape with
  | _ = two_passes ?gc ?gk ?c ?k _ _ _ =>
      destruct (two_passes_keeps_decoder gc gk c k nch nins s0)
        as (Hp & Hpos & Hrp & _)
  end.
  cbv zeta in Hp, Hpos, Hrp. rewrite <- Hshape in Hp, Hpos, Hrp.
  eexists. split; [rewrite Hc, app_assoc; reflexivity|].
  split; [apply pass_calls_are_not_reads|].
  split; [exact Hpos|]. split; [exact Hp | exact Hrp].
Qed.

(** X5.  Up to the entry of the render loop [song_render_c] makes no
    read: the decoder's position and script are those of the loaded
    module, and none of the calls added to its log is a read.
    interface.cpp leaves the stereo separation as loaded; part_000 sets it
    to [params.stereo_separation] exactly when
    [params.stereo_separation_enabled]. *)
Theorem setup_consumes_no_audio :
  forall mpt input s,
    (module_ext mpt [] input = Some s ->
     forall c k,
     exists st0 added,
       Interface.loop_entry mpt input c k = Some st0
       /\ position (ls_song st0) = position s
       /\ produce (ls_song st0) = produce s
       /\ get_render_param (ls_song st0) = get_render_param s
       /\ calls (ls_song st0) = added ++ calls s
       /\ Forall (fun x => is_read x = false) added)
    /\
    (module_ext mpt (ctls_set "play.at_end" "stop" []) input = Some s ->
     forall params,
     exists st0 added,
       Part000.loop_entry mpt input params = Some st0
       /\ position (ls_song st0) = position s
       /\ produce (ls_song st0) = produce s
       /\ get_render_param (ls_song st0)
          = (if Part000.stereo_separation_enabled params
             then Some (Part000.stereo_separation params)
             else get_render_param s)
       /\ calls (ls_song st0) = added ++ calls s
       /\ Forall (fun x => is_read x = false) added).
Proof.
  intros mpt input s. split.
  - intros Hload c k.
    destruct (interface_setup_from c k (get_num_channels s)
                (effective_instrument_count s) s)
      as (added & Hc & Hnr & Hpos & Hp & Hrp).
    eexists. exists added.
    split; [apply interface_loop_entry; exact Hload|].
    cbn [ls_song entry_state]. auto.
  - intros Hload params.
    rewrite (part000_loop_entry _ _ params _ Hload).
    destruct (Part000.stereo_separation_enabled params).
    + destruct (part000_setup_from params (get_num_channels s)
                  (effective_instrument_count s)
                  (set_render_param (Part000.stereo_separation params) s))
        as (added & Hc & Hnr & Hpos & Hp & Hrp).
      eexists.
      exists (added ++ [CallSetRenderParam (Part000.stereo_separation params)]).
      split; [reflexivity|]. cbn [ls_song entry_state].
      split; [exact Hpos|]. split; [exact Hp|]. split; [exact Hrp|].
      split; [rewrite Hc, <- app_assoc; reflexivity|].
      apply Forall_app. split; [exact Hnr|].
      constructor; [reflexivity | constructor].
    + destruct (part000_setup_from params (get_num_channels s)
                  (effective_instrument_count s) s)
        as (added & Hc & Hnr & Hpos & Hp & Hrp).
      eexists. exists added.
      split; [reflexivity|]. cbn [ls_song entry_state]. auto.
Qed.

Lemma setup_consumes_no_audio_witness :
  (exists st0 added,
      Interface.loop_entry (loads (tape 4 0 8 every_interface 160800)) []
        2 (-1) = Some st0
      /\ position (ls_song st0)
         = position (tape 4 0 8 every_interface 160800)
      /\ produce (ls_song st0)
         = produce (tape 4 0 8 every_interface 160800)
      /\ get_render_param (ls_song st0)
         = get_render_param (tape 4 0 8 every_interface 160800)
      /\ calls (ls_song st0)
         = added ++ calls (tape 4 0 8 every_interface 160800)
      /\ Forall (fun x => is_read x = false) added)
  /\
  (exists st0 added,
      Part000.loop_entry (loads (tape 4 0 8 every_interface 160800)) []
        (isolating 2 5) = Some st0
      /\ position (ls_song st0)
         = position (tape 4 0 8 every_interface 160800)
      /\ produce (ls_song st0)
         = produce (tape 4 0 8 every_interface 160800)
      /\ get_render_param (ls_song st0)
         = (if Part000.stereo_separation_enabled (isolating 2 5)
            then Some (Part000.stereo_separation (isolating 2 5))
            else get_render_param (tape 4 0 8 every_interface 160800))
      /\ calls (ls_song st0)
         = added ++ calls (tape 4 0 8 every_interface 160800)
      /\ Forall (fun x => is_read x = false) added).
Proof.
  split.
  - exact (proj1 (setup_consumes_no_audio
                    (loads (tape 4 0 8 every_interface 160800)) []
                    (tape 4 0 8 every_interface 160800)) eq_refl 2 (-1)).
  - exact (proj2 (setup_consumes_no_audio
                    (loads (tape 4 0 8 every_interface 160800)) []
                    (tape 4 0 8 every_interface 160800)) eq_refl
             (isolating 2 5)).
Defined.

(** *** Decode failures (C6) *)

(** A loop that meets a throwing read after [k] full chunks, below
    [output_len], is left through the exception, for any fuel above
    [k]. *)
Lemma render_loop_throws elem output_len sample_rate stereo :
  0 <= sample_rate < 2 ^ 32 ->
  output_len <= 2 ^ 32 ->
  forall (k fuel : nat) st,
    (k < fuel)%nat ->
    0 <= ls_i st ->
    ls_i st + Z.of_nat k * sample_rate < output_len ->
    throws_after k sample_rate stereo (ls_song st) ->
    exists st' new,
      render_loop elem fuel output_len sample_rate stereo st
      = Some (Threw st')
      /\ calls (ls_song st') = new ++ calls (ls_song st)
      /\ frames_total new = Z.of_nat k * sample_rate
      /\ existsb is_raise new = true.
Proof.
  intros Hsr Hol. induction k as [|k IH];
    intros fuel st Hfuel Hi Hbelow [Hfull Hthrow].
  - destruct fuel as [|fuel]; [lia|]. rewrite render_loop_turn.
    assert (Hlt : (ls_i st <? output_len) = true) by (apply Z.ltb_lt; lia).
    rewrite Hlt. cbv zeta. rewrite Nat.add_0_r in Hthrow. rewrite Hthrow.
    eexists. exists [CallRead elem stereo sample_rate (ls_out st) Raise].
    split; [reflexivity|].
    cbn [ls_song read_into snd calls]. rewrite Hthrow.
    split; [reflexivity|]. split; reflexivity.
  - destruct fuel as [|fuel]; [lia|]. rewrite render_loop_turn.
    rewrite Nat2Z.inj_succ, Z.mul_succ_l in Hbelow.
    assert (Hk : 0 <= Z.of_nat k * sample_rate) by nia.
    assert (Hlt : (ls_i st <? output_len) = true) by (apply Z.ltb_lt; lia).
    rewrite Hlt. cbv zeta.
    pose proof (Hfull 0%nat ltac:(lia)) as Hfirst.
    rewrite Nat.add_0_r in Hfirst. rewrite Hfirst.
    rewrite (wrap32_small sample_rate) by exact Hsr.
    rewrite Z.eqb_refl. cbv [negb].
    assert (Hnext : wrap32 (ls_i st + sample_rate) = ls_i st + sample_rate)
      by (apply wrap32_small; lia).
    match goal with
    | |- context [render_loop _ _ _ _ _ ?st1] =>
        destruct (IH fuel st1) as (st' & new & Hrun & Hc & Hf & Hr)
    end.
    { lia. }
    { cbn [ls_i]. rewrite Hnext. lia. }
    { cbn [ls_i]. rewrite Hnext. lia. }
    { unfold throws_after. cbn [ls_song read_into snd produce position].
      split.
      - intros j Hj. rewrite <- (Hfull (S j)) by lia. f_equal. lia.
      - rewrite <- Hthrow. f_equal. lia. }
    exists st',
      (new ++ [CallRead elem stereo sample_rate (ls_out st)
                 (Frames sample_rate)]).
    split; [exact Hrun|].
    cbn [ls_song read_into snd calls] in Hc. rewrite Hfirst in Hc.
    split; [rewrite Hc, <- app_assoc; reflexivity|].
    split.
    + rewrite frames_total_app, Hf.
      cbn [frames_total fold_right frames_of]. lia.
    + rewrite existsb_app, Hr. reflexivity.
Qed.

Lemma throws_after_same_script k count stereo s s' :
  produce s' = produce s ->
  position s' = position s ->
  throws_after k count stereo s ->
  throws_after k count stereo s'.
Proof. unfold throws_after. intros -> ->. auto. Qed.

(** C6.  When the constructor of the module throws on the input, both
    [get_song_info_c] return the zero record (part_000's without writing
    or printing anything) and both [song_render_c] return 0, for every
    fuel: the call comes back through the [catch].  And when a read of a
    render throws, after [k] chunks that the decoder rendered in full and
    before the loop index reaches [output_len], the call returns, with 0,
    through the [catch], for every fuel above [k]: the [k * sample_rate]
    frames rendered before are not counted.  [new] is what the render loop
    added to the decoder's log. *)
Theorem decode_failure_gives_zero :
  forall mpt buffer,
    (module mpt (ctls_set "load.skip_plugins" "1" []) buffer = None ->
     Interface.get_song_info_c mpt buffer = zero_info
     /\ forall output_with_stem sample_format,
         Part000.get_song_info_c mpt buffer output_with_stem sample_format
         = Some (zero_info, []))
    /\
    (module_ext mpt [] buffer = None ->
     forall fuel output_len sample_rate bytes_per_sample channel_to_play
            instrument_to_play stereo_output,
       Interface.song_render_c fuel mpt output_len buffer sample_rate
         bytes_per_sample channel_to_play instrument_to_play stereo_output
       = Some {| returned := 0; caught := true; final_song := None |})
    /\
    (module_ext mpt (ctls_set "play.at_end" "stop" []) buffer = None ->
     forall fuel output_len params,
       Part000.song_render_c fuel mpt output_len buffer params
       = Some {| returned := 0; caught := true; final_song := None |})
    /\
    (forall s k output_len sample_rate bytes_per_sample channel_to_play
            instrument_to_play stereo_output,
        module_ext mpt [] buffer = Some s ->
        0 <= sample_rate < 2 ^ 32 ->
        output_len <= 2 ^ 32 ->
        Z.of_nat k * sample_rate < output_len ->
        throws_after k sample_rate stereo_output s ->
        forall fuel,
          (k < fuel)%nat ->
          exists o new,
            Interface.song_render_c fuel mpt output_len buffer sample_rate
              bytes_per_sample channel_to_play instrument_to_play
              stereo_output
            = Some o
            /\ returned o = 0
            /\ caught o = true
            /\ final_calls o
               = new ++ calls (Interface.mute_setup channel_to_play
                                 instrument_to_play (get_num_channels s)
                                 (effective_instrument_count s) s)
            /\ frames_total new = Z.of_nat k * sample_rate
            /\ existsb is_raise new = true)
    /\
    (forall s k output_len params,
        module_ext mpt (ctls_set "play.at_end" "stop" []) buffer = Some s ->
        0 <= Part000.sample_rate params < 2 ^ 32 ->
        output_len <= 2 ^ 32 ->
        Z.of_nat k * Part000.sample_rate params < output_len ->
        throws_after k (Part000.sample_rate params)
          (Part000.stereo_output params) s ->
        forall fuel,
          (k < fuel)%nat ->
          exists o new,
            Part000.song_render_c fuel mpt output_len buffer params = Some o
            /\ returned o = 0
            /\ caught o = true
            /\ final_calls o
               = new ++ calls (Part000.mute_setup params (get_num_channels s)
                                 (effective_instrument_count s)
                                 (if Part000.stereo_separation_enabled params
                                  then set_render_param
                                         (Part000.stereo_separation params) s
                                  else s))
            /\ frames_total new
               = Z.of_nat k * Part000.sample_rate params
            /\ existsb is_raise new = true).
Proof.
  intros mpt buffer.
  split; [|split; [|split; [|split]]].
  - intro H. split.
    + unfold Interface.get_song_info_c. rewrite H. reflexivity.
    + intros stem fmt. unfold Part000.get_song_info_c. rewrite H. reflexivity.
  - intros H **. unfold Interface.song_render_c, Interface.loop_entry.
    rewrite H. reflexivity.
  - intros H **. unfold Part000.song_render_c, Part000.loop_entry.
    rewrite H. reflexivity.
  - intros s k output_len sample_rate bps ch ins stereo
      Hload Hsr Hol Hbelow Hthrows fuel Hfuel.
    destruct (interface_setup_from ch ins (get_num_channels s)
                (effective_instrument_count s) s)
      as (added & _ & _ & Hpos & Hprod & _).
    destruct (render_loop_throws (if bps =? 2 then 2 else 4) output_len
                sample_rate stereo Hsr Hol k fuel
                (entry_state
                   (Interface.mute_setup ch ins (get_num_channels s)
                      (effective_instrument_count s) s)))
      as (st' & new & Hrun & Hc & Hf & Hr).
    { exact Hfuel. }
    { cbn [ls_i entry_state]. lia. }
    { cbn [ls_i entry_state]. lia. }
    { cbn [ls_song entry_state].
      apply (throws_after_same_script _ _ _ s); assumption. }
    unfold Interface.song_render_c.
    rewrite (interface_loop_entry _ _ _ _ _ Hload).
    rewrite interface_loop_16bit, interface_loop_float.
    exists {| returned := 0; caught := true;
              final_song := Some (ls_song st') |}, new.
    split; [destruct (bps =? 2); rewrite Hrun; reflexivity|].
    split; [reflexivity|]. split; [reflexivity|].
    split; [exact Hc|]. split; [exact Hf | exact Hr].
  - intros s k output_len params Hload Hsr Hol Hbelow Hthrows fuel Hfuel.
    set (s0 := if Part000.stereo_separation_enabled params
               then set_render_param (Part000.stereo_separation params) s
               else s).
    assert (Hs0 : produce s0 = produce s /\ position s0 = position s)
      by (unfold s0; destruct (Part000.stereo_separation_enabled params);
          split; reflexivity).
    destruct (part000_setup_from params (get_num_channels s)
                (effective_instrument_count s) s0)
      as (added & _ & _ & Hpos & Hprod & _).
    destruct (render_loop_throws
                (if Part000.bytes_per_sample params =? 2 then 2 else 4)
                output_len (Part000.sample_rate params)
                (Part000.stereo_output params) Hsr Hol k fuel
                (entry_state
                   (Part000.mute_setup params (get_num_channels s)
                      (effective_instrument_count s) s0)))
      as (st' & new & Hrun & Hc & Hf & Hr).
    { exact Hfuel. }
    { cbn [ls_i entry_state]. lia. }
    { cbn [ls_i entry_state]. lia. }
    { cbn [ls_song entry_state].
      apply (throws_after_same_script _ _ _ s);
        [rewrite Hprod; apply Hs0 | rewrite Hpos; apply Hs0 | exact Hthrows]. }
    unfold Part000.song_render_c.
    rewrite (part000_loop_entry _ _ _ _ Hload). fold s0. cbv zeta.
    rewrite part000_loop_16bit, part000_loop_float.
    exists {| returned := 0; caught := true;
              final_song := Some (ls_song st') |}, new.
    split; [destruct (Part000.bytes_per_sample params =? 2);
            rewrite Hrun; reflexivity|].
    split; [reflexivity|]. split; [reflexivity|].
    split; [exact Hc|]. split; [exact Hf | exact Hr].
Qed.

Lemma decode_failure_gives_zero_witness :
  (Interface.get_song_info_c rejects [] = zero_info
   /\ forall output_with_stem sample_format,
       Part000.get_song_info_c rejects [] output_with_stem sample_format
       = Some (zero_info, []))
  /\
  (exists o new,
      Interface.song_render_c 5
        (loads (failing_at 2 (tape 4 0 8 every_interface 160800)))
        480000 [] 48000 2 (-1) (-1) false
      = Some o
      /\ returned o = 0
      /\ caught o = true
      /\ final_calls o
         = new
           ++ calls (Interface.mute_setup (-1) (-1)
                       (get_num_channels
                          (failing_at 2 (tape 4 0 8 every_interface 160800)))
                       (effective_instrument_count
                          (failing_at 2 (tape 4 0 8 every_interface 160800)))
                       (failing_at 2 (tape 4 0 8 every_interface 160800)))
      /\ frames_total new = Z.of_nat 2 * 48000
      /\ existsb is_raise new = true)
  /\
  (exists o new,
      Part000.song_render_c 5
        (loads (failing_at 2 (tape 4 0 8 every_interface 160800)))
        480000 [] mono_16bit_48k
      = Some o
      /\ returned o = 0
      /\ caught o = true
      /\ final_calls o
         = new
           ++ calls (Part000.mute_setup mono_16bit_48k
                       (get_num_channels
                          (failing_at 2 (tape 4 0 8 every_interface 160800)))
                       (effective_instrument_count
                          (failing_at 2 (tape 4 0 8 every_interface 160800)))
                       (if Part000.stereo_separation_enabled mono_16bit_48k
                        then set_render_param
                               (Part000.stereo_separation mono_16bit_48k)
                               (failing_at 2
                                  (tape 4 0 8 every_interface 160800))
                        else failing_at 2
                               (tape 4 0 8 every_interface 160800)))
      /\ frames_total new
         = Z.of_nat 2 * Part000.sample_rate mono_16bit_48k
      /\ existsb is_raise new = true).
Proof.
  assert (Hscript : throws_after 2 48000 false
                      (failing_at 2 (tape 4 0 8 every_interface 160800))).
  { split.
    - intros j Hj. destruct j as [|[|j]]; [reflexivity | reflexivity | lia].
    - reflexivity. }
  split; [|split].
  - apply (proj1 (decode_failure_gives_zero rejects [])). reflexivity.
  - apply (proj1 (proj2 (proj2 (proj2 (decode_failure_gives_zero
             (loads (failing_at 2 (tape 4 0 8 every_interface 160800)))
             []))))
             (failing_at 2 (tape 4 0 8 every_interface 160800))
             2%nat 480000 48000 2 (-1) (-1) false eq_refl).
    + lia.
    + lia.
    + vm_compute. reflexivity.
    + exact Hscript.
    + lia.
  - apply (proj2 (proj2 (proj2 (proj2 (decode_failure_gives_zero
             (loads (failing_at 2 (tape 4 0 8 every_interface 160800)))
             []))))
             (failing_at 2 (tape 4 0 8 every_interface 160800))
             2%nat 480000 mono_16bit_48k eq_refl).
    + vm_compute. split; [intro H; discriminate H | reflexivity].
    + lia.
    + vm_compute. reflexivity.
    + exact Hscript.
    + lia.
Defined.

(** *** part_000 against interface.cpp *)

(** X7.  [song_render_c] of part_000 is [song_render_c] of interface.cpp
    on the fields of [params], provided the ctl [play.at_end = stop] does
    not change what the decoder loads, the stereo separation is not
    enabled, and either no instrument is asked for or the decoder offers
    [interactive2]: the two functions differ in nothing else. *)
Theorem part000_render_is_interface_render :
  forall fuel mpt output_len input params,
    module_ext mpt (ctls_set "play.at_end" "stop" []) input
    = module_ext mpt [] input ->
    Part000.stereo_separation_enabled params = false ->
    (Part000.instrument_to_play params < 0
     \/ forall s, module_ext mpt [] input = Some s ->
                  get_interface s interactive2_id = true) ->
    Part000.song_render_c fuel mpt output_len input params
    = Interface.song_render_c fuel mpt output_len input
        (Part000.sample_rate params) (Part000.bytes_per_sample params)
        (Part000.channel_to_play params) (Part000.instrument_to_play params)
        (Part000.stereo_output params).
Proof.
  intros fuel mpt output_len input params Hctl Hsep Hgate.
  unfold Part000.song_render_c, Interface.song_render_c,
    Part000.loop_entry, Interface.loop_entry.
  rewrite Hctl, Hsep.
  destruct (module_ext mpt [] input) as [s|] eqn:Hload; [|reflexivity].
  cbv zeta.
  rewrite part000_loop_16bit, part000_loop_float.
  rewrite part000_mute_setup, interface_mute_setup.
  assert (Hg : (Part000.instrument_to_play params >=? 0)
               && get_interface s interactive_id
               && get_interface s interactive2_id
               = (Part000.instrument_to_play params >=? 0)
                 && get_interface s interactive_id).
  { destruct Hgate as [Hneg | Hint2].
    - replace (Part000.instrument_to_play params >=? 0) with false
        by (symmetry; lia).
      reflexivity.
    - rewrite (Hint2 s eq_refl). apply andb_true_r. }
  rewrite Hg. reflexivity.
Qed.

Lemma part000_render_is_interface_render_witness :
  Part000.song_render_c 5 (loads (tape 4 0 8 every_interface 160800))
    480000 [] (isolating 2 (-1))
  = Interface.song_render_c 5 (loads (tape 4 0 8 every_interface 160800))
      480000 []
      (Part000.sample_rate (isolating 2 (-1)))
      (Part000.bytes_per_sample (isolating 2 (-1)))
      (Part000.channel_to_play (isolating 2 (-1)))
      (Part000.instrument_to_play (isolating 2 (-1)))
      (Part000.stereo_output (isolating 2 (-1))).
Proof.
  apply part000_render_is_interface_render.
  - reflexivity.
  - reflexivity.
  - left. reflexivity.
Defined.

(** ** Further properties of the info entry points *)

(** *** The advertised counts *)

Lemma interface_info_fields mpt buffer song :
  module mpt (ctls_set "load.skip_plugins" "1" []) buffer = Some song ->
  Interface.get_song_info_c mpt buffer
  = {| num_channels := get_num_channels song;
       num_instruments := effective_instrument_count song;
       length_seconds := double_to_float (get_duration_seconds song) |}.
Proof.
  intro H. unfold Interface.get_song_info_c, effective_instrument_count.
  rewrite H. cbn [num_channels num_instruments length_seconds].
  destruct (get_num_instruments song =? 0); reflexivity.
Qed.

Lemma part000_info_is_interface_info mpt buffer song :
  module mpt (ctls_set "load.skip_plugins" "1" []) buffer = Some song ->
  (forall sample_format,
      Part000.get_song_info_c mpt buffer None sample_format
      = Some (Interface.get_song_info_c mpt buffer, []))
  /\
  (forall stem sample_format,
      names_fit stem sample_format (GetNumSamples (get_snd_file song)) = true ->
      exists evs,
        Part000.get_song_info_c mpt buffer (Some stem) sample_format
        = Some (Interface.get_song_info_c mpt buffer, evs)).
Proof.
  intro Hload. unfold Part000.get_song_info_c, Interface.get_song_info_c.
  rewrite Hload. split.
  - intro sample_format. reflexivity.
  - intros stem sample_format Hfit. cbv zeta.
    destruct (export_samples_fit (get_snd_file song) stem sample_format
                _ Hfit) as (evs & He & _).
    exists evs. rewrite He. reflexivity.
Qed.

Lemma isolation_from_two_passes gc gk c k nch nins s :
  (gc = true -> 0 <= c < nch ->
   only_unmuted (get_channel_mute_status (two_passes gc gk c k nch nins s))
     nch c)
  /\ (gk = true -> 0 <= k < nins ->
      only_unmuted
        (get_instrument_mute_status (two_passes gc gk c k nch nins s))
        nins k).
Proof.
  destruct (two_passes_override gc gk c k nch nins s) as (Hc & Hk).
  split.
  - intros Hg Hr i Hi. rewrite (proj1 (Hc Hg)).
    replace ((0 <=? i) && (i <? nch)) with true by (symmetry; lia).
    rewrite negb_true_iff, Z.eqb_neq. reflexivity.
  - intros Hg Hr j Hj. rewrite (proj1 (Hk Hg)).
    replace ((0 <=? j) && (j <? nins)) with true by (symmetry; lia).
    rewrite negb_true_iff, Z.eqb_neq. reflexivity.
Qed.

(** X6.  The record of [get_song_info_c] of part_000, called without a
    stem or with a stem whose sample names fit [name], is the record of
    [get_song_info_c] of interface.cpp.  When the module the render loads
    reports the counts of the module the info call loaded and offers
    [interactive], every channel index below the advertised
    [num_channels] and every instrument index below the advertised
    [num_instruments] (which is the sample count for a module without
    instruments) can be isolated: [song_render_c] enters its loop with
    exactly that one unmuted among the advertised ones.  In part_000 the
    instrument case needs [interactive2] as well. *)
Theorem advertised_indices_can_be_isolated :
  forall mpt input s1 s2,
    module mpt (ctls_set "load.skip_plugins" "1" []) input = Some s1 ->
    get_num_channels s2 = get_num_channels s1 ->
    get_num_instruments s2 = get_num_instruments s1 ->
    get_num_samples s2 = get_num_samples s1 ->
    get_interface s2 interactive_id = true ->
    ((forall sample_format,
         Part000.get_song_info_c mpt input None sample_format
         = Some (Interface.get_song_info_c mpt input, []))
     /\
     (forall stem sample_format,
         names_fit stem sample_format (GetNumSamples (get_snd_file s1))
         = true ->
         exists evs,
           Part000.get_song_info_c mpt input (Some stem) sample_format
           = Some (Interface.get_song_info_c mpt input, evs)))
    /\
    (module_ext mpt [] input = Some s2 ->
     (forall c,
         0 <= c < num_channels (Interface.get_song_info_c mpt input) ->
         exists st0,
           Interface.loop_entry mpt input c (-1) = Some st0
           /\ only_unmuted (get_channel_mute_status (ls_song st0))
                (num_channels (Interface.get_song_info_c mpt input)) c)
     /\
     (forall k,
         0 <= k < num_instruments (Interface.get_song_info_c mpt input) ->
         exists st0,
           Interface.loop_entry mpt input (-1) k = Some st0
           /\ only_unmuted (get_instrument_mute_status (ls_song st0))
                (num_instruments (Interface.get_song_info_c mpt input)) k))
    /\
    (module_ext mpt (ctls_set "play.at_end" "stop" []) input = Some s2 ->
     (forall params,
         0 <= Part000.channel_to_play params
           < num_channels (Interface.get_song_info_c mpt input) ->
         exists st0,
           Part000.loop_entry mpt input params = Some st0
           /\ only_unmuted (get_channel_mute_status (ls_song st0))
                (num_channels (Interface.get_song_info_c mpt input))
                (Part000.channel_to_play params))
     /\
     (forall params,
         0 <= Part000.instrument_to_play params
           < num_instruments (Interface.get_song_info_c mpt input) ->
         get_interface s2 interactive2_id = true ->
         exists st0,
           Part000.loop_entry mpt input params = Some st0
           /\ only_unmuted (get_instrument_mute_status (ls_song st0))
                (num_instruments (Interface.get_song_info_c mpt input))
                (Part000.instrument_to_play params))).
Proof.
  intros mpt input s1 s2 Hinfo Hch Hins Hsmp Hint.
  split; [apply (part000_info_is_interface_info _ _ _ Hinfo)|].
  rewrite (interface_info_fields _ _ _ Hinfo).
  cbn [num_channels num_instruments].
  assert (Heff : effective_instrument_count s2 = effective_instrument_count s1)
    by (unfold effective_instrument_count; rewrite Hins, Hsmp; reflexivity).
  rewrite <- Hch, <- Heff.
  split.
  - intro Hload. split.
    + intros c Hc. eexists.
      split; [apply interface_loop_entry; exact Hload|].
      cbn [ls_song entry_state]. rewrite interface_mute_setup, Hint.
      apply isolation_from_two_passes; [|exact Hc].
      replace (c >=? 0) with true by (symmetry; lia). reflexivity.
    + intros k Hk. eexists.
      split; [apply interface_loop_entry; exact Hload|].
      cbn [ls_song entry_state]. rewrite interface_mute_setup, Hint.
      apply isolation_from_two_passes; [|exact Hk].
      replace (k >=? 0) with true by (symmetry; lia). reflexivity.
  - intro Hload. split.
    + intros params Hc. eexists.
      split; [apply part000_loop_entry; exact Hload|].
      cbn [ls_song entry_state]. rewrite part000_mute_setup.
      apply isolation_from_two_passes; [|exact Hc].
      replace (Part000.channel_to_play params >=? 0) with true
        by (symmetry; lia).
      destruct (Part000.stereo_separation_enabled params);
        cbn [get_interface set_render_param]; rewrite Hint; reflexivity.
    + intros params Hk Hint2. eexists.
      split; [apply part000_loop_entry; exact Hload|].
      cbn [ls_song entry_state]. rewrite part000_mute_setup.
      apply isolation_from_two_passes; [|exact Hk].
      replace (Part000.instrument_to_play params >=? 0) with true
        by (symmetry; lia).
      destruct (Part000.stereo_separation_enabled params);
        cbn [get_interface set_render_param]; rewrite Hint, Hint2;
        reflexivity.
Qed.

Lemma advertised_indices_can_be_isolated_witness :
  (exists evs,
      Part000.get_song_info_c (loads (tape 4 0 8 every_interface 160800))
        [] (Some "track") Part000.SampleFormat_Flac
      = Some (Interface.get_song_info_c
                (loads (tape 4 0 8 every_interface 160800)) [], evs))
  /\
  (exists st0,
      Interface.loop_entry (loads (tape 4 0 8 every_interface 160800)) []
        3 (-1) = Some st0
      /\ only_unmuted (get_channel_mute_status (ls_song st0))
           (num_channels
              (Interface.get_song_info_c
                 (loads (tape 4 0 8 every_interface 160800)) [])) 3)
  /\
  (exists st0,
      Part000.loop_entry (loads (tape 4 0 8 every_interface 160800)) []
        (isolating (-1) 7) = Some st0
      /\ only_unmuted (get_instrument_mute_status (ls_song st0))
           (num_instruments
              (Interface.get_song_info_c
                 (loads (tape 4 0 8 every_interface 160800)) []))
           (Part000.instrument_to_play (isolating (-1) 7))).
Proof.
  destruct (advertised_indices_can_be_isolated
              (loads (tape 4 0 8 every_interface 160800)) []
              (tape 4 0 8 every_interface 160800)
              (tape 4 0 8 every_interface 160800)
              eq_refl eq_refl eq_refl eq_refl eq_refl)
    as (Hinfo & Hinterface & Hpart).
  split; [apply (proj2 Hinfo); vm_compute; reflexivity|]. split.
  - apply (proj1 (Hinterface eq_refl)).
    vm_compute. split; [intro H; discriminate H | reflexivity].
  - apply (proj2 (Hpart eq_refl)).
    + vm_compute. split; [intro H; discriminate H | reflexivity].
    + reflexivity.
Defined.

(** X9.  [get_song_info] of part_001 against
    [get_song_info_c] of interface.cpp, when the module reports the same
    counts and duration under both sets of ctls: the channel counts and
    the lengths agree, and the instrument counts agree exactly when the
    decoder reports an instrument or no sample; when they differ,
    part_001 reports 0 and interface.cpp the sample count. *)
Theorem part001_info_differs_only_in_fallback :
  forall mpt buffer dump_patterns s1 s3,
    module mpt (ctls_set "load.skip_plugins" "1" []) buffer = Some s1 ->
    module mpt
      (ctls_set "load.skip_plugins" "1" (ctls_set "load.skip_samples" "1" []))
      buffer = Some s3 ->
    get_num_channels s3 = get_num_channels s1 ->
    get_num_instruments s3 = get_num_instruments s1 ->
    get_duration_seconds s3 = get_duration_seconds s1 ->
    num_channels (Part001.get_song_info mpt buffer dump_patterns)
    = num_channels (Interface.get_song_info_c mpt buffer)
    /\ length_seconds (Part001.get_song_info mpt buffer dump_patterns)
       = length_seconds (Interface.get_song_info_c mpt buffer)
    /\ (num_instruments (Part001.get_song_info mpt buffer dump_patterns)
        = num_instruments (Interface.get_song_info_c mpt buffer)
        <-> get_num_instruments s1 <> 0 \/ get_num_samples s1 = 0)
    /\ (num_instruments (Part001.get_song_info mpt buffer dump_patterns)
        <> num_instruments (Interface.get_song_info_c mpt buffer) ->
        num_instruments (Part001.get_song_info mpt buffer dump_patterns) = 0
        /\ num_instruments (Interface.get_song_info_c mpt buffer)
           = get_num_samples s1).
Proof.
  intros mpt buffer dump_patterns s1 s3 H1 H3 Hch Hins Hdur.
  rewrite (interface_info_fields _ _ _ H1).
  unfold Part001.get_song_info. rewrite H3.
  cbn [num_channels num_instruments length_seconds].
  rewrite Hch, Hins, Hdur. unfold effective_instrument_count.
  split; [reflexivity|]. split; [reflexivity|].
  destruct (get_num_instruments s1 =? 0) eqn:E.
  - apply Z.eqb_eq in E. rewrite E. split.
    + split; [intro H; right; symmetry; exact H|].
      intros [H|H]; [now elim H | symmetry; exact H].
    + intros _. split; reflexivity.
  - apply Z.eqb_neq in E. split.
    + split; [intros _; left; exact E | reflexivity].
    + intro H. now elim H.
Qed.

Lemma part001_info_differs_only_in_fallback_witness :
  num_instruments
    (Part001.get_song_info (loads (tape 4 0 16 every_interface 0)) [] 0) = 0
  /\ num_instruments
       (Interface.get_song_info_c (loads (tape 4 0 16 every_interface 0)) [])
     = get_num_samples (tape 4 0 16 every_interface 0).
Proof.
  apply (part001_info_differs_only_in_fallback
           (loads (tape 4 0 16 every_interface 0)) [] 0
           (tape 4 0 16 every_interface 0) (tape 4 0 16 every_interface 0)
           eq_refl eq_refl eq_refl eq_refl eq_refl).
  vm_compute. intro H. discriminate H.
Defined.

(** *** The names of the exported samples *)

Lemma string_length_append (a b : string) :
  String.length (a ++ b)%string = (String.length a + String.length b)%nat.
Proof. induction a as [|c a IH]; simpl; [reflexivity | now rewrite IH]. Qed.

Lemma string_append_cancel_l (p a b : string) :
  (p ++ a = p ++ b)%string -> a = b.
Proof.
  induction p as [|c p IH]; simpl; [auto|].
  intro H. injection H as H. auto.
Qed.

Lemma string_append_cancel_r (a b c : string) :
  (a ++ c = b ++ c)%string -> a = b.
Proof.
  revert b. induction a as [|x a IH]; intros [|y b] H; simpl in H.
  - reflexivity.
  - exfalso. apply (f_equal String.length) in H. simpl in H.
    rewrite string_length_append in H. lia.
  - exfalso. apply (f_equal String.length) in H. simpl in H.
    rewrite string_length_append in H. lia.
  - injection H as -> H. f_equal. apply IH. exact H.
Qed.

Lemma read_decimal_zeros n (s : string) :
  read_decimal (zeros n ++ s) = read_decimal s.
Proof.
  unfold read_decimal. induction n as [|n IH]; simpl; [reflexivity|].
  destruct (NilEmpty.uint_of_string (zeros n ++ s)) as [d|];
    destruct (NilEmpty.uint_of_string s) as [d'|]; simpl in *;
    try discriminate; try reflexivity.
  exact IH.
Qed.

Lemma decimal_of_N n :
  NilZero.string_of_uint (N.to_uint n) = NilEmpty.string_of_uint (N.to_uint n).
Proof.
  unfold NilZero.string_of_uint. destruct (N.to_uint n) eqn:E; try reflexivity.
  destruct n as [|p]; [discriminate|].
  simpl in E. now apply DecimalPos.Unsigned.to_uint_nonnil in E.
Qed.

Lemma read_decimal_of_N n :
  read_decimal (NilZero.string_of_uint (N.to_uint n)) = Some n.
Proof.
  rewrite decimal_of_N. unfold read_decimal.
  rewrite NilEmpty.usu. simpl. f_equal. apply DecimalN.Unsigned.of_to.
Qed.

Lemma format_04d_read i :
  0 <= i -> read_decimal (format_04d i) = Some (Z.to_N i).
Proof.
  intro Hi. unfold format_04d.
  replace (i <? 0) with false by (symmetry; lia).
  unfold pad0. rewrite read_decimal_zeros. apply read_decimal_of_N.
Qed.

Lemma format_04d_inj i j :
  0 <= i -> 0 <= j -> format_04d i = format_04d j -> i = j.
Proof.
  intros Hi Hj H. apply (f_equal read_decimal) in H.
  rewrite !format_04d_read in H by assumption. injection H as H. lia.
Qed.

Lemma sample_name_inj stem sample_format i j :
  0 <= i -> 0 <= j ->
  sample_name stem sample_format i = sample_name stem sample_format j ->
  i = j.
Proof.
  unfold sample_name. intros Hi Hj H.
  apply string_append_cancel_l in H.
  apply (string_append_cancel_l "_sample_") in H.
  apply string_append_cancel_r in H.
  apply format_04d_inj; assumption.
Qed.

Lemma int_interval_length lo hi :
  List.length (int_interval lo hi) = Z.to_nat (hi - lo).
Proof. unfold int_interval. rewrite length_map, length_seq. reflexivity. Qed.

(** X8.  The sample exporter of part_000's [get_song_info_c], given a
    stem whose sample names all fit the 4096 bytes of [name]: the call
    returns; the file names of its write attempts are pairwise distinct,
    so no sample overwrites another; there are as many attempts as the
    module has samples; at most that many lines are printed; and for a
    module without samples nothing is written or printed. *)
Theorem exported_files_are_distinct :
  forall mpt buffer stem sample_format song,
    module mpt (ctls_set "load.skip_plugins" "1" []) buffer = Some song ->
    names_fit stem sample_format (GetNumSamples (get_snd_file song)) = true ->
    exists info evs,
      Part000.get_song_info_c mpt buffer (Some stem) sample_format
      = Some (info, evs)
      /\ NoDup (map snd (write_attempts evs))
      /\ List.length (write_attempts evs)
         = Z.to_nat (GetNumSamples (get_snd_file song))
      /\ (List.length (printed evs)
          <= Z.to_nat (GetNumSamples (get_snd_file song)))%nat
      /\ (GetNumSamples (get_snd_file song) <= 0 -> evs = []).
Proof.
  intros mpt buffer stem sample_format song Hload Hfit.
  set (sf := get_snd_file song) in *.
  set (indices := int_interval 1 (GetNumSamples sf + 1)).
  unfold names_fit in Hfit. fold indices in Hfit.
  destruct (export_samples_fit sf stem sample_format indices Hfit)
    as (evs & He & Hw & _ & Hp).
  assert (Hlen : List.length indices = Z.to_nat (GetNumSamples sf)).
  { unfold indices. rewrite int_interval_length. f_equal. lia. }
  eexists. exists evs. split.
  { unfold Part000.get_song_info_c. rewrite Hload. cbv zeta.
    fold sf. fold indices. rewrite He. reflexivity. }
  rewrite Hw, Hp.
  split; [|split; [|split]].
  - rewrite map_map. cbn [snd].
    apply Injective_map_NoDup_in; [|apply int_interval_NoDup].
    intros x y Hx Hy. unfold indices in Hx, Hy.
    apply in_int_interval in Hx, Hy.
    apply sample_name_inj; lia.
  - rewrite length_map. exact Hlen.
  - rewrite length_map, <- Hlen. apply filter_length_le.
  - intro Hn. destruct indices; [|simpl in Hlen; lia].
    cbn [Part000.export_samples] in He. injection He as <-. reflexivity.
Qed.

Lemma exported_files_are_distinct_witness :
  exists info evs,
    Part000.get_song_info_c
      (loads (with_snd_file three_samples
                (tape 4 0 3 every_interface 160800)))
      [] (Some "track") Part000.SampleFormat_Wav
    = Some (info, evs)
    /\ NoDup (map snd (write_attempts evs))
    /\ List.length (write_attempts evs) = 3%nat.
Proof.
  destruct (exported_files_are_distinct
              (loads (with_snd_file three_samples
                        (tape 4 0 3 every_interface 160800)))
              [] "track" Part000.SampleFormat_Wav
              (with_snd_file three_samples
                 (tape 4 0 3 every_interface 160800)) eq_refl)
    as (info & evs & Hrun & Hdistinct & Hcount & _ & _).
  - vm_compute. reflexivity.
  - exists info, evs. split; [exact Hrun|]. split; [exact Hdistinct|].
    rewrite Hcount. reflexivity.
Defined.
